(** * The task-execution pipeline of the Autonomous Workspace agent

    A shallow embedding of the TypeScript sources of the pipeline
    (tool dispatcher, streaming execute endpoint, client-side sequential
    executor, intent classifier and pipeline stage tracking), of the
    calendar, terminal and browser adapters, of the audit log and of the
    other endpoints of the server, followed by the properties established
    about them.

    Part I holds the embedding, one module per source file.
    Part II holds the lemmas and theorems. *)

From Stdlib Require Import ZArith NArith List String Ascii Bool Lia.
From Stdlib Require Import DecimalString DecimalPos DecimalZ.
From Stdlib Require QArith.
From stdpp Require Import base option list gmap sorting.

Set Default Proof Using "Type".
Local Open Scope string_scope.
Local Open Scope list_scope.
Local Open Scope N_scope.

(* ===================================================================== *)
(** * Part I: the embedding *)
(* ===================================================================== *)

(** ** JavaScript strings

    A JavaScript string is a sequence of UTF-16 code units; [length],
    [substring], [includes], [startsWith], [split] and [replace] all work
    on code units, so a string is modelled as [list N].  [lit] builds the
    string of an ASCII literal. *)
Module Js.

Abbreviation jsstring := (list N) (only parsing).

Definition lit (s : string) : jsstring :=
  (fun a => N_of_ascii a) <$> list_ascii_of_string s.

(** [a === b] on strings. *)
Definition str_eqb (a b : jsstring) : bool := bool_decide (a = b).

(** Truthiness of a string: every string but the empty one. *)
Definition truthy (s : jsstring) : bool :=
  match s with [] => false | _ :: _ => true end.

(** WhiteSpace and LineTerminator code units: what [trim] strips and what
    the regular-expression class [\s] matches. *)
Definition is_ws (c : N) : bool :=
  (c =? 0x09) || (c =? 0x0A) || (c =? 0x0B) || (c =? 0x0C) || (c =? 0x0D)
  || (c =? 0x20) || (c =? 0xA0) || (c =? 0x1680)
  || ((0x2000 <=? c) && (c <=? 0x200A))
  || (c =? 0x2028) || (c =? 0x2029) || (c =? 0x202F) || (c =? 0x205F)
  || (c =? 0x3000) || (c =? 0xFEFF).

(** The class [\d]. *)
Definition is_digit (c : N) : bool := (0x30 <=? c) && (c <=? 0x39).

Fixpoint drop_while (p : N -> bool) (s : jsstring) : jsstring :=
  match s with
  | [] => []
  | c :: s' => if p c then drop_while p s' else s
  end.

Definition trimStart (s : jsstring) : jsstring := drop_while is_ws s.
Definition trimEnd (s : jsstring) : jsstring := rev (drop_while is_ws (rev s)).
(** [s.trim()] *)
Definition trim (s : jsstring) : jsstring := trimEnd (trimStart s).

(** [s.startsWith(p)] *)
Fixpoint startsWith (s p : jsstring) {struct p} : bool :=
  match p, s with
  | [], _ => true
  | _ :: _, [] => false
  | a :: p', b :: s' => (a =? b) && startsWith s' p'
  end.

(** [s.includes(p)] *)
Fixpoint includes (s p : jsstring) : bool :=
  startsWith s p ||
  match s with
  | [] => false
  | _ :: s' => includes s' p
  end.

(** [s.substring(0, n)] *)
Definition substring0 (n : nat) (s : jsstring) : jsstring := take n s.

(** [s.replace(/c/g, d)] for single code units [c] and [d]. *)
Definition replace_unit (c d : N) (s : jsstring) : jsstring :=
  (fun x => if x =? c then d else x) <$> s.

(** The first alternative of [alts] that matches at the head of [s]. *)
Definition match_alt (alts : list jsstring) (s : jsstring) : option jsstring :=
  find (startsWith s) alts.

(** [s.replace(/a1|a2|.../g, '')] for literal, non-empty alternatives: the
    text is scanned left to right; at each position the alternatives are
    tried in order and the first that matches is removed; [skip] counts the
    code units of the current match still to be dropped. *)
Fixpoint remove_all_from (alts : list jsstring) (skip : nat) (s : jsstring)
  : jsstring :=
  match s with
  | [] => []
  | c :: s' =>
      match skip with
      | S k => remove_all_from alts k s'
      | O =>
          match match_alt alts s with
          | Some a => remove_all_from alts (pred (length a)) s'
          | None => c :: remove_all_from alts 0 s'
          end
      end
  end.

Definition remove_all (alts : list jsstring) (s : jsstring) : jsstring :=
  remove_all_from alts 0 s.

(** [s.split(sep)] for a one-unit separator; the empty string splits into
    one empty piece. *)
Fixpoint split (sep : N) (s : jsstring) : list jsstring :=
  match s with
  | [] => [[]]
  | c :: s' =>
      if c =? sep then [] :: split sep s'
      else match split sep s' with
           | piece :: rest => (c :: piece) :: rest
           | [] => [[c]]
           end
  end.

(** [pieces.join(sep)] *)
Fixpoint join (sep : jsstring) (pieces : list jsstring) : jsstring :=
  match pieces with
  | [] => []
  | [p] => p
  | p :: rest => p ++ sep ++ join sep rest
  end.

(** Lower-casing of one code unit.  ASCII capitals map to their small
    letters.  Two code units outside ASCII lower-case to ASCII letters and
    are kept exact: KELVIN SIGN (U+212A) gives [k], and LATIN CAPITAL I
    WITH DOT ABOVE (U+0130) gives [i] followed by U+0307.  Every other code
    unit is kept: JavaScript maps other cased letters to letters outside
    ASCII, one code unit for one. *)
Definition lowerUnit (c : N) : jsstring :=
  if (0x41 <=? c) && (c <=? 0x5A) then [c + 0x20]
  else if c =? 0x212A then [0x6B]
  else if c =? 0x0130 then [0x69; 0x0307]
  else [c].

(** [s.toLowerCase()] *)
Definition toLowerCase (s : jsstring) : jsstring := flat_map lowerUnit s.

End Js.

(** ** validation.ts: pipeline stages, intents and the pipeline context *)
Module Validation.
Import Js.

Inductive PipelineStage :=
| idle | query_parsing | tool_selection | executing | summarizing
| complete | failed.

Inductive QueryIntent :=
| factual | comparison | research | real_time | action | calculation
| creative | general.

Record TaskResult := {
  tr_taskId : jsstring;
  tr_tool : jsstring;
  tr_rawResult : jsstring;
  tr_summary : option jsstring;
  tr_success : bool;
  tr_error : option jsstring
}.

Record Citation := {
  index : Z;
  title : jsstring;
  url : jsstring;
  snippet : option jsstring
}.

Record PipelineContext := {
  originalQuery : jsstring;
  intent : QueryIntent;
  decomposedQueries : list jsstring;
  selectedTool : jsstring;
  taskResults : list TaskResult;
  finalAnswer : jsstring;
  citations : list Citation;
  stage : PipelineStage;
  progress : Z;
  startTime : Z;
  endTime : option Z
}.

(** The operator class [[\+\-\*\/]]. *)
Definition is_operator (c : N) : bool :=
  (c =? 0x2B) || (c =? 0x2D) || (c =? 0x2A) || (c =? 0x2F).

(** What must follow a digit for [/\d+\s*[\+\-\*\/]\s*\d+/] to match there:
    white space, one operator, white space, a digit.  The classes are
    disjoint, so the greedy reading is the only one. *)
Definition arithmetic_tail (s : jsstring) : bool :=
  match drop_while is_ws s with
  | op :: r =>
      is_operator op &&
      match drop_while is_ws r with
      | d :: _ => is_digit d
      | [] => false
      end
  | [] => false
  end.

(** [s.match(/\d+\s*[\+\-\*\/]\s*\d+/)] is not null. *)
Fixpoint matches_arithmetic (s : jsstring) : bool :=
  match s with
  | [] => false
  | c :: s' => (is_digit c && arithmetic_tail s') || matches_arithmetic s'
  end.

(** The condition of each [if] of [detectIntent], on the lower-cased query. *)
Definition is_comparison (lowerQuery : jsstring) : bool :=
  includes lowerQuery (lit " vs ") ||
  includes lowerQuery (lit "versus") ||
  includes lowerQuery (lit "compare") ||
  includes lowerQuery (lit "difference between") ||
  includes lowerQuery (lit "better than").

Definition is_real_time (lowerQuery : jsstring) : bool :=
  includes lowerQuery (lit "weather") ||
  includes lowerQuery (lit "stock price") ||
  includes lowerQuery (lit "current") ||
  includes lowerQuery (lit "today") ||
  includes lowerQuery (lit "right now") ||
  includes lowerQuery (lit "live").

Definition is_calculation (lowerQuery : jsstring) : bool :=
  matches_arithmetic lowerQuery ||
  includes lowerQuery (lit "calculate") ||
  includes lowerQuery (lit "convert") ||
  includes lowerQuery (lit "how much is") ||
  includes lowerQuery (lit "currency").

Definition is_action (lowerQuery : jsstring) : bool :=
  includes lowerQuery (lit "create") ||
  includes lowerQuery (lit "write") ||
  includes lowerQuery (lit "send") ||
  includes lowerQuery (lit "schedule") ||
  includes lowerQuery (lit "delete") ||
  includes lowerQuery (lit "make a file").

Definition is_factual (lowerQuery : jsstring) : bool :=
  startsWith lowerQuery (lit "what is") ||
  startsWith lowerQuery (lit "who is") ||
  startsWith lowerQuery (lit "when did") ||
  startsWith lowerQuery (lit "where is") ||
  startsWith lowerQuery (lit "define") ||
  includes lowerQuery (lit "meaning of").

Definition is_research (lowerQuery : jsstring) : bool :=
  includes lowerQuery (lit "explain") ||
  includes lowerQuery (lit "how does") ||
  includes lowerQuery (lit "why is") ||
  includes lowerQuery (lit "research") ||
  includes lowerQuery (lit "analysis") ||
  includes lowerQuery (lit "in depth") ||
  (100 <? length lowerQuery)%nat.

Definition is_creative (lowerQuery : jsstring) : bool :=
  includes lowerQuery (lit "generate") ||
  includes lowerQuery (lit "write me") ||
  includes lowerQuery (lit "create a story") ||
  includes lowerQuery (lit "poem") ||
  includes lowerQuery (lit "creative").

(** [detectIntent(query)] *)
Definition detectIntent (query : jsstring) : QueryIntent :=
  let lowerQuery := toLowerCase query in
  if is_comparison lowerQuery then comparison
  else if is_real_time lowerQuery then real_time
  else if is_calculation lowerQuery then calculation
  else if is_action lowerQuery then action
  else if is_factual lowerQuery then factual
  else if is_research lowerQuery then research
  else if is_creative lowerQuery then creative
  else general.

(** The classifier as the specification words it: an ordered table of
    rules, the first rule whose pattern matches wins, [general] when none
    does. *)
Definition intent_rules : list (QueryIntent * (jsstring -> bool)) :=
  [ (comparison, is_comparison); (real_time, is_real_time);
    (calculation, is_calculation); (action, is_action);
    (factual, is_factual); (research, is_research);
    (creative, is_creative) ].

Fixpoint first_matching_rule (rules : list (QueryIntent * (jsstring -> bool)))
  (lowerQuery : jsstring) : QueryIntent :=
  match rules with
  | [] => general
  | (i, matches) :: rest =>
      if matches lowerQuery then i else first_matching_rule rest lowerQuery
  end.

(** [stage === 'complete' || stage === 'failed'] *)
Definition is_terminal_stage (s : PipelineStage) : bool :=
  match s with
  | complete | failed => true
  | _ => false
  end.

(** [updateStage(context, stage, progress)]; [now] is what [Date.now()]
    reads when the call is made. *)
Definition updateStage (now : Z) (context : PipelineContext)
  (stage' : PipelineStage) (progress' : Z) : PipelineContext :=
  {| originalQuery := originalQuery context;
     intent := intent context;
     decomposedQueries := decomposedQueries context;
     selectedTool := selectedTool context;
     taskResults := taskResults context;
     finalAnswer := finalAnswer context;
     citations := citations context;
     stage := stage';
     progress := progress';
     startTime := startTime context;
     endTime := if is_terminal_stage stage' then Some now else None |}.

End Validation.

(** ** Effects: written values, exceptions, [try]/[catch] *)
Module Effects.
Import Js.

(** What a [throw] carries: an [Error] object with its message, or a value
    that is not an [Error]. *)
Inductive Exn :=
| JsError (message : jsstring)
| JsThrown.

(** [error instanceof Error ? error.message : fallback] *)
Definition message_or (fallback : jsstring) (error : Exn) : jsstring :=
  match error with
  | JsError message => message
  | JsThrown => fallback
  end.

(** How a call ends. *)
Inductive Outcome (A : Type) :=
| Returned (a : A)
| Threw (error : Exn).
Arguments Returned {A} a.
Arguments Threw {A} error.

(** A computation writes values of [W] in order (events sent on the
    response, lines handed to the [onLog] sink) and then returns or throws.
    What was written before a throw stays written. *)
Definition Comp (W A : Type) : Type := list W * Outcome A.

Definition ret {W A} (a : A) : Comp W A := ([], Returned a).
Definition throw {W A} (error : Exn) : Comp W A := ([], Threw error).
Definition tell {W} (w : W) : Comp W unit := ([w], Returned tt).

Definition bind {W A B} (c : Comp W A) (k : A -> Comp W B) : Comp W B :=
  match c with
  | (written, Returned a) =>
      let (written', r) := k a in (written ++ written', r)
  | (written, Threw error) => (written, Threw error)
  end.

(** [try { body } catch (error) { handler }] *)
Definition try_catch {W A} (body : Comp W A) (handler : Exn -> Comp W A)
  : Comp W A :=
  match body with
  | (written, Returned a) => (written, Returned a)
  | (written, Threw error) =>
      let (written', r) := handler error in (written ++ written', r)
  end.

(** [await f(...)] of a collaborator that writes nothing itself. *)
Definition call {W A} (o : Outcome A) : Comp W A := ([], o).

(** Running a computation whose written values are log lines with a sink
    that turns each line into a value of [W] ([onLog] given), or with no
    sink ([onLog] undefined: the lines are dropped). *)
Definition with_sink {W A} (onLog : option (jsstring -> W))
  (c : Comp jsstring A) : Comp W A :=
  match onLog with
  | Some sink => (sink <$> fst c, snd c)
  | None => ([], snd c)
  end.

Definition written {W A} (c : Comp W A) : list W := fst c.
Definition outcome {W A} (c : Comp W A) : Outcome A := snd c.

End Effects.

Notation "'let*' x ':=' c 'in' k" := (Effects.bind c (fun x => k))
  (at level 10, x pattern, c at level 100, k at level 200).

(** ** JSON values and payloads *)
Module Json.
Import Js.

(** A property value of a payload.  Numbers are integers here; the ones
    JavaScript holds exactly are the safe integers, [Value.safe]. *)
Inductive JsVal :=
| JUndefined
| JNull
| JBool (b : bool)
| JNum (n : Z)
| JStr (s : jsstring).

(** [payload.key]: [undefined] when the key is absent. *)
Definition get (payload : gmap (list N) JsVal) (key : jsstring) : JsVal :=
  default JUndefined (payload !! key).

(** The string a template literal [${v}] inserts.  A number is printed in
    plain digits, which is what JavaScript prints for an integer below
    10^21, so for every safe integer. *)
Definition to_string (v : JsVal) : jsstring :=
  match v with
  | JUndefined => lit "undefined"
  | JNull => lit "null"
  | JBool true => lit "true"
  | JBool false => lit "false"
  | JNum n => lit (NilZero.string_of_int (Z.to_int n))
  | JStr s => s
  end.

End Json.

Abbreviation Payload := (gmap (list N) Json.JsVal) (only parsing).

(** [process.env]: the variables that are set, with their values. *)
Abbreviation ProcessEnv := (gmap (list N) (list N)) (only parsing).

(** ** tools/dispatcher.ts: the tool registry and the dispatcher *)
Module Dispatcher.
Import Js Effects Json.

Record ToolDefinition := {
  name : jsstring;
  description : jsstring;
  payloadExample : Payload;
  enabled : bool
}.

(** adapters/custom.ts, [CustomToolConfig] *)
Record CustomToolConfig := {
  ct_name : jsstring;
  ct_description : jsstring;
  ct_type : jsstring;
  ct_command : option jsstring;
  ct_url : option jsstring;
  ct_method : option jsstring
}.

(** The tool adapters, external collaborators of the dispatcher.  Only
    [executeSearch] is handed the [onLog] sink, so only it writes log
    lines. *)
Record Adapters := {
  executeFilesystem : Payload -> Outcome jsstring;
  executeGithub : Payload -> Outcome jsstring;
  executeSlack : Payload -> Outcome jsstring;
  executeCalendar : Payload -> Outcome jsstring;
  executeTerminal : Payload -> Outcome jsstring;
  executeBrowser : Payload -> Outcome jsstring;
  executeSearch : Payload -> Comp jsstring jsstring;
  executeLeetCode : Payload -> Outcome jsstring;
  executeMCPRegistry : Payload -> Outcome jsstring;
  executeUtility : Payload -> Outcome jsstring;
  executeCustomTool : Payload -> CustomToolConfig -> Outcome jsstring
}.

(** What [new URL(url)] gives when it does not throw. *)
Record ParsedURL := {
  hostname : jsstring;
  pathname : jsstring
}.

(** [process.env.KEY !== 'false'] *)
Definition env_not_false (env : ProcessEnv) (key : string) : bool :=
  negb (bool_decide (env !! lit key = Some (lit "false"))).

(** [process.env.KEY === 'true'] *)
Definition env_is_true (env : ProcessEnv) (key : string) : bool :=
  bool_decide (env !! lit key = Some (lit "true")).

(** An object literal [{ key: value, ... }], its keys distinct. *)
Definition obj (fields : list (string * JsVal)) : Payload :=
  list_to_map ((fun kv => (lit (fst kv), snd kv)) <$> fields).

(** The code units of the two characters the sources write escaped. *)
Definition newline : N := 0x0A.
Definition dquote : N := 0x22.

Section Dispatch.

(** The process environment, the custom tools read from
    [custom_tools.json] at start-up, the adapters and the runtime's URL
    parser. *)
Variable env : ProcessEnv.
Variable CUSTOM_TOOLS : list CustomToolConfig.
Variable adapters : Adapters.
Variable URL : jsstring -> option ParsedURL.

Definition TOOL_DEFINITIONS : list ToolDefinition :=
  [ {| name := lit "filesystem";
       description := lit "Read, write, list, delete LOCAL files only. NOT for web content - use search/browser for web. NEVER save web search results to files.";
       payloadExample := obj [("action", JStr (lit "write")); ("path", JStr (lit "notes.md")); ("content", JStr (lit "# My Notes"))];
       enabled := env_not_false env "ENABLE_FILESYSTEM" |};
    {| name := lit "github";
       description := lit "Create issues, PRs, and fetch repository information";
       payloadExample := obj [("action", JStr (lit "create_issue")); ("repo", JStr (lit "owner/repo")); ("title", JStr (lit "Bug report")); ("body", JStr (lit "Description"))];
       enabled := env_not_false env "ENABLE_GITHUB" |};
    {| name := lit "slack";
       description := lit "Send messages to Slack channels or users";
       payloadExample := obj [("action", JStr (lit "send_message")); ("channel", JStr (lit "#general")); ("message", JStr (lit "Hello team!"))];
       enabled := env_not_false env "ENABLE_SLACK" |};
    {| name := lit "calendar";
       description := lit "Create, list, and delete calendar events";
       payloadExample := obj [("action", JStr (lit "create_event")); ("title", JStr (lit "Meeting")); ("date", JStr (lit "2024-01-15")); ("time", JStr (lit "10:00"))];
       enabled := env_not_false env "ENABLE_CALENDAR" |};
    {| name := lit "terminal";
       description := lit "Execute whitelisted terminal commands (ls, cat, echo, pwd, date, whoami)";
       payloadExample := obj [("action", JStr (lit "execute")); ("command", JStr (lit "ls -la"))];
       enabled := env_is_true env "ALLOW_TERMINAL" |};
    {| name := lit "browser";
       description := lit "Fetch content from URLs safely. For stock prices, use Yahoo Finance API";
       payloadExample := obj [("action", JStr (lit "fetch")); ("url", JStr (lit "https://query1.finance.yahoo.com/v8/finance/chart/AAPL")); ("method", JStr (lit "GET"))];
       enabled := env_not_false env "ENABLE_BROWSER" |};
    {| name := lit "search";
       description := lit "Web search for news (HackerNews), facts, and definitions (DuckDuckGo/Wikipedia)";
       payloadExample := obj [("action", JStr (lit "search")); ("query", JStr (lit "latest AI news"))];
       enabled := env_not_false env "ENABLE_SEARCH" |};
    {| name := lit "leetcode";
       description := lit "Fetch LeetCode problems with description, examples, and starter code";
       payloadExample := obj [("action", JStr (lit "get_problem")); ("problemId", JNum 1)];
       enabled := env_not_false env "ENABLE_LEETCODE" |};
    {| name := lit "mcp_registry";
       description := lit "Search for other MCP servers and tools (e.g. sqlite, postgres, etc.)";
       payloadExample := obj [("action", JStr (lit "search")); ("query", JStr (lit "database"))];
       enabled := true |};
    {| name := lit "utility";
       description := lit "Useful utilities: weather, time, currency/convert_currency, math, crypto, translate, ip, system, uuid, joke";
       payloadExample := obj [("action", JStr (lit "weather")); ("location", JStr (lit "London"))];
       enabled := env_not_false env "ENABLE_UTILITY" |} ].

(** [getAvailableTools()] *)
Definition getAvailableTools : list ToolDefinition :=
  let builtIn := filter (fun t => enabled t = true) TOOL_DEFINITIONS in
  let custom :=
    (fun ct => {| name := ct_name ct;
                  description := ct_description ct;
                  payloadExample := obj [("toolName", JStr (ct_name ct)); ("arg1", JStr (lit "value"))];
                  enabled := true |}) <$> CUSTOM_TOOLS in
  builtIn ++ custom.

(** [TOOL_DEFINITIONS.find(t => t.name === tool)] *)
Definition find_tool (tool : jsstring) : option ToolDefinition :=
  find (fun t => str_eqb (name t) tool) TOOL_DEFINITIONS.

(** [CUSTOM_TOOLS.find(t => t.name === tool)] *)
Definition find_custom (tool : jsstring) : option CustomToolConfig :=
  find (fun t => str_eqb (ct_name t) tool) CUSTOM_TOOLS.

(** [!toolDef || !toolDef.enabled] *)
Definition missing_or_disabled (toolDef : option ToolDefinition) : bool :=
  match toolDef with
  | None => true
  | Some d => negb (enabled d)
  end.

(** The search query the browser fallback derives from the payload's
    [url]: host name, a space, the path with every slash turned into a
    space, trimmed at both ends; the [url] itself when it does not parse. *)
Definition fallback_query (url : JsVal) : JsVal :=
  match URL (to_string url) with
  | Some parsed =>
      JStr (trim (hostname parsed ++ lit " " ++
                  replace_unit 0x2F 0x20 (pathname parsed)))
  | None => url
  end.

(** The payload of the fallback search. *)
Definition fallback_payload (searchQuery : JsVal) : Payload :=
  obj [("action", JStr (lit "search")); ("query", searchQuery);
       ("limit", JNum 5); ("deepFetch", JBool true)].

Definition fallback_marker : jsstring :=
  lit "[Fallback from browser to search]" ++ [newline; newline].

(** The [catch] block of the browser case. *)
Definition browser_fallback (payload : Payload) (error : Exn)
  : Comp jsstring jsstring :=
  let url := get payload (lit "url") in
  let* _ := tell (lit "[Dispatcher] Browser failed for " ++ to_string url
                  ++ lit ", falling back to search...") in
  let searchQuery := fallback_query url in
  let* _ := tell (lit "[Dispatcher] Searching for: " ++ [dquote]
                  ++ to_string searchQuery ++ [dquote]) in
  let* searchResult := executeSearch adapters (fallback_payload searchQuery) in
  ret (fallback_marker ++ searchResult).

(** The [switch (tool)] of [dispatchTool]. *)
Definition dispatch_builtin (tool : jsstring) (payload : Payload)
  : Comp jsstring jsstring :=
  if str_eqb tool (lit "filesystem") then call (executeFilesystem adapters payload)
  else if str_eqb tool (lit "github") then call (executeGithub adapters payload)
  else if str_eqb tool (lit "slack") then call (executeSlack adapters payload)
  else if str_eqb tool (lit "calendar") then call (executeCalendar adapters payload)
  else if str_eqb tool (lit "terminal") then call (executeTerminal adapters payload)
  else if str_eqb tool (lit "browser") then
    try_catch (call (executeBrowser adapters payload)) (browser_fallback payload)
  else if str_eqb tool (lit "search") then executeSearch adapters payload
  else if str_eqb tool (lit "leetcode") then call (executeLeetCode adapters payload)
  else if str_eqb tool (lit "mcp_registry") then call (executeMCPRegistry adapters payload)
  else if str_eqb tool (lit "utility") then call (executeUtility adapters payload)
  else throw (JsError (lit "Unknown tool: " ++ tool)).

(** [dispatchTool(tool, payload, onLog)].  The written values are the
    lines offered to [onLog]; the caller applies its sink, or none. *)
Definition dispatchTool (tool : jsstring) (payload : Payload)
  : Comp jsstring jsstring :=
  let toolDef := find_tool tool in
  let customToolConfig := find_custom tool in
  if missing_or_disabled toolDef && negb (bool_decide (is_Some customToolConfig)) then
    throw (JsError (lit "Tool '" ++ tool
                    ++ lit "' is not enabled or does not exist."))
  else
    match customToolConfig with
    | Some config =>
        (* { toolName: tool, ...payload }: a [toolName] of the payload wins *)
        call (executeCustomTool adapters
                (payload ∪ {[ lit "toolName" := JStr tool ]}) config)
    | None => dispatch_builtin tool payload
    end.

(** The built-in adapters as a table keyed by tool name (the dispatch
    table of the specification): what a built-in tool runs when it has no
    recovery of its own. *)
Definition adapter_table
  : list (jsstring * (Payload -> Comp jsstring jsstring)) :=
  [ (lit "filesystem", fun payload => call (executeFilesystem adapters payload));
    (lit "github", fun payload => call (executeGithub adapters payload));
    (lit "slack", fun payload => call (executeSlack adapters payload));
    (lit "calendar", fun payload => call (executeCalendar adapters payload));
    (lit "terminal", fun payload => call (executeTerminal adapters payload));
    (lit "browser", fun payload => call (executeBrowser adapters payload));
    (lit "search", fun payload => executeSearch adapters payload);
    (lit "leetcode", fun payload => call (executeLeetCode adapters payload));
    (lit "mcp_registry", fun payload => call (executeMCPRegistry adapters payload));
    (lit "utility", fun payload => call (executeUtility adapters payload)) ].

Definition adapter_of (tool : jsstring)
  : option (Payload -> Comp jsstring jsstring) :=
  snd <$> find (fun entry => str_eqb (fst entry) tool) adapter_table.

End Dispatch.

(** A text is whitespace-collapsed when it neither starts nor ends with
    white space and holds no two white-space code units in a row. *)
Fixpoint no_double_space (s : jsstring) : bool :=
  match s with
  | a :: (b :: _) as rest => negb (is_ws a && is_ws b) && no_double_space rest
  | _ => true
  end.

Definition whitespace_collapsed (s : jsstring) : bool :=
  str_eqb (trim s) s && no_double_space s.

Record ChainedToolResult := {
  success : bool;
  tool : jsstring;
  result : jsstring;
  fallbackUsed : option jsstring;
  transformedForNext : option jsstring
}.

(** The alternatives of the pattern that [transformResultForNext] removes
    first, code unit for code unit as the source file spells them:
    U+00F0 U+0178 followed by U+201D; U+0152; U+201C U+2039;
    U+201C U+201E; U+201D U+2014. *)
Definition emoji_pattern : list jsstring :=
  [ [0xF0; 0x178; 0x201D];
    [0xF0; 0x178; 0x152];
    [0xF0; 0x178; 0x201C; 0x2039];
    [0xF0; 0x178; 0x201C; 0x201E];
    [0xF0; 0x178; 0x201D; 0x2014] ].

(** [fromTool === 'search' || fromTool === 'browser'] *)
Definition search_like (fromTool : jsstring) : bool :=
  str_eqb fromTool (lit "search") || str_eqb fromTool (lit "browser").

(** [transformResultForNext(result, fromTool, toTool)] *)
Definition transformResultForNext (result fromTool toTool : jsstring)
  : jsstring :=
  if search_like fromTool && str_eqb toTool (lit "filesystem") then
    substring0 (N.to_nat 10000) (remove_all [lit "**"] (remove_all emoji_pattern result))
  else if search_like fromTool && str_eqb toTool (lit "slack") then
    let lines := filter (fun l => truthy (trim l) = true) (split newline result) in
    join [newline] (take 10 lines)
  else result.

(** [const enrichedPayload = previousResult ? {...payload, previousContext:
    previousResult} : payload] *)
Definition enrichedPayload (payload : Payload)
  (previousResult : option jsstring) : Payload :=
  match previousResult with
  | Some previous =>
      if truthy previous
      then <[ lit "previousContext" := JStr previous ]> payload
      else payload
  | None => payload
  end.

(** [nextTool && result] *)
Definition wants_transform (nextTool : option jsstring) (result : jsstring)
  : option jsstring :=
  match nextTool with
  | Some next => if truthy next && truthy result then Some next else None
  | None => None
  end.

Section Chaining.

Variable env : ProcessEnv.
Variable CUSTOM_TOOLS : list CustomToolConfig.
Variable adapters : Adapters.
Variable URL : jsstring -> option ParsedURL.

(** [dispatchToolWithChaining(tool, payload, previousResult, nextTool,
    onLog)] *)
Definition dispatchToolWithChaining (tool : jsstring)
  (payload : Payload) (previousResult nextTool : option jsstring)
  : Comp jsstring ChainedToolResult :=
  let enriched := enrichedPayload payload previousResult in
  try_catch
    (let* result := dispatchTool env CUSTOM_TOOLS adapters URL tool enriched in
     let fallbackUsed :=
       if startsWith result (lit "[Fallback") then Some (lit "search") else None in
     let transformedForNext :=
       (fun next => transformResultForNext result tool next)
         <$> wants_transform nextTool result in
     ret {| success := true;
            tool := tool;
            result := result;
            fallbackUsed := fallbackUsed;
            transformedForNext := transformedForNext |})
    (fun error =>
       ret {| success := false;
              tool := tool;
              result := message_or (lit "Unknown error") error;
              fallbackUsed := None;
              transformedForNext := None |}).

End Chaining.

End Dispatcher.

(** ** index.ts: the streaming execute endpoint *)
Module Server.
Import Js Effects Json.

(** The events of the response stream, [sendEvent(event, data)]. *)
Inductive StreamEvent :=
| Start (taskId tool : jsstring)
| Log (message : jsstring)
| ToolResult (rawResult : jsstring)
| SummaryChunk (content : jsstring)
| Done (result : jsstring)
| Error (message : jsstring).

(** [req.query]: each parameter may be absent. *)
Record Query := {
  q_taskId : option jsstring;
  q_tool : option jsstring;
  q_payload : option jsstring;
  q_description : option jsstring
}.

(** The stream the summarizer opens: the [delta.content] of each chunk
    (absent in some chunks), and how the iteration ends: normally, or by a
    throw. *)
Record SummaryStream := {
  chunks : list (option jsstring);
  failure : option Exn
}.

(** The name an event is sent under. *)
Inductive EventKind :=
| start_ev | log_ev | tool_result_ev | summary_chunk_ev | done_ev | error_ev.

Definition kind (event : StreamEvent) : EventKind :=
  match event with
  | Start _ _ => start_ev
  | Log _ => log_ev
  | ToolResult _ => tool_result_ev
  | SummaryChunk _ => summary_chunk_ev
  | Done _ => done_ev
  | Error _ => error_ev
  end.

Definition kind_eqb (a b : EventKind) : bool :=
  match a, b with
  | start_ev, start_ev | log_ev, log_ev | tool_result_ev, tool_result_ev
  | summary_chunk_ev, summary_chunk_ev | done_ev, done_ev
  | error_ev, error_ev => true
  | _, _ => false
  end.

(** The terminal events of a task: [done] and [error]. *)
Definition terminal (event : StreamEvent) : bool :=
  match event with
  | Done _ | Error _ => true
  | _ => false
  end.

(** How many events of a kind a stream holds. *)
Definition count (k : EventKind) (events : list StreamEvent) : nat :=
  length (filter (fun event => kind_eqb (kind event) k = true) events).

(** The text pieces a summary stream yields: the contents of its chunks
    that have one, the empty ones skipped. *)
Definition contents_of (pending : list (option jsstring)) : list jsstring :=
  filter (fun content => truthy content = true) (default [] <$> pending).

(** A query parameter that is present and not the empty string. *)
Definition given (parameter : option jsstring) : option jsstring :=
  match parameter with
  | Some s => if truthy s then Some s else None
  | None => None
  end.

Definition sendEvent (event : StreamEvent) : Comp StreamEvent unit :=
  tell event.

(** The body of [for await (const chunk of stream)]. *)
Fixpoint consume (pending : list (option jsstring)) (fullSummary : jsstring)
  : Comp StreamEvent jsstring :=
  match pending with
  | [] => ret fullSummary
  | chunk :: rest =>
      let content := default [] chunk in
      if truthy content then
        let* _ := sendEvent (SummaryChunk content) in
        consume rest (fullSummary ++ content)
      else consume rest fullSummary
  end.

(** The whole iteration over the stream. *)
Definition for_await (stream : SummaryStream) : Comp StreamEvent jsstring :=
  let* fullSummary := consume (chunks stream) [] in
  match failure stream with
  | Some error => throw error
  | None => ret fullSummary
  end.

Section Endpoint.

(** The collaborators of the handler: the dispatcher it imports, the
    runtime's [JSON.parse] (on a payload object), the summarizer and the
    audit log. *)
Variable dispatchTool : jsstring -> Payload -> Comp jsstring jsstring.
Variable JSON_parse : jsstring -> option (Payload).
Variable streamSummarizeToolResult :
  jsstring -> jsstring -> jsstring -> Outcome SummaryStream.
Variable logTaskExecuted :
  jsstring -> jsstring -> Payload -> jsstring -> bool -> Outcome unit.

(** Step 3 of the handler, with its own [try]/[catch]. *)
Definition summarize (taskId tool : jsstring) (payload : Payload)
  (description rawResult : jsstring) : Comp StreamEvent unit :=
  try_catch
    (let* stream := call (streamSummarizeToolResult description tool rawResult) in
     let* fullSummary := for_await stream in
     let* _ := call (logTaskExecuted taskId tool payload fullSummary true) in
     sendEvent (Done fullSummary))
    (fun summarizeError =>
       let* _ := sendEvent (SummaryChunk rawResult) in
       sendEvent (Done rawResult)).

(** Steps 1 to 3, run once the parameters are accepted. *)
Definition execute (taskId tool : jsstring) (payload : Payload)
  (description : jsstring) : Comp StreamEvent unit :=
  let* _ := sendEvent (Start taskId tool) in
  let onLog := fun message => Log message in
  let* rawResult := with_sink (Some onLog) (dispatchTool tool payload) in
  let* _ := sendEvent (ToolResult rawResult) in
  summarize taskId tool payload description rawResult.

(** The handler of [GET /api/stream-execute]. *)
Definition streamExecute (query : Query) : Comp StreamEvent unit :=
  try_catch
    (let description :=
       default (lit "Execute task") (given (q_description query)) in
     match given (q_taskId query), given (q_tool query), given (q_payload query) with
     | Some taskId, Some tool, Some payloadStr =>
         match JSON_parse payloadStr with
         | None => sendEvent (Error (lit "Invalid payload JSON"))
         | Some payload => execute taskId tool payload description
         end
     | _, _, _ => sendEvent (Error (lit "Missing required parameters"))
     end)
    (fun error =>
       sendEvent (Error (message_or (lit "Execution failed") error))).

End Endpoint.

End Server.

(** ** The client: lib/types.ts, api/mcpClient.ts and App.tsx *)
Module Client.
Import Js Effects Json Server.

Inductive TaskStatus := pending | approved | executing | success | failed.

Record Task := {
  id : jsstring;
  description : jsstring;
  tool : jsstring;
  payload : Payload;
  confidence : QArith_base.Q;
  status : TaskStatus;
  result : option jsstring;
  error : option jsstring;
  logs : option (list jsstring)
}.

Record ExecuteRequestWithDescription := {
  r_taskId : jsstring;
  r_tool : jsstring;
  r_payload : Payload;
  r_description : option jsstring
}.

Inductive MessageType := user | assistant | system.

Record Message := {
  m_id : jsstring;
  m_type : MessageType;
  m_content : jsstring;
  m_timestamp : Z;
  m_task : option Task;
  m_tasks : option (list Task)
}.

(** The keys [updateTaskInMessages] is called with. *)
Record TaskUpdates := {
  u_status : option TaskStatus;
  u_result : option jsstring;
  u_error : option jsstring
}.

(** [{ ...task, ...updates }] *)
Definition merge (task : Task) (updates : TaskUpdates) : Task :=
  {| id := id task;
     description := description task;
     tool := tool task;
     payload := payload task;
     confidence := confidence task;
     status := default (status task) (u_status updates);
     result := match u_result updates with
               | Some r => Some r
               | None => result task
               end;
     error := match u_error updates with
              | Some e => Some e
              | None => error task
              end;
     logs := logs task |}.

(** [{ ...msg, task }] *)
Definition with_task (msg : Message) (task : Task) : Message :=
  {| m_id := m_id msg; m_type := m_type msg; m_content := m_content msg;
     m_timestamp := m_timestamp msg; m_task := Some task;
     m_tasks := m_tasks msg |}.

(** [prev.map(msg => msg.task?.id === taskId ? { ...msg, task: f(msg.task) }
    : msg)], the shape of every state update of [App]. *)
Definition map_task (taskId : jsstring) (f : Task -> Task)
  (messages : list Message) : list Message :=
  (fun msg =>
     match m_task msg with
     | Some task =>
         if str_eqb (id task) taskId then with_task msg (f task) else msg
     | None => msg
     end) <$> messages.

Definition updateTaskInMessages (taskId : jsstring) (updates : TaskUpdates)
  (messages : list Message) : list Message :=
  map_task taskId (fun task => merge task updates) messages.

(** [logs: [...(msg.task.logs || []), event.data.message]] *)
Definition append_log (message : jsstring) (task : Task) : Task :=
  {| id := id task; description := description task; tool := tool task;
     payload := payload task; confidence := confidence task;
     status := status task; result := result task; error := error task;
     logs := Some (default [] (logs task) ++ [message]) |}.

(** [result: (msg.task.result || '') + event.data.content] *)
Definition append_result (content : jsstring) (task : Task) : Task :=
  {| id := id task; description := description task; tool := tool task;
     payload := payload task; confidence := confidence task;
     status := status task;
     result := Some (default [] (result task) ++ content);
     error := error task; logs := logs task |}.

(** What the listeners of [streamExecuteTask] hand to [onEvent] for a
    response stream.  [done] and [error] close the event source, so
    nothing after them is delivered; an [error] event whose message is
    empty is delivered with the default message; a response that ends
    without either makes the event source raise an error event of its own,
    which carries no data. *)
Fixpoint deliver (response : list StreamEvent) : list StreamEvent :=
  match response with
  | [] => [Error (lit "Stream connection error")]
  | Done r :: _ => [Done r]
  | Error message :: _ =>
      [Error (if truthy message then message
              else lit "Stream connection error")]
  | event :: rest => event :: deliver rest
  end.

(** How the promise of [executeTaskInternal] is settled. *)
Inductive Settled :=
| Resolved
| Rejected (reason : Exn).

(** [resolve()] and [reject(e)] settle a promise once. *)
Definition settle (settled : option Settled) (by_ : Settled) : option Settled :=
  match settled with
  | Some _ => settled
  | None => Some by_
  end.

(** The [switch (event.type)] of the [onEvent] callback. *)
Definition onEvent (task : Task) (st : list Message * option Settled)
  (event : StreamEvent) : list Message * option Settled :=
  let (messages, settled) := st in
  match event with
  | Start _ _ => st
  | Log message => (map_task (id task) (append_log message) messages, settled)
  | ToolResult _ => st
  | SummaryChunk content =>
      (map_task (id task) (append_result content) messages, settled)
  | Done _ =>
      (updateTaskInMessages (id task)
         {| u_status := Some success; u_result := None; u_error := None |}
         messages,
       settle settled Resolved)
  | Error message =>
      (updateTaskInMessages (id task)
         {| u_status := Some failed; u_result := None;
            u_error := Some message |}
         messages,
       settle settled (Rejected (JsError message)))
  end.

(** What the executor does that can be seen from outside: it opens an
    event stream for a request, and it is handed the events of the stream. *)
Inductive Activity :=
| Opened (request : ExecuteRequestWithDescription)
| Delivered (taskId : jsstring) (event : StreamEvent).

Definition request_of (task : Task) : ExecuteRequestWithDescription :=
  {| r_taskId := id task;
     r_tool := tool task;
     r_payload := payload task;
     r_description := Some (description task) |}.

Section App.

(** The events the server streams back for a request. *)
Variable endpoint : ExecuteRequestWithDescription -> list StreamEvent.

(** [streamExecuteTask(request, onEvent)]: the events handed to [onEvent]. *)
Definition streamExecuteTask (request : ExecuteRequestWithDescription)
  : list StreamEvent :=
  deliver (endpoint request).

(** [executeTaskInternal(task)]: the activity, the messages afterwards and
    how the returned promise is settled ([None]: never). *)
Definition executeTaskInternal (task : Task) (messages : list Message)
  : list Activity * list Message * option Settled :=
  let messages1 :=
    updateTaskInMessages (id task)
      {| u_status := Some executing; u_result := Some []; u_error := None |}
      messages in
  let events := streamExecuteTask (request_of task) in
  let (messages2, settled) := fold_left (onEvent task) events (messages1, None) in
  (Opened (request_of task) :: (Delivered (id task) <$> events),
   messages2, settled).

(** [executeTasksSequentially(tasks)].  A resolved promise is followed by
    the short delay, a rejected one by the [catch] that logs it; either way
    the loop goes on.  A promise that is never settled stops the loop at
    its [await]. *)
Fixpoint executeTasksSequentially (tasks : list Task) (messages : list Message)
  : list Activity * list Message :=
  match tasks with
  | [] => ([], messages)
  | task :: rest =>
      let '(activity, messages', settled) := executeTaskInternal task messages in
      match settled with
      | Some _ =>
          let (activity', messages'') := executeTasksSequentially rest messages' in
          (activity ++ activity', messages'')
      | None => (activity, messages')
      end
  end.

End App.

(** *** What the properties of the executor are stated with *)

(** The requests for which a stream was opened, in order. *)
Definition opened (activity : list Activity)
  : list ExecuteRequestWithDescription :=
  omap (fun a => match a with Opened request => Some request | _ => None end)
       activity.

(** The text of the [summary_chunk] events of a stream, in order. *)
Definition summary_text (events : list StreamEvent) : jsstring :=
  concat ((fun event => match event with SummaryChunk content => content | _ => [] end)
            <$> events).

(** The lines of the [log] events of a stream, in order. *)
Definition log_lines (events : list StreamEvent) : list jsstring :=
  omap (fun event => match event with Log message => Some message | _ => None end)
       events.

(** What one event does to the task of a card that shows the running
    task. *)
Definition apply_event (event : StreamEvent) (task : Task) : Task :=
  match event with
  | Start _ _ => task
  | Log message => append_log message task
  | ToolResult _ => task
  | SummaryChunk content => append_result content task
  | Done _ =>
      merge task {| u_status := Some success; u_result := None; u_error := None |}
  | Error message =>
      merge task {| u_status := Some failed; u_result := None;
                    u_error := Some message |}
  end.

(** The task of a card once its run is over: set to [executing] with an
    empty result, then changed by each delivered event in turn. *)
Definition ran (endpoint : ExecuteRequestWithDescription -> list StreamEvent)
  (task : Task) : Task :=
  fold_left (fun t event => apply_event event t)
    (streamExecuteTask endpoint (request_of task))
    (merge task {| u_status := Some executing; u_result := Some [];
                   u_error := None |}).

(** The request as it reaches the server: [URLSearchParams] of [taskId],
    [tool], [JSON.stringify(payload)] and [description || '']. *)
Definition query_of (JSON_stringify : Payload -> jsstring)
  (request : ExecuteRequestWithDescription) : Query :=
  {| q_taskId := Some (r_taskId request);
     q_tool := Some (r_tool request);
     q_payload := Some (JSON_stringify (r_payload request));
     q_description := Some (default [] (r_description request)) |}.

(** The events a server streams back for the request of a client. *)
Definition served_by (server : Query -> Comp StreamEvent unit)
  (JSON_stringify : Payload -> jsstring)
  (request : ExecuteRequestWithDescription) : list StreamEvent :=
  written (server (query_of JSON_stringify request)).

(** The task cards [handleSend] adds for the tasks of a plan.  The id and
    the time stamp of a message are never read by the executor; they are
    placeholders here. *)
Definition task_cards (tasks : list Task) : list Message :=
  (fun task => {| m_id := lit "msg-" ++ id task; m_type := assistant;
                  m_content := []; m_timestamp := 0%Z;
                  m_task := Some task; m_tasks := None |}) <$> tasks.

(** The tasks the cards show, in order. *)
Definition shown_tasks (messages : list Message) : list Task :=
  omap m_task messages.

End Client.

(** ** Concrete collaborators, for the worked scenarios *)
Module Scenario.
Import Js Effects Json.

(** Splits [s] at its first slash: the part before it, and the rest with
    the slash. *)
Fixpoint split_at_slash (s : jsstring) : jsstring * jsstring :=
  match s with
  | [] => ([], [])
  | c :: s' =>
      if c =? 0x2F then ([], s)
      else let (host, path) := split_at_slash s' in (c :: host, path)
  end.

Definition after_prefix (prefix s : jsstring) : option jsstring :=
  if startsWith s prefix then Some (drop (length prefix) s) else None.

(** [new URL(url)] on plain [http://host/path] and [https://host/path]
    addresses (no port, credentials, query or fragment): the host name and
    the path, [/] when the address has none.  Anything else is refused. *)
Definition URL (url : jsstring) : option Dispatcher.ParsedURL :=
  match
    match after_prefix (lit "https://") url with
    | Some rest => Some rest
    | None => after_prefix (lit "http://") url
    end
  with
  | Some rest =>
      let (host, path) := split_at_slash rest in
      if truthy host
      then Some {| Dispatcher.hostname := host;
                   Dispatcher.pathname := if truthy path then path else lit "/" |}
      else None
  | None => None
  end.

(** Adapters of a deployment in which the file system refuses every
    request, the browser cannot reach any address, and the other tools
    answer with a fixed text (the search with the query it was given,
    the utility with the previous context it was given). *)
Definition adapters : Dispatcher.Adapters :=
  {| Dispatcher.executeFilesystem := fun _ =>
       Threw (JsError (lit "EACCES: permission denied"));
     Dispatcher.executeGithub := fun _ => Returned (lit "Issue created");
     Dispatcher.executeSlack := fun _ => Returned (lit "Message sent");
     Dispatcher.executeCalendar := fun _ => Returned (lit "Event created");
     Dispatcher.executeTerminal := fun _ => Returned (lit "ok");
     Dispatcher.executeBrowser := fun _ =>
       Threw (JsError (lit "Domain not allowed"));
     Dispatcher.executeSearch := fun payload =>
       ([lit "[Search] querying"],
        Returned (lit "Results for: " ++ to_string (get payload (lit "query"))));
     Dispatcher.executeLeetCode := fun _ => Returned (lit "Two Sum");
     Dispatcher.executeMCPRegistry := fun _ => Returned (lit "sqlite");
     Dispatcher.executeUtility := fun payload =>
       Returned (lit "context=" ++ to_string (get payload (lit "previousContext")));
     Dispatcher.executeCustomTool := fun payload config =>
       Returned (lit "custom:" ++ Dispatcher.ct_name config) |}.

(** A custom tool that takes the name of a built-in one. *)
Definition custom_terminal : Dispatcher.CustomToolConfig :=
  {| Dispatcher.ct_name := lit "terminal";
     Dispatcher.ct_description := lit "Echoes back the input";
     Dispatcher.ct_type := lit "command";
     Dispatcher.ct_command := Some (lit "echo Hello {name}");
     Dispatcher.ct_url := None;
     Dispatcher.ct_method := None |}.

(** The payloads of the scenarios that go through the server are all the
    empty object; [JSON.stringify] and [JSON.parse] are given on it alone. *)
Definition JSON_stringify (payload : Payload) : jsstring :=
  lit "{}".

Definition JSON_parse (text : jsstring) : option (Payload) :=
  if str_eqb text (lit "{}") then Some ∅ else None.

(** A summarizer that streams two pieces of text, with a chunk without
    content between them. *)
Definition streamSummarizeToolResult (description tool rawResult : jsstring)
  : Outcome Server.SummaryStream :=
  Returned {| Server.chunks := [Some (lit "All "); None; Some (lit "done.")];
              Server.failure := None |}.

(** A summarizer whose service is down. *)
Definition summarizer_down (description tool rawResult : jsstring)
  : Outcome Server.SummaryStream :=
  Threw (JsError (lit "503 Service Unavailable")).

Definition logTaskExecuted (taskId tool : jsstring)
  (payload : Payload) (result : jsstring) (approved : bool)
  : Outcome unit :=
  Returned tt.

(** The server: the handler over the dispatcher, default environment, no
    custom tools. *)
Definition server (query : Server.Query) : Comp Server.StreamEvent unit :=
  Server.streamExecute
    (Dispatcher.dispatchTool ∅ [] adapters URL)
    JSON_parse streamSummarizeToolResult logTaskExecuted query.

Definition endpoint (request : Client.ExecuteRequestWithDescription)
  : list Server.StreamEvent :=
  Client.served_by server JSON_stringify request.

(** A task as [generatePlan] creates it. *)
Definition planned (planId : jsstring) (n : string) (description tool : string)
  : Client.Task :=
  {| Client.id := planId ++ lit "-task-" ++ lit n;
     Client.description := lit description;
     Client.tool := lit tool;
     Client.payload := ∅;
     Client.confidence := QArith_base.Qmake 9 10;
     Client.status := Client.pending;
     Client.result := None;
     Client.error := None;
     Client.logs := None |}.

(** The plan of the sample scenario: a file write, a message, an event. *)
Definition plan : list Client.Task :=
  [ planned (lit "p1") "1" "Save the notes" "filesystem";
    planned (lit "p1") "2" "Tell the team" "slack";
    planned (lit "p1") "3" "Book the meeting" "calendar" ].

End Scenario.

(** ** App.tsx while a plan is carried out: calls in flight, the loop, the button *)
Module Executor.
Import Js Effects Json Server Client.

(** A call of [executeTaskInternal] that has been made: the task it was
    given, the events of its stream that have not been handed to its
    [onEvent] yet, and its promise ([None]: pending). *)
Record Run := {
  run_task : Task;
  coming : list StreamEvent;
  promise : option Settled
}.

(** The page: the messages, the calls of [executeTaskInternal] made so
    far, oldest first, and the one call of [executeTasksSequentially]:
    the tasks its loop has not reached, and the calls it has made, by
    their place in [runs]; it is suspended at the [await] of the last
    one. *)
Record App := {
  messages : list Message;
  runs : list Run;
  todo : list Task;
  awaited : list nat
}.

(** What can happen next: the loop of [executeTasksSequentially] goes
    round; the user presses [Approve & Execute] on a card; the event source
    of a call hands over its next event. *)
Inductive Step :=
| Next
| Approve (card : nat)
| Event (run : nat).

Section Steps.

(** The events the server streams back on the [n]-th stream opened
    (counting from 0) when it is opened for a request. *)
Variable endpoint : nat -> ExecuteRequestWithDescription -> list StreamEvent.

(** [executeTaskInternal(task)] up to its return: the card is set to
    [executing] with an empty result and the stream is opened; the promise
    it returns is pending. *)
Definition call (task : Task) (app : App) : list Message * Run :=
  (updateTaskInMessages (id task)
     {| u_status := Some executing; u_result := Some []; u_error := None |}
     (messages app),
   {| run_task := task;
      coming := streamExecuteTask (endpoint (length (runs app))) (request_of task);
      promise := None |}).

(** [await executeTaskInternal(task)] lets the loop go on once the promise
    is settled: resolved, then the short delay, or rejected, then the
    [catch].  Before its first round the loop awaits nothing. *)
Definition resumable (app : App) : bool :=
  match last (awaited app) with
  | None => true
  | Some r =>
      match runs app !! r with
      | Some run =>
          match promise run with
          | Some _ => true
          | None => false
          end
      | None => false
      end
  end.

(** One step, [None] when it cannot be taken: the loop goes round when it
    can go on and a task is left; the button is on the cards whose task is
    [pending], and [handleApproveTask] calls [executeTaskInternal] on that
    task without awaiting it; an event is handed to the [onEvent] of its
    call, which updates the messages and may settle the promise. *)
Definition step (app : App) (s : Step) : option App :=
  match s with
  | Next =>
      match todo app with
      | task :: rest =>
          if resumable app then
            let (messages', run) := call task app in
            Some {| messages := messages';
                    runs := runs app ++ [run];
                    todo := rest;
                    awaited := awaited app ++ [length (runs app)] |}
          else None
      | [] => None
      end
  | Approve card =>
      match messages app !! card ≫= m_task with
      | Some task =>
          match status task with
          | pending =>
              let (messages', run) := call task app in
              Some {| messages := messages';
                      runs := runs app ++ [run];
                      todo := todo app;
                      awaited := awaited app |}
          | _ => None
          end
      | None => None
      end
  | Event r =>
      match runs app !! r with
      | Some run =>
          match coming run with
          | event :: rest =>
              let (messages', promise') :=
                onEvent (run_task run) (messages app, promise run) event in
              Some {| messages := messages';
                      runs := <[r := {| run_task := run_task run;
                                        coming := rest;
                                        promise := promise' |}]> (runs app);
                      todo := todo app;
                      awaited := awaited app |}
          | [] => None
          end
      | None => None
      end
  end.

Fixpoint exec (app : App) (steps : list Step) : option App :=
  match steps with
  | [] => Some app
  | s :: rest =>
      match step app s with
      | Some app' => exec app' rest
      | None => None
      end
  end.

End Steps.

(** [handleSend] has added the cards and calls
    [executeTasksSequentially(plan.tasks)]. *)
Definition initial (tasks : list Task) (messages : list Message) : App :=
  {| messages := messages; runs := []; todo := tasks; awaited := [] |}.

(** *** What the properties of the page are stated with *)

(** How the terminal event of a stream settles the promise. *)
Definition settlement (final : StreamEvent) : Settled :=
  match final with
  | Error message => Rejected (JsError message)
  | _ => Resolved
  end.

(** A call is over when its stream has been handed over to the end and its
    promise is settled. *)
Definition over (run : Run) : Prop :=
  coming run = [] /\ promise run <> None.

(** The steps of a plan when nothing else happens: each task is started
    by the loop and its events are handed over, one task after the other;
    [n] calls were made before. *)
Fixpoint schedule (endpoint : ExecuteRequestWithDescription -> list StreamEvent)
  (n : nat) (tasks : list Task) : list Step :=
  match tasks with
  | [] => []
  | task :: rest =>
      Next :: replicate (length (streamExecuteTask endpoint (request_of task))) (Event n)
        ++ schedule endpoint (S n) rest
  end.

(** What holds of a call in every state: the events still to come are
    the end of its stream, and its promise is pending until the terminal
    event has been handed over, which settles it. *)
Definition run_consistent
  (endpoint : nat -> ExecuteRequestWithDescription -> list StreamEvent)
  (r : nat) (run : Run) : Prop :=
  exists handled,
    streamExecuteTask (endpoint r) (request_of (run_task run))
    = handled ++ coming run
    /\ match coming run with
       | [] =>
           exists final,
             last handled = Some final
             /\ terminal final = true
             /\ promise run = Some (settlement final)
       | _ :: _ =>
           Forall (fun event => terminal event = false) handled
           /\ promise run = None
       end.

(** What holds of the page in every state, for the plan [tasks]: every
    call is consistent; the loop has called [executeTaskInternal] on the
    first tasks of the plan, in order, and the rest is still to do; all
    its calls but the last are over. *)
Definition consistent
  (endpoint : nat -> ExecuteRequestWithDescription -> list StreamEvent)
  (tasks : list Task) (app : App) : Prop :=
  (forall r run, runs app !! r = Some run -> run_consistent endpoint r run)
  /\ todo app = drop (length (awaited app)) tasks
  /\ (length (awaited app) <= length tasks)%nat
  /\ (forall i r, awaited app !! i = Some r ->
        exists run, runs app !! r = Some run /\ tasks !! i = Some (run_task run))
  /\ (forall i r run,
        awaited app !! i = Some r -> runs app !! r = Some run ->
        (S i < length (awaited app))%nat -> over run).

(** *** A connection that drops once *)

(** The deployment of the worked scenarios, except that the connection of
    the second stream opened is lost before any event arrives. *)
Definition dropped_once (n : nat) (request : ExecuteRequestWithDescription)
  : list StreamEvent :=
  if (n =? 1)%nat then [] else Scenario.endpoint request.

(** The sample plan is being carried out; while its first task is running
    the user approves the card of the second one, and the connection of
    that call drops; then the first task comes to its end and the loop
    carries out the second and the third. *)
Definition approved_early : list Step :=
  [Next; Approve 1; Event 1; Event 0; Event 0;
   Next; Event 2; Event 2; Event 2; Event 2; Event 2;
   Next; Event 3; Event 3; Event 3; Event 3; Event 3].

End Executor.

(** ** Values of any type: truthiness, [||], [switch] *)
Module Value.
Import Js Json.

(** Truthiness of a payload value: [undefined], [null], [false], [0] and
    the empty string are falsy. *)
Definition truthy_val (v : JsVal) : bool :=
  match v with
  | JUndefined | JNull => false
  | JBool b => b
  | JNum n => negb (n =? 0)%Z
  | JStr s => truthy s
  end.

(** [a || b] *)
Definition or_else (a b : JsVal) : JsVal := if truthy_val a then a else b.

(** [Number.MAX_SAFE_INTEGER], 2^53 - 1. *)
Definition MAX_SAFE_INTEGER : Z := 9007199254740991.

(** The values whose JavaScript string [to_string] gives: a number has to
    be a safe integer, which JavaScript holds exactly and prints in plain
    digits (the exponent form starts at 10^21). *)
Definition safe (v : JsVal) : bool :=
  match v with
  | JNum n => (Z.abs n <=? MAX_SAFE_INTEGER)%Z
  | _ => true
  end.

(** [v === 'label'], as a [case] of a [switch] tests it. *)
Definition is_case (v : JsVal) (label : string) : bool :=
  match v with
  | JStr s => str_eqb s (lit label)
  | _ => false
  end.

End Value.

(** ** tools/adapters/calendar.ts: the in-memory calendar *)
Module Calendar.
Import Js Effects Json Value.

Record Event := {
  id : jsstring;
  title : JsVal;
  date : JsVal;
  time : JsVal;
  duration : JsVal;
  description : JsVal
}.

(** The state of the module: the [events] map and [eventCounter].  A [Map]
    iterates in insertion order, so it is kept as the list of its entries
    in that order. *)
Record Store := {
  events : list (jsstring * Event);
  eventCounter : Z
}.

(** The state when the module is loaded. *)
Definition initial : Store := {| events := []; eventCounter := 1 |}.

(** [map.get(key)], which is defined exactly when [map.has(key)]; the
    keys of [events] are strings, so a value that is not a string is the
    key of no entry. *)
Definition map_get (m : list (jsstring * Event)) (key : JsVal) : option Event :=
  match key with
  | JStr k => snd <$> find (fun entry => str_eqb (fst entry) k) m
  | _ => None
  end.

(** [map.set(key, value)]: the value of a key already present is replaced
    where it stands; a new key is added at the end. *)
Fixpoint map_set (m : list (jsstring * Event)) (key : jsstring) (value : Event)
  : list (jsstring * Event) :=
  match m with
  | [] => [(key, value)]
  | entry :: m' =>
      if str_eqb (fst entry) key then (key, value) :: m'
      else entry :: map_set m' key value
  end.

(** [map.delete(key)] *)
Definition map_delete (m : list (jsstring * Event)) (key : JsVal)
  : list (jsstring * Event) :=
  match key with
  | JStr k => filter (fun entry => fst entry <> k) m
  | _ => m
  end.

(** The calendar emoji (U+1F4C5, a surrogate pair) and the bullet. *)
Definition calendar_emoji : jsstring := [0xD83D; 0xDCC5].
Definition bullet : jsstring := [0x2022].

(** [`event-${eventCounter}`] *)
Definition event_id (counter : Z) : jsstring :=
  lit "event-" ++ to_string (JNum counter).

(** One line of the listing. *)
Definition listed (e : Event) : jsstring :=
  bullet ++ lit " " ++ to_string (title e) ++ lit " - " ++ to_string (date e)
  ++ lit " at " ++ to_string (time e)
  ++ lit " (" ++ to_string (duration e) ++ lit "min)".

Definition executeCalendar (store : Store) (payload : Payload)
  : Store * Outcome jsstring :=
  let action := get payload (lit "action") in
  let title := get payload (lit "title") in
  let date := get payload (lit "date") in
  let time := get payload (lit "time") in
  let duration := get payload (lit "duration") in
  let description := get payload (lit "description") in
  let eventId := get payload (lit "eventId") in
  if is_case action "create_event" then
    if negb (truthy_val title) || negb (truthy_val date) then
      (store,
       Threw (JsError (lit "Title and date are required for creating an event")))
    else
      let id := event_id (eventCounter store) in
      let event := {| id := id;
                      title := title;
                      date := date;
                      time := or_else time (JStr (lit "09:00"));
                      duration := or_else duration (JNum 60);
                      description := description |} in
      ({| events := map_set (events store) id event;
          eventCounter := (eventCounter store + 1)%Z |},
       Returned
         (calendar_emoji ++ lit " Event created:" ++ [Dispatcher.newline]
          ++ lit "ID: " ++ id ++ [Dispatcher.newline]
          ++ lit "Title: " ++ to_string title ++ [Dispatcher.newline]
          ++ lit "Date: " ++ to_string date
          ++ lit " at " ++ to_string (Calendar.time event) ++ [Dispatcher.newline]
          ++ lit "Duration: " ++ to_string (Calendar.duration event)
          ++ lit " minutes"
          ++ (if truthy_val description
              then [Dispatcher.newline] ++ lit "Description: "
                   ++ to_string description
              else [])))
  else if is_case action "list_events" then
    match events store with
    | [] => (store, Returned (lit "No events scheduled"))
    | _ :: _ =>
        let eventList :=
          join [Dispatcher.newline] ((fun entry => listed (snd entry)) <$> events store) in
        (store,
         Returned (calendar_emoji ++ lit " Scheduled events:"
                   ++ [Dispatcher.newline] ++ eventList))
    end
  else if is_case action "delete_event" then
    if negb (truthy_val eventId) then
      (store, Threw (JsError (lit "Event ID is required for deletion")))
    else
      match map_get (events store) eventId with
      | None =>
          (store,
           Threw (JsError (lit "Event not found: " ++ to_string eventId)))
      | Some event =>
          ({| events := map_delete (events store) eventId;
              eventCounter := eventCounter store |},
           Returned (lit "Event deleted: " ++ to_string (Calendar.title event)
                     ++ lit " (" ++ to_string (Calendar.date event) ++ lit ")"))
      end
  else
    (store,
     Threw (JsError (lit "Unknown calendar action: " ++ to_string action))).

(** The store after a sequence of calls, whatever each of them returned
    or threw. *)
Definition after (store : Store) (calls : list (Payload)) : Store :=
  fold_left (fun s payload => fst (executeCalendar s payload)) calls store.

(** The store is consistent when the counter is positive, the keys are the
    ids [event-k] of a strictly increasing sequence of numbers below the
    counter, and each event carries its key as its id. *)
Definition consistent (store : Store) : Prop :=
  (1 <= eventCounter store)%Z
  /\ exists ks : list Z,
    fst <$> events store = event_id <$> ks
    /\ StronglySorted Z.lt ks
    /\ Forall (fun k => (1 <= k < eventCounter store)%Z) ks
    /\ Forall (fun entry => id (snd entry) = fst entry) (events store).

End Calendar.

(** ** tools/adapters/terminal.ts: whitelisted shell commands *)
Module Terminal.
Import Js Effects Json.

Definition ALLOWED_COMMANDS : list jsstring :=
  lit <$> ["echo"; "date"; "pwd"; "whoami"; "ls"; "dir"; "cat"; "type"; "head";
           "tail"; "wc"; "grep"; "find"; "node"; "npm"; "npx"; "git"].

(** [TerminalPayload]; [args] is optional. *)
Record TerminalPayload := {
  command : jsstring;
  args : option (list jsstring)
}.

Definition backslash : N := 0x5C.

(** [arg.replace(/"/g, '\\"')]: a backslash before every double quote. *)
Definition escape_quotes (arg : jsstring) : jsstring :=
  flat_map (fun c => if c =? Dispatcher.dquote
                     then [backslash; Dispatcher.dquote] else [c]) arg.

(** The callback of [args.map]. *)
Definition sanitize (arg : jsstring) : Outcome jsstring :=
  if includes arg (lit ";") || includes arg (lit "|")
     || includes arg (lit "&") || includes arg (lit "`")
  then Threw (JsError (lit "Invalid characters in arguments"))
  else Returned ([Dispatcher.dquote] ++ escape_quotes arg ++ [Dispatcher.dquote]).

(** [args.map(callback)]: the arguments are taken in order, and the first
    one the callback throws on ends the call. *)
Fixpoint map_throwing (callback : jsstring -> Outcome jsstring)
  (args : list jsstring) : Outcome (list jsstring) :=
  match args with
  | [] => Returned []
  | arg :: rest =>
      match callback arg with
      | Threw error => Threw error
      | Returned a =>
          match map_throwing callback rest with
          | Threw error => Threw error
          | Returned rest' => Returned (a :: rest')
          end
      end
  end.

Section Exec.

(** The process environment and the shell: [execAsync] returns what the
    command wrote to [stdout] and [stderr], or throws. *)
Variable env : ProcessEnv.
Variable execAsync : jsstring -> Outcome (jsstring * jsstring).

(** The values written are the command lines handed to [execAsync]. *)
Definition executeTerminal (payload : TerminalPayload) : Comp jsstring jsstring :=
  let command := command payload in
  let args := default [] (args payload) in
  if negb (Dispatcher.env_is_true env "ALLOW_TERMINAL") then
    throw (JsError (lit "Terminal adapter is disabled. Set ALLOW_TERMINAL=true in .env to enable."))
  else
    let baseCommand := toLowerCase command in
    if negb (bool_decide (baseCommand ∈ ALLOWED_COMMANDS)) then
      throw (JsError (lit "Command not allowed: " ++ command
                      ++ lit ". Allowed commands: "
                      ++ join (lit ", ") ALLOWED_COMMANDS))
    else
      let* sanitizedArgs := call (map_throwing sanitize args) in
      let fullCommand := join (lit " ") (command :: sanitizedArgs) in
      try_catch
        (let* _ := tell fullCommand in
         let* std := call (execAsync fullCommand) in
         let output := if truthy (fst std) then fst std else snd std in
         ret (lit "Command executed: " ++ fullCommand
              ++ [Dispatcher.newline; Dispatcher.newline] ++ lit "Output:"
              ++ [Dispatcher.newline]
              ++ substring0 (N.to_nat 2000) output
              ++ (if 2000 <? N.of_nat (length output)
                  then [Dispatcher.newline] ++ lit "...(truncated)"
                  else [])))
        (fun error =>
           match error with
           | JsError message => throw (JsError (lit "Command failed: " ++ message))
           | JsThrown => throw error
           end).

End Exec.

(** The characters an argument must not contain. *)
Definition forbidden : jsstring := lit ";|&`".

(** An environment that enables the adapter, and a shell that prints a
    fixed line for every command. *)
Definition enabled_env : ProcessEnv := {[ lit "ALLOW_TERMINAL" := lit "true" ]}.

Definition fixed_shell (line : jsstring) : Outcome (jsstring * jsstring) :=
  Returned (lit "hello", []).

(** A shell whose commands print the letter [x] 2500 times, and a warning
    on [stderr]. *)
Definition long_shell (line : jsstring) : Outcome (jsstring * jsstring) :=
  Returned (replicate 2500 (0x78 : N), lit "warning").

End Terminal.

(** ** tools/adapters/browser.ts: the domain allow-list and the fetch *)
Module Browser.
Import Js Effects Json.

Definition DEFAULT_ALLOWED_DOMAINS : list jsstring :=
  lit <$> ["api.github.com"; "jsonplaceholder.typicode.com"; "httpbin.org";
           "api.openweathermap.org"; "api.exchangerate-api.com"; "pokeapi.co";
           "swapi.dev"; "finance.yahoo.com"; "query1.finance.yahoo.com";
           "query2.finance.yahoo.com"; "api.coingecko.com"; "newsapi.org";
           "api.nytimes.com"; "hacker-news.firebaseio.com"; "api.ipify.org";
           "worldtimeapi.org"].

(** What is found at [MCP_CONFIG_PATH]: no file; a file that cannot be
    read, is not JSON, or whose [domains] is not an array; or a file with
    an array of domains. *)
Inductive ConfigFile :=
| Missing
| Unusable
| Listing (domains : list jsstring).

(** The state the allow-list lives in: the file, and the array
    [DEFAULT_ALLOWED_DOMAINS], which [readAllowedDomains] returns itself
    (not a copy) when the file gives no list, so that a [push] on what was
    read changes it.  Writing the file is taken to succeed, and reading it
    back to give the list written. *)
Record State := {
  config : ConfigFile;
  defaults : list jsstring
}.

(** The state when the module is loaded. *)
Definition loaded (file : ConfigFile) : State :=
  {| config := file; defaults := DEFAULT_ALLOWED_DOMAINS |}.

Definition readAllowedDomains (st : State) : list jsstring :=
  match config st with
  | Listing domains => domains
  | Missing | Unusable => defaults st
  end.

Definition writeAllowedDomains (domains : list jsstring) (st : State) : State :=
  {| config := Listing domains; defaults := defaults st |}.

Definition addMcpDomain (domain : jsstring) (st : State) : State :=
  let domains := readAllowedDomains st in
  if negb (bool_decide (domain ∈ domains)) then
    let pushed := domains ++ [domain] in
    writeAllowedDomains pushed
      match config st with
      | Listing _ => st
      | Missing | Unusable => {| config := config st; defaults := pushed |}
      end
  else st.

Definition removeMcpDomain (domain : jsstring) (st : State) : State :=
  let domains := filter (fun d => d <> domain) (readAllowedDomains st) in
  writeAllowedDomains domains st.

Definition listMcpDomains (st : State) : list jsstring := readAllowedDomains st.

(** [s.endsWith(suffix)] *)
Definition endsWith (s suffix : jsstring) : bool :=
  startsWith (rev s) (rev suffix).

Section Fetch.

(** The process environment and the runtime's URL parser. *)
Variable env : ProcessEnv.
Variable URL : jsstring -> option Dispatcher.ParsedURL.

Definition isAllowedUrl (st : State) (url : jsstring) : bool :=
  let allowedDomains := readAllowedDomains st in
  match URL url with
  | Some parsed =>
      if existsb (fun domain => endsWith (Dispatcher.hostname parsed) domain)
           allowedDomains
      then true
      else if str_eqb (Dispatcher.hostname parsed) (lit "localhost")
              || str_eqb (Dispatcher.hostname parsed) (lit "127.0.0.1")
      then true
      else if Dispatcher.env_is_true env "BROWSER_ALLOW_UNSAFE_URLS" then true
      else false
  | None => false
  end.

(** [BrowserPayload]; [method], [headers] and [body] are optional. *)
Record BrowserPayload := {
  url : jsstring;
  method : option jsstring;
  headers : option (gmap (list N) (list N));
  body : JsVal
}.

(** A request handed to [fetch], and the part of the response that is
    looked at.  [text] is what [response.text()] gives and [json] the
    pretty-printed [response.json()]; either may throw. *)
Record Request := {
  req_url : jsstring;
  req_method : jsstring;
  req_headers : gmap (list N) (list N);
  req_body : option jsstring
}.

Record Response := {
  ok : bool;
  status : Z;
  statusText : jsstring;
  content_type : option jsstring;
  text : Outcome jsstring;
  json : Outcome jsstring
}.

(** [fetch n request] is the answer to [request] when it is the request
    number [n] of the call, counted from 0: the network may answer the
    same request differently when it is made again. *)
Variable fetch : nat -> Request -> Outcome Response.
Variable JSON_stringify : JsVal -> jsstring.

(** [s.length > limit ? s.substring(0, limit) + '\n...(truncated)' : s] *)
Definition truncated (limit : N) (s : jsstring) : jsstring :=
  if limit <? N.of_nat (length s)
  then substring0 (N.to_nat limit) s ++ [Dispatcher.newline] ++ lit "...(truncated)"
  else s.

(** [{ 'User-Agent': 'MCP-Browser-Adapter/1.0', ...headers }] *)
Definition with_agent (headers : gmap (list N) (list N)) : gmap (list N) (list N) :=
  headers ∪ {[ lit "User-Agent" := lit "MCP-Browser-Adapter/1.0" ]}.

(** The values written are the requests handed to [fetch]; [made] is the
    number of requests the call has made so far. *)
Definition directFetch (made : nat) (url method : jsstring)
  (headers : gmap (list N) (list N)) (body : JsVal) : Comp Request jsstring :=
  try_catch
    (let sends_body :=
       Value.truthy_val body
       && (str_eqb method (lit "POST") || str_eqb method (lit "PUT")) in
     let request :=
       {| req_url := url;
          req_method := method;
          req_headers :=
            if sends_body
            then <[lit "Content-Type" := lit "application/json"]> (with_agent headers)
            else with_agent headers;
          req_body := if sends_body then Some (JSON_stringify body) else None |} in
     let* _ := tell request in
     let* response := call (fetch made request) in
     let contentType := default [] (content_type response) in
     let* responseData :=
       if includes contentType (lit "application/json")
       then call (json response)
       else call (text response) in
     ret (method ++ lit " " ++ url ++ [Dispatcher.newline]
          ++ lit "Status: " ++ to_string (JNum (status response)) ++ lit " "
          ++ statusText response ++ [Dispatcher.newline; Dispatcher.newline]
          ++ lit "Response:" ++ [Dispatcher.newline]
          ++ truncated 5000 responseData))
    (fun error =>
       match error with
       | JsError message => throw (JsError (lit "Fetch failed: " ++ message))
       | JsThrown => throw error
       end).

Definition executeBrowser (st : State) (payload : BrowserPayload)
  : Comp Request jsstring :=
  let url := url payload in
  let method := default (lit "GET") (method payload) in
  let headers := default ∅ (headers payload) in
  let body := body payload in
  let allowUnsafe := Dispatcher.env_is_true env "BROWSER_ALLOW_UNSAFE_URLS" in
  if negb allowUnsafe && negb (isAllowedUrl st url) then
    throw (JsError (lit "URL not allowed. Allowed domains: "
                    ++ join (lit ", ") (readAllowedDomains st)
                    ++ lit ", localhost. Set BROWSER_ALLOW_UNSAFE_URLS=true in .env to bypass."))
  else
    let attempt : Comp Request jsstring :=
      let jinaUrl := lit "https://r.jina.ai/" ++ url in
      let request := {| req_url := jinaUrl;
                        req_method := lit "GET";
                        req_headers := with_agent headers;
                        req_body := None |} in
      let* _ := tell request in
      let* response := call (fetch 0 request) in
      if negb (ok response) then directFetch 1 url method headers body
      else
        let* text := call (text response) in
        ret (lit "Fetched via Jina Reader:" ++ [Dispatcher.newline]
             ++ truncated 15000 text) in
    try_catch attempt
      (fun error => directFetch (length (written attempt)) url method headers body).

End Fetch.

(** A network in which the Jina reader answers every request with a 503
    and no other host accepts a connection; the scenarios send no body. *)
Definition jina_down (made : nat) (request : Request) : Outcome Response :=
  if startsWith (req_url request) (lit "https://r.jina.ai/")
  then Returned {| ok := false;
                   status := 503;
                   statusText := lit "Service Unavailable";
                   content_type := None;
                   text := Returned [];
                   json := Threw (JsError (lit "Unexpected end of JSON input")) |}
  else Threw (JsError (lit "connect ECONNREFUSED")).

Definition no_body (body : JsVal) : jsstring := lit "null".

Definition github_repos : BrowserPayload :=
  {| url := lit "https://api.github.com/repos";
     method := None;
     headers := None;
     body := JUndefined |}.

End Browser.

(** ** pipeline/pipeline-orchestrator.ts: sub-queries, citations, context *)
Module Pipeline.
Import Js Json Validation.

Section Decompose.

(** The runtime's regular-expression engine on the pattern of
    [decomposeQuery], [/(.+?)\s+(?:vs\.?|versus|compared to|or)\s+(.+)/i]:
    the two captured subjects when the query matches. *)
Variable vsMatch : jsstring -> option (jsstring * jsstring).

Definition decomposeQuery (query : jsstring) (intent : QueryIntent)
  : list jsstring :=
  let queries := [query] in
  let queries :=
    match intent with
    | comparison =>
        match vsMatch query with
        | Some (subject1, subject2) =>
            queries ++ [trim subject1 ++ lit " features benefits pros cons"]
                    ++ [trim subject2 ++ lit " features benefits pros cons"]
        | None => queries
        end
    | _ => queries
    end in
  let queries :=
    match intent with
    | research =>
        queries ++ [query ++ lit " recent developments 2024"]
                ++ [query ++ lit " expert analysis"]
    | _ => queries
    end in
  queries.

(** [createPipelineContext(query)]; [now] is what [Date.now()] reads. *)
Definition createPipelineContext (now : Z) (query : jsstring) : PipelineContext :=
  let intent := detectIntent query in
  {| originalQuery := query;
     intent := intent;
     decomposedQueries := decomposeQuery query intent;
     selectedTool := [];
     taskResults := [];
     finalAnswer := [];
     citations := [];
     stage := idle;
     progress := 0;
     startTime := now;
     endTime := None |}.

End Decompose.

(** An element of the [sources] array. *)
Record Source := {
  s_title : jsstring;
  s_url : jsstring;
  s_snippet : option jsstring
}.

Definition extractCitations (sources : list Source) : list Citation :=
  imap (fun index source =>
          {| index := Z.of_nat index + 1;
             title := s_title source;
             url := s_url source;
             snippet := s_snippet source |}) sources.

(** The heading of the list of sources as the file has it: the four code
    units U+00F0 U+0178 U+201C U+0161 stand where a books emoji was
    meant. *)
Definition sources_heading : jsstring :=
  [Dispatcher.newline; Dispatcher.newline] ++ [0xF0; 0x178; 0x201C; 0x161]
  ++ lit " **Sources:**" ++ [Dispatcher.newline].

Definition formatCitations (citations : list Citation) : jsstring :=
  match citations with
  | [] => []
  | _ :: _ =>
      sources_heading
      ++ join [Dispatcher.newline]
           ((fun c => lit "[" ++ to_string (JNum (index c)) ++ lit "] "
                      ++ title c ++ lit " - " ++ url c) <$> citations)
  end.

End Pipeline.

(** ** Collaborators that fail *)
Module Faults.
Import Js Effects Json.

(** An audit log that cannot be written: [fs.writeFileSync] throws. *)
Definition audit_disk_full (taskId tool : jsstring) (payload : Payload)
  (result : jsstring) (approved : bool) : Outcome unit :=
  Threw (JsError (lit "ENOSPC: no space left on device, write")).

End Faults.

(** ** audit.ts: the audit log *)
Module Audit.
Import Js Effects Json.

Inductive AuditEntryType := plan | execute | error.

(** The [data] of an entry; every field is optional. *)
Record AuditData := {
  planId : option jsstring;
  taskId : option jsstring;
  tool : option jsstring;
  payload : option (Payload);
  result : option jsstring;
  error_message : option jsstring;
  summary : option jsstring;
  taskCount : option Z;
  approved : option bool
}.

Record AuditEntry := {
  id : jsstring;
  type : AuditEntryType;
  timestamp : jsstring;
  data : AuditData
}.

(** What is found at [AUDIT_FILE]:
    - no file;
    - a file that cannot be read or is not JSON;
    - a file whose JSON is not an object with an array [entries] ([{}],
      [null], a number, an object whose [entries] is a string, ...):
      [complaint] is the message of the [TypeError] that
      [log.entries.push(...)] raises on the value parsed;
    - a log: an object with an array [entries], as [saveAuditLog] writes
      it.  The entries are pushed and sliced and never looked into; other
      properties the object may have are written back as they were and
      are left out here.
    Writing the file is taken to succeed, and reading it back to give the
    log written. *)
Inductive AuditFile :=
| NoFile
| Unreadable
| NotALog (complaint : jsstring)
| Stored (entries : list AuditEntry).

(** What [loadAuditLog] returns: a log, or the value parsed from a file
    that holds no log. *)
Inductive Loaded :=
| Log (entries : list AuditEntry)
| Foreign (complaint : jsstring).

(** The entries of what was loaded, none when it is no log. *)
Definition entries_of (loaded : Loaded) : list AuditEntry :=
  match loaded with
  | Log entries => entries
  | Foreign _ => []
  end.

(** [entries.slice(-n)]: the last [n] entries. *)
Definition slice_last {A} (n : nat) (entries : list A) : list A :=
  drop (length entries - n) entries.

Definition no_data : AuditData :=
  {| planId := None; taskId := None; tool := None; payload := None;
     result := None; error_message := None; summary := None;
     taskCount := None; approved := None |}.

Section Log.

(** [process.env.AUDIT_ENABLED === 'true'], read when the module loads. *)
Variable AUDIT_ENABLED : bool.

Definition loadAuditLog (file : AuditFile) : Loaded :=
  if negb AUDIT_ENABLED then Log []
  else match file with
       | NoFile | Unreadable => Log []
       | NotALog complaint => Foreign complaint
       | Stored entries => Log entries
       end.

Definition saveAuditLog (entries : list AuditEntry) (file : AuditFile) : AuditFile :=
  if negb AUDIT_ENABLED then file else Stored entries.

(** [addEntry(entry)]; [uuid] is what [uuidv4()] returns and [now] what
    [new Date().toISOString()] returns in this call.  On a file that holds
    no log, [log.entries.push] throws before anything is written. *)
Definition addEntry (uuid now : jsstring) (entry_type : AuditEntryType)
  (entry_data : AuditData) (file : AuditFile) : AuditFile * Outcome AuditEntry :=
  if negb AUDIT_ENABLED then
    (file, Returned {| id := lit "audit-disabled";
                       timestamp := now;
                       type := entry_type;
                       data := entry_data |})
  else
    let log := loadAuditLog file in
    let newEntry := {| id := uuid;
                       timestamp := now;
                       type := entry_type;
                       data := entry_data |} in
    match log with
    | Foreign complaint => (file, Threw (JsError complaint))
    | Log entries =>
        let entries := entries ++ [newEntry] in
        let entries :=
          if (100 <? length entries)%nat then slice_last 100 entries else entries in
        (saveAuditLog entries file, Returned newEntry)
    end.

Definition logPlanGenerated (uuid now : jsstring)
  (planId summary : jsstring) (taskCount : Z) (file : AuditFile)
  : AuditFile * Outcome AuditEntry :=
  addEntry uuid now plan
    {| planId := Some planId; taskId := None; tool := None; payload := None;
       result := None; error_message := None; summary := Some summary;
       taskCount := Some taskCount; approved := None |} file.

Definition logTaskExecuted (uuid now : jsstring)
  (taskId tool : jsstring) (payload : Payload) (result : jsstring)
  (approved : bool) (file : AuditFile) : AuditFile * Outcome AuditEntry :=
  addEntry uuid now execute
    {| planId := None; taskId := Some taskId; tool := Some tool;
       payload := Some payload; result := Some result; error_message := None;
       summary := None; taskCount := None; approved := Some approved |} file.

Definition logError (uuid now : jsstring)
  (taskId tool : option jsstring) (error : jsstring) (file : AuditFile)
  : AuditFile * Outcome AuditEntry :=
  addEntry uuid now Audit.error
    {| planId := None; taskId := taskId; tool := tool; payload := None;
       result := None; error_message := Some error; summary := None;
       taskCount := None; approved := None |} file.

Definition getAuditLog (file : AuditFile) : Loaded := loadAuditLog file.

Definition clearAuditLog (file : AuditFile) : AuditFile := saveAuditLog [] file.

(** The file after a series of [addEntry] calls, each given as the entry
    it is to add ([id] and [timestamp] being what the call draws), whether
    they return or throw. *)
Definition record_all (file : AuditFile) (calls : list AuditEntry) : AuditFile :=
  fold_left (fun f call => fst (addEntry (id call) (timestamp call) (type call)
                                   (data call) f)) calls file.

End Log.

End Audit.

(** ** index.ts: the allow-list endpoints and [POST /api/execute] *)
Module Api.
Import Js Effects Json.

(** What a handler answers with: [res.status(code).json(body)], the
    status 200 when none is set. *)
Inductive ReplyBody :=
| DomainList (domains : list jsstring)
| DomainsUpdated (domains : list jsstring)
| ErrorOnly (error : jsstring)
| InvalidRequest
| Executed (taskId result rawResult : jsstring)
| ExecutionFailed (taskId : JsVal) (error : jsstring).

Record Reply := {
  status : Z;
  body : ReplyBody
}.

(** [!domain || typeof domain !== 'string'] is false: a string that is
    not empty. *)
Definition valid_domain (domain : JsVal) : option jsstring :=
  match domain with
  | JStr s => if truthy s then Some s else None
  | _ => None
  end.

(** [GET /api/mcp_servers] *)
Definition get_mcp_servers (st : Browser.State) : Browser.State * Reply :=
  (st, {| status := 200; body := DomainList (Browser.listMcpDomains st) |}).

(** [POST /api/mcp_servers] *)
Definition post_mcp_servers (req_body : Payload) (st : Browser.State)
  : Browser.State * Reply :=
  match valid_domain (get req_body (lit "domain")) with
  | None => (st, {| status := 400; body := ErrorOnly (lit "Invalid domain") |})
  | Some domain =>
      let st' := Browser.addMcpDomain domain st in
      (st', {| status := 200; body := DomainsUpdated (Browser.listMcpDomains st') |})
  end.

(** [DELETE /api/mcp_servers] *)
Definition delete_mcp_servers (req_body : Payload) (st : Browser.State)
  : Browser.State * Reply :=
  match valid_domain (get req_body (lit "domain")) with
  | None => (st, {| status := 400; body := ErrorOnly (lit "Invalid domain") |})
  | Some domain =>
      let st' := Browser.removeMcpDomain domain st in
      (st', {| status := 200; body := DomainsUpdated (Browser.listMcpDomains st') |})
  end.

(** A request to [/api/mcp_servers], and the server's state after a series
    of them. *)
Inductive McpRequest :=
| GET
| POST (req_body : Payload)
| DELETE (req_body : Payload).

Definition serve (st : Browser.State) (request : McpRequest) : Browser.State * Reply :=
  match request with
  | GET => get_mcp_servers st
  | POST req_body => post_mcp_servers req_body st
  | DELETE req_body => delete_mcp_servers req_body st
  end.

Definition serve_all (st : Browser.State) (requests : list McpRequest) : Browser.State :=
  fold_left (fun s request => fst (serve s request)) requests st.

(** The body of a request to [POST /api/execute]: [payload] is given when
    the property is an object, which is what the schema asks for. *)
Record ExecuteBody := {
  b_taskId : JsVal;
  b_tool : JsVal;
  b_payload : option (Payload);
  b_description : JsVal
}.

(** [ExecuteRequestSchema.safeParse(req.body)]: [taskId] and [tool] are
    strings (the empty one too) and [payload] is an object. *)
Definition safeParse (req_body : ExecuteBody)
  : option (jsstring * jsstring * (Payload)) :=
  match b_taskId req_body, b_tool req_body, b_payload req_body with
  | JStr taskId, JStr tool, Some payload => Some (taskId, tool, payload)
  | _, _, _ => None
  end.

Section Execute.

(** The collaborators of the handler: the dispatcher, the summarizer and
    the two writers of the audit log. *)
Variable dispatchTool : jsstring -> Payload -> Comp jsstring jsstring.
Variable summarizeToolResult : JsVal -> jsstring -> jsstring -> Outcome jsstring.
Variable logTaskExecuted :
  jsstring -> jsstring -> Payload -> jsstring -> bool -> Outcome unit.
Variable logError : JsVal -> JsVal -> jsstring -> Outcome unit.

(** The handler of [POST /api/execute]; the values written are the
    replies sent. *)
Definition execute (req_body : ExecuteBody) : Comp Reply unit :=
  try_catch
    (match safeParse req_body with
     | None => tell {| status := 400; body := InvalidRequest |}
     | Some (taskId, tool, payload) =>
         let taskDescription :=
           Value.or_else (b_description req_body) (JStr (lit "Execute task")) in
         let* rawResult := with_sink None (dispatchTool tool payload) in
         let* summarizedResult :=
           try_catch (call (summarizeToolResult taskDescription tool rawResult))
             (fun summarizeError => ret rawResult) in
         let* _ := call (logTaskExecuted taskId tool payload summarizedResult true) in
         tell {| status := 200; body := Executed taskId summarizedResult rawResult |}
     end)
    (fun error =>
       let errorMessage := message_or (lit "Execution failed") error in
       let* _ := call (logError (b_taskId req_body) (b_tool req_body) errorMessage) in
       tell {| status := 500;
               body := ExecutionFailed (b_taskId req_body) errorMessage |}).

End Execute.

(** An error log that cannot be written either. *)
Definition error_log_full (taskId tool : JsVal) (error : jsstring) : Outcome unit :=
  Threw (JsError (lit "ENOSPC: no space left on device, write")).

Definition error_logged (taskId tool : JsVal) (error : jsstring) : Outcome unit :=
  Returned tt.

(** A summarizer that answers with a fixed sentence. *)
Definition summarized (description : JsVal) (tool rawResult : jsstring)
  : Outcome jsstring :=
  Returned (lit "The message was sent.").

Definition slack_request : ExecuteBody :=
  {| b_taskId := JStr (lit "p1-task-2");
     b_tool := JStr (lit "slack");
     b_payload := Some ∅;
     b_description := JUndefined |}.

End Api.

(** ** planner.ts: from the tasks the model extracts to a plan *)
Module Planner.
Import Js Effects Json.

(** [LLMTaskOutput]: what [analyzePlan] extracts from the text. *)
Record LLMTask := {
  lt_description : jsstring;
  lt_tool : jsstring;
  lt_payload : Payload;
  lt_confidence : QArith_base.Q
}.

Record LLMTaskOutput := {
  lo_summary : jsstring;
  lo_tasks : list LLMTask
}.

(** [Plan].  Its tasks are given as the client reads them from the reply:
    the fields of the server's [Task], and no logs. *)
Record Plan := {
  plan_id : jsstring;
  plan_summary : jsstring;
  plan_tasks : list Client.Task;
  plan_createdAt : jsstring;
  plan_rawInput : jsstring
}.

(** [`${planId}-task-${index + 1}`] *)
Definition task_id (planId : jsstring) (index : nat) : jsstring :=
  planId ++ lit "-task-" ++ to_string (JNum (Z.of_nat index + 1)).

Section Plan.

(** The collaborators: the model that extracts the tasks and the audit
    log. *)
Variable extractTasksFromText : jsstring -> Outcome LLMTaskOutput.
Variable logPlanGenerated : jsstring -> jsstring -> Z -> Outcome unit.

(** [generatePlan(text)]; [uuid] is what [uuidv4()] returns and [now] what
    [new Date().toISOString()] returns in this call. *)
Definition generatePlan (uuid now : jsstring) (text : jsstring) : Outcome Plan :=
  match extractTasksFromText text with
  | Threw error => Threw error
  | Returned llmOutput =>
      let planId := uuid in
      let tasks :=
        imap (fun index task =>
                {| Client.id := task_id planId index;
                   Client.description := lt_description task;
                   Client.tool := lt_tool task;
                   Client.payload := lt_payload task;
                   Client.confidence := lt_confidence task;
                   Client.status := Client.pending;
                   Client.result := None;
                   Client.error := None;
                   Client.logs := None |}) (lo_tasks llmOutput) in
      let plan := {| plan_id := planId;
                     plan_summary := lo_summary llmOutput;
                     plan_tasks := tasks;
                     plan_createdAt := now;
                     plan_rawInput := text |} in
      match logPlanGenerated (plan_id plan) (plan_summary plan)
              (Z.of_nat (length (plan_tasks plan))) with
      | Threw error => Threw error
      | Returned _ => Returned plan
      end
  end.

End Plan.

(** A model that extracts two tasks, and an audit log that takes every
    entry. *)
Definition two_tasks (text : jsstring) : Outcome LLMTaskOutput :=
  Returned
    {| lo_summary := lit "Save the notes and tell the team";
       lo_tasks :=
         [ {| lt_description := lit "Save the notes"; lt_tool := lit "filesystem";
              lt_payload := ∅; lt_confidence := QArith_base.Qmake 9 10 |};
           {| lt_description := lit "Tell the team"; lt_tool := lit "slack";
              lt_payload := ∅; lt_confidence := QArith_base.Qmake 9 10 |} ] |}.

Definition plan_logged (planId summary : jsstring) (taskCount : Z) : Outcome unit :=
  Returned tt.

End Planner.

(* ===================================================================== *)
(** * Part II: properties *)
(* ===================================================================== *)

Import Js Effects Json.

(** ** Strings *)

Lemma startsWith_app (p rest : list N) : startsWith (p ++ rest) p = true.
Proof.
  induction p as [|a p IH]; simpl; [reflexivity|].
  rewrite N.eqb_refl. exact IH.
Qed.

Lemma startsWith_inv (s p : list N) :
  startsWith s p = true -> exists rest, s = p ++ rest.
Proof.
  revert s. induction p as [|a p IH]; intros s H.
  - exists s. reflexivity.
  - destruct s as [|b s]; simpl in H; [discriminate|].
    apply andb_true_iff in H as [Hab Hs].
    apply N.eqb_eq in Hab. subst b.
    destruct (IH _ Hs) as [rest ->]. exists rest. reflexivity.
Qed.

Lemma includes_unfold (s p : list N) :
  includes s p =
  startsWith s p || match s with [] => false | _ :: s' => includes s' p end.
Proof. destruct s; reflexivity. Qed.

Lemma includes_app (before p rest : list N) :
  includes (before ++ p ++ rest) p = true.
Proof.
  induction before as [|c before IH].
  - rewrite includes_unfold. simpl app. rewrite startsWith_app. reflexivity.
  - simpl. rewrite IH. apply orb_true_r.
Qed.

Lemma includes_inv (s p : list N) :
  includes s p = true -> exists before rest, s = before ++ p ++ rest.
Proof.
  induction s as [|c s IH]; simpl; intros H.
  - rewrite orb_false_r in H. apply startsWith_inv in H as [rest ->].
    exists [], rest. reflexivity.
  - apply orb_true_iff in H as [H|H].
    + apply startsWith_inv in H as [rest ->]. exists [], rest. reflexivity.
    + destruct (IH H) as (before & rest & ->).
      exists (c :: before), rest. reflexivity.
Qed.

Lemma toLowerCase_app (a b : list N) :
  toLowerCase (a ++ b) = toLowerCase a ++ toLowerCase b.
Proof. unfold toLowerCase. apply flat_map_app. Qed.

(** A needle that lower-casing leaves alone is found in the lower-cased
    text wherever it is found in the text. *)
Lemma includes_toLowerCase (s p : list N) :
  toLowerCase p = p ->
  includes s p = true -> includes (toLowerCase s) p = true.
Proof.
  intros Hp H. apply includes_inv in H as (before & rest & ->).
  rewrite !toLowerCase_app, Hp. apply includes_app.
Qed.

(** ** The intent classifier *)

Lemma first_matching_rule_prefix rules before i p after lowerQuery :
  rules = before ++ (i, p) :: after ->
  Forall (fun r => snd r lowerQuery = false) before ->
  p lowerQuery = true ->
  Validation.first_matching_rule rules lowerQuery = i.
Proof.
  intros -> Hbefore Hp.
  induction Hbefore as [|[j q] before Hq _ IH]; simpl.
  - rewrite Hp. reflexivity.
  - simpl in Hq. rewrite Hq. exact IH.
Qed.

Lemma first_matching_rule_none rules lowerQuery :
  Forall (fun r => snd r lowerQuery = false) rules ->
  Validation.first_matching_rule rules lowerQuery = Validation.general.
Proof.
  induction 1 as [|[j q] rules Hq _ IH]; simpl; [reflexivity|].
  simpl in Hq. rewrite Hq. exact IH.
Qed.

Lemma detectIntent_table (query : list N) :
  Validation.detectIntent query =
  Validation.first_matching_rule Validation.intent_rules (toLowerCase query).
Proof. reflexivity. Qed.

(** C7. [detectIntent] is a total function of the query that applies its
    rules in a fixed order: the first rule whose pattern matches the
    lower-cased query decides, and [general] is returned when none matches.
    Every query that contains "compare" and " vs " is classified
    [comparison], hence not [factual]; the query "what is X" is classified
    [factual]. *)
Theorem detectIntent_first_rule_wins (query : list N) :
  (forall before i p after,
      Validation.intent_rules = before ++ (i, p) :: after ->
      Forall (fun r => snd r (toLowerCase query) = false) before ->
      p (toLowerCase query) = true ->
      Validation.detectIntent query = i)
  /\ (Forall (fun r => snd r (toLowerCase query) = false) Validation.intent_rules ->
      Validation.detectIntent query = Validation.general)
  /\ (includes query (lit "compare") = true ->
      includes query (lit " vs ") = true ->
      Validation.detectIntent query = Validation.comparison
      /\ Validation.detectIntent query <> Validation.factual)
  /\ Validation.detectIntent (lit "compare X vs Y") = Validation.comparison
  /\ Validation.detectIntent (lit "what is X") = Validation.factual.
Proof.
  split; [|split; [|split; [|split]]].
  - intros before i p after Hrules Hbefore Hp.
    rewrite detectIntent_table.
    eapply first_matching_rule_prefix; eauto.
  - intros Hnone. rewrite detectIntent_table.
    apply first_matching_rule_none. exact Hnone.
  - intros _ Hvs.
    assert (Validation.detectIntent query = Validation.comparison) as E.
    { unfold Validation.detectIntent, Validation.is_comparison.
      rewrite (includes_toLowerCase query (lit " vs ")); [reflexivity|reflexivity|exact Hvs]. }
    split; [exact E|]. rewrite E. discriminate.
  - vm_compute. reflexivity.
  - vm_compute. reflexivity.
Qed.

Lemma detectIntent_first_rule_wins_witness :
  includes (lit "Please compare Rust vs Go") (lit "compare") = true
  /\ includes (lit "Please compare Rust vs Go") (lit " vs ") = true
  /\ Validation.detectIntent (lit "Please compare Rust vs Go") = Validation.comparison.
Proof.
  split; [vm_compute; reflexivity|].
  split; [vm_compute; reflexivity|].
  apply (detectIntent_first_rule_wins (lit "Please compare Rust vs Go"));
    vm_compute; reflexivity.
Defined.

(** ** Pipeline stage tracking *)

(** C10. The context [updateStage] returns has its [endTime] defined
    exactly when the new stage is [complete] or [failed]; a non-terminal
    stage erases whatever [endTime] the context held; [stage] and
    [progress] are the ones passed; every other field is carried over. *)
Theorem updateStage_endTime_iff_terminal
  (now : Z) (context : Validation.PipelineContext)
  (stage : Validation.PipelineStage) (progress : Z) :
  let context' := Validation.updateStage now context stage progress in
  (is_Some (Validation.endTime context') <->
     stage = Validation.complete \/ stage = Validation.failed)
  /\ (stage <> Validation.complete -> stage <> Validation.failed ->
      Validation.endTime context' = None)
  /\ (stage = Validation.complete \/ stage = Validation.failed ->
      Validation.endTime context' = Some now)
  /\ Validation.stage context' = stage
  /\ Validation.progress context' = progress
  /\ Validation.originalQuery context' = Validation.originalQuery context
  /\ Validation.intent context' = Validation.intent context
  /\ Validation.decomposedQueries context' = Validation.decomposedQueries context
  /\ Validation.selectedTool context' = Validation.selectedTool context
  /\ Validation.taskResults context' = Validation.taskResults context
  /\ Validation.finalAnswer context' = Validation.finalAnswer context
  /\ Validation.citations context' = Validation.citations context
  /\ Validation.startTime context' = Validation.startTime context.
Proof.
  simpl. repeat split; try reflexivity.
  - destruct stage; simpl; intros [t Ht]; try discriminate; auto.
  - intros [-> | ->]; simpl; eauto.
  - intros H1 H2. destruct stage; simpl; try reflexivity; congruence.
  - intros [-> | ->]; reflexivity.
Qed.

(** ** The dispatcher *)

Lemma find_custom_elem CUSTOM_TOOLS (tool : list N) :
  tool ∈ (Dispatcher.ct_name <$> CUSTOM_TOOLS) ->
  exists config,
    config ∈ CUSTOM_TOOLS /\ Dispatcher.ct_name config = tool /\
    Dispatcher.find_custom CUSTOM_TOOLS tool = Some config.
Proof.
  unfold Dispatcher.find_custom.
  induction CUSTOM_TOOLS as [|c rest IH]; simpl; intros H.
  - apply elem_of_nil in H. contradiction.
  - unfold str_eqb at 1. destruct (decide (Dispatcher.ct_name c = tool)) as [E|NE].
    + rewrite bool_decide_eq_true_2 by exact E.
      exists c. split; [left|split; [exact E|reflexivity]].
    + rewrite bool_decide_eq_false_2 by exact NE.
      apply elem_of_cons in H as [H|H]; [congruence|].
      destruct (IH H) as (config & Hin & Hname & Hfind).
      exists config. split; [right; exact Hin|split; assumption].
Qed.

(** C9. A tool name that the loaded custom tools hold is dispatched to the
    custom adapter, with the first configuration of that name and the
    payload extended by [toolName]; this holds for every process
    environment, so whether a built-in tool of the same name exists, is
    enabled or is disabled makes no difference. *)
Theorem custom_tool_shadows_builtin
  (env : ProcessEnv) (CUSTOM_TOOLS : list Dispatcher.CustomToolConfig)
  (adapters : Dispatcher.Adapters) (URL : list N -> option Dispatcher.ParsedURL)
  (tool : list N) (payload : Payload) :
  tool ∈ (Dispatcher.ct_name <$> CUSTOM_TOOLS) ->
  exists config,
    config ∈ CUSTOM_TOOLS /\ Dispatcher.ct_name config = tool /\
    Dispatcher.find_custom CUSTOM_TOOLS tool = Some config /\
    Dispatcher.dispatchTool env CUSTOM_TOOLS adapters URL tool payload =
    call (Dispatcher.executeCustomTool adapters
            (payload ∪ {[ lit "toolName" := JStr tool ]}) config).
Proof.
  intros Hin. destruct (find_custom_elem _ _ Hin) as (config & Hc & Hname & Hfind).
  exists config. repeat split; try assumption.
  unfold Dispatcher.dispatchTool. rewrite Hfind.
  rewrite bool_decide_eq_true_2 by eauto.
  simpl negb. rewrite andb_false_r. reflexivity.
Qed.

(** The built-in terminal tool is disabled in the default environment, and
    a custom tool named "terminal" is dispatched all the same. *)
Lemma custom_tool_shadows_builtin_witness :
  Dispatcher.missing_or_disabled (Dispatcher.find_tool ∅ (lit "terminal")) = true
  /\ exists config,
      config ∈ [Scenario.custom_terminal] /\
      Dispatcher.ct_name config = lit "terminal" /\
      Dispatcher.find_custom [Scenario.custom_terminal] (lit "terminal") = Some config /\
      Dispatcher.dispatchTool ∅ [Scenario.custom_terminal] Scenario.adapters
        Scenario.URL (lit "terminal") ∅ =
      call (Dispatcher.executeCustomTool Scenario.adapters
              (∅ ∪ {[ lit "toolName" := JStr (lit "terminal") ]}) config).
Proof.
  split; [vm_compute; reflexivity|].
  apply (custom_tool_shadows_builtin ∅ [Scenario.custom_terminal]
           Scenario.adapters Scenario.URL (lit "terminal") ∅).
  simpl. left.
Defined.

Ltac tool_case tool nm :=
  destruct (decide (tool = lit nm)) as [->|?];
  [ reflexivity
  | rewrite (bool_decide_eq_false_2 (tool = lit nm)) by assumption;
    rewrite (bool_decide_eq_false_2 (lit nm = tool)) by congruence ].

Lemma dispatch_builtin_browser (adapters : Dispatcher.Adapters)
  (URL : list N -> option Dispatcher.ParsedURL) (payload : Payload) :
  Dispatcher.dispatch_builtin adapters URL (lit "browser") payload =
  try_catch (call (Dispatcher.executeBrowser adapters payload))
            (Dispatcher.browser_fallback adapters URL payload).
Proof. reflexivity. Qed.

(** Every built-in tool but the browser runs its adapter and nothing
    else: what the adapter writes, returns or throws is what the
    dispatcher writes, returns or throws. *)
Lemma dispatch_builtin_direct (adapters : Dispatcher.Adapters)
  (URL : list N -> option Dispatcher.ParsedURL) (tool : list N)
  (payload : Payload) :
  tool <> lit "browser" ->
  Dispatcher.dispatch_builtin adapters URL tool payload =
  match Dispatcher.adapter_of adapters tool with
  | Some run => run payload
  | None => throw (JsError (lit "Unknown tool: " ++ tool))
  end.
Proof.
  intros Hne.
  unfold Dispatcher.dispatch_builtin, Dispatcher.adapter_of,
    Dispatcher.adapter_table, str_eqb.
  cbn [find fst snd].
  tool_case tool "filesystem". tool_case tool "github".
  tool_case tool "slack". tool_case tool "calendar".
  tool_case tool "terminal".
  rewrite (bool_decide_eq_false_2 (tool = lit "browser")) by assumption.
  rewrite (bool_decide_eq_false_2 (lit "browser" = tool)) by congruence.
  tool_case tool "search". tool_case tool "leetcode".
  tool_case tool "mcp_registry". tool_case tool "utility".
  reflexivity.
Qed.

(** The browser tool is enabled unless [ENABLE_BROWSER] is set to
    ["false"]. *)
Lemma browser_enabled (env : ProcessEnv) :
  Dispatcher.missing_or_disabled (Dispatcher.find_tool env (lit "browser"))
  = negb (Dispatcher.env_not_false env "ENABLE_BROWSER").
Proof. reflexivity. Qed.

Lemma dispatchTool_builtin (env : ProcessEnv)
  (CUSTOM_TOOLS : list Dispatcher.CustomToolConfig)
  (adapters : Dispatcher.Adapters) (URL : list N -> option Dispatcher.ParsedURL)
  (tool : list N) (payload : Payload) :
  Dispatcher.missing_or_disabled (Dispatcher.find_tool env tool) = false ->
  Dispatcher.find_custom CUSTOM_TOOLS tool = None ->
  Dispatcher.dispatchTool env CUSTOM_TOOLS adapters URL tool payload =
  Dispatcher.dispatch_builtin adapters URL tool payload.
Proof.
  intros Henabled Hcustom. unfold Dispatcher.dispatchTool.
  rewrite Henabled, Hcustom. reflexivity.
Qed.

(** C3, as the code has it.  When the browser tool is an enabled built-in
    that no custom tool shadows and its adapter throws, the dispatcher
    does not throw for that: it logs two lines, derives a search query
    from the payload's [url] (host name, a space, and the path with each
    slash turned into a space, trimmed at both ends only; the [url] as it
    is when it does not parse), calls the search adapter with that query,
    limit 5 and deep fetch on, and returns the search result behind the
    fallback marker; a throw of the search is thrown on.  Every other
    enabled built-in tool, and every custom tool, runs its own adapter and
    nothing else, so its failure is thrown on as it is. *)
Theorem browser_failure_falls_back_to_search
  (env : ProcessEnv) (CUSTOM_TOOLS : list Dispatcher.CustomToolConfig)
  (adapters : Dispatcher.Adapters) (URL : list N -> option Dispatcher.ParsedURL)
  (payload : Payload) (error : Exn) :
  Dispatcher.missing_or_disabled (Dispatcher.find_tool env (lit "browser")) = false ->
  Dispatcher.find_custom CUSTOM_TOOLS (lit "browser") = None ->
  Dispatcher.executeBrowser adapters payload = Threw error ->
  let url := get payload (lit "url") in
  let searchQuery :=
    match URL (to_string url) with
    | Some parsed =>
        JStr (trim (Dispatcher.hostname parsed ++ lit " " ++
                    replace_unit 0x2F 0x20 (Dispatcher.pathname parsed)))
    | None => url
    end in
  let search :=
    Dispatcher.executeSearch adapters
      (Dispatcher.obj [("action", JStr (lit "search")); ("query", searchQuery);
                       ("limit", JNum 5); ("deepFetch", JBool true)]) in
  let dispatched :=
    Dispatcher.dispatchTool env CUSTOM_TOOLS adapters URL (lit "browser") payload in
  outcome dispatched =
    match outcome search with
    | Returned searchResult =>
        Returned (lit "[Fallback from browser to search]" ++ [0x0A; 0x0A]
                  ++ searchResult)
    | Threw searchError => Threw searchError
    end
  /\ written dispatched =
       [ lit "[Dispatcher] Browser failed for " ++ to_string url
           ++ lit ", falling back to search...";
         lit "[Dispatcher] Searching for: " ++ [0x22]
           ++ to_string searchQuery ++ [0x22] ]
       ++ written search
  /\ (forall tool payload',
        tool <> lit "browser" ->
        Dispatcher.missing_or_disabled (Dispatcher.find_tool env tool) = false ->
        Dispatcher.find_custom CUSTOM_TOOLS tool = None ->
        Dispatcher.dispatchTool env CUSTOM_TOOLS adapters URL tool payload' =
        match Dispatcher.adapter_of adapters tool with
        | Some run => run payload'
        | None => throw (JsError (lit "Unknown tool: " ++ tool))
        end)
  /\ (forall tool payload' config,
        Dispatcher.find_custom CUSTOM_TOOLS tool = Some config ->
        Dispatcher.dispatchTool env CUSTOM_TOOLS adapters URL tool payload' =
        call (Dispatcher.executeCustomTool adapters
                (payload' ∪ {[ lit "toolName" := JStr tool ]}) config)).
Proof.
  intros Henabled Hcustom Hbrowser url searchQuery search dispatched.
  assert (dispatched =
          (let (w, r) := search in
           ([ lit "[Dispatcher] Browser failed for " ++ to_string url
                ++ lit ", falling back to search...";
              lit "[Dispatcher] Searching for: " ++ [0x22]
                ++ to_string searchQuery ++ [0x22] ] ++ w,
            match r with
            | Returned searchResult =>
                Returned (lit "[Fallback from browser to search]" ++ [0x0A; 0x0A]
                          ++ searchResult)
            | Threw searchError => Threw searchError
            end))) as E.
  { unfold dispatched. rewrite dispatchTool_builtin by assumption.
    rewrite dispatch_builtin_browser, Hbrowser.
    unfold call, try_catch, Dispatcher.browser_fallback, bind, tell, ret.
    fold url. unfold Dispatcher.fallback_query, Dispatcher.fallback_payload,
      Dispatcher.fallback_marker, Dispatcher.newline, Dispatcher.dquote.
    fold searchQuery. fold search.
    destruct search as [w [r|e]]; cbv beta iota zeta;
      rewrite ?app_nil_r; reflexivity. }
  split; [|split; [|split]].
  - rewrite E. destruct search as [w [r|e]]; reflexivity.
  - rewrite E. destruct search as [w [r|e]]; reflexivity.
  - intros tool payload' Hne Hen Hcu.
    rewrite dispatchTool_builtin by assumption.
    apply dispatch_builtin_direct. exact Hne.
  - intros tool payload' config Hfind. unfold Dispatcher.dispatchTool.
    rewrite Hfind. rewrite bool_decide_eq_true_2 by eauto.
    simpl negb. rewrite andb_false_r. reflexivity.
Qed.

(** With the browser unable to reach [https://example.com/a/b], the search
    is called with the query [example.com  a b]: the slash after the host
    name and the space of the template give two spaces in a row, which
    [trim] leaves in place. *)
Lemma fallback_query_keeps_inner_spaces :
  Dispatcher.executeBrowser Scenario.adapters
    (Dispatcher.obj [("url", JStr (lit "https://example.com/a/b"))])
  = Threw (JsError (lit "Domain not allowed"))
  /\ Dispatcher.fallback_query Scenario.URL (JStr (lit "https://example.com/a/b"))
     = JStr (lit "example.com  a b")
  /\ Dispatcher.whitespace_collapsed (lit "example.com  a b") = false
  /\ outcome (Dispatcher.dispatchTool ∅ [] Scenario.adapters Scenario.URL
                (lit "browser")
                (Dispatcher.obj [("url", JStr (lit "https://example.com/a/b"))]))
     = Returned (lit "[Fallback from browser to search]" ++ [0x0A; 0x0A]
                 ++ lit "Results for: example.com  a b").
Proof. repeat split; vm_compute; reflexivity. Qed.

Lemma browser_failure_falls_back_to_search_witness :
  Dispatcher.missing_or_disabled (Dispatcher.find_tool ∅ (lit "browser")) = false
  /\ Dispatcher.find_custom [] (lit "browser") = None
  /\ Dispatcher.executeBrowser Scenario.adapters
       (Dispatcher.obj [("url", JStr (lit "https://example.com/docs/"))])
     = Threw (JsError (lit "Domain not allowed"))
  /\ outcome (Dispatcher.dispatchTool ∅ [] Scenario.adapters Scenario.URL
                (lit "browser")
                (Dispatcher.obj [("url", JStr (lit "https://example.com/docs/"))]))
     = Returned (lit "[Fallback from browser to search]" ++ [0x0A; 0x0A]
                 ++ lit "Results for: example.com  docs").
Proof.
  assert (Dispatcher.missing_or_disabled (Dispatcher.find_tool ∅ (lit "browser")) = false)
    as H1 by (vm_compute; reflexivity).
  assert (Dispatcher.find_custom [] (lit "browser") = None) as H2 by reflexivity.
  assert (Dispatcher.executeBrowser Scenario.adapters
            (Dispatcher.obj [("url", JStr (lit "https://example.com/docs/"))])
          = Threw (JsError (lit "Domain not allowed"))) as H3 by reflexivity.
  split; [exact H1|]. split; [exact H2|]. split; [exact H3|].
  destruct (browser_failure_falls_back_to_search ∅ [] Scenario.adapters
              Scenario.URL _ _ H1 H2 H3) as [Hout _].
  rewrite Hout. vm_compute. reflexivity.
Defined.

(** ** Chained dispatch *)

(** C4, as the code has it.  [dispatchToolWithChaining] always returns a
    result record and never throws.  The payload it dispatches is the
    given one with [previousContext] added when a previous result is given
    and is not the empty string, and the given one unchanged otherwise.
    If the dispatch throws, the record has [success] false, the tool, and
    the message of the error ("Unknown error" for a thrown value that is
    no [Error]); if it returns, the record has [success] true, the tool,
    the raw result, [fallbackUsed] set to "search" when the result starts
    with the fallback marker, and the result transformed for the next tool
    when a next tool is named and the result is not empty. *)
Theorem dispatchToolWithChaining_never_throws
  (env : ProcessEnv) (CUSTOM_TOOLS : list Dispatcher.CustomToolConfig)
  (adapters : Dispatcher.Adapters) (URL : list N -> option Dispatcher.ParsedURL)
  (tool : list N) (payload : Payload)
  (previousResult nextTool : option (list N)) :
  let enriched := Dispatcher.enrichedPayload payload previousResult in
  let dispatched := Dispatcher.dispatchTool env CUSTOM_TOOLS adapters URL tool enriched in
  let chained :=
    Dispatcher.dispatchToolWithChaining env CUSTOM_TOOLS adapters URL
      tool payload previousResult nextTool in
  (forall previous, previousResult = Some previous -> previous <> [] ->
     enriched = <[ lit "previousContext" := JStr previous ]> payload)
  /\ (previousResult = None \/ previousResult = Some [] -> enriched = payload)
  /\ written chained = written dispatched
  /\ exists r,
       outcome chained = Returned r
       /\ (forall error, outcome dispatched = Threw error ->
             r = {| Dispatcher.success := false;
                    Dispatcher.tool := tool;
                    Dispatcher.result := message_or (lit "Unknown error") error;
                    Dispatcher.fallbackUsed := None;
                    Dispatcher.transformedForNext := None |})
       /\ (forall raw, outcome dispatched = Returned raw ->
             r = {| Dispatcher.success := true;
                    Dispatcher.tool := tool;
                    Dispatcher.result := raw;
                    Dispatcher.fallbackUsed :=
                      if startsWith raw (lit "[Fallback")
                      then Some (lit "search") else None;
                    Dispatcher.transformedForNext :=
                      match nextTool with
                      | Some next =>
                          if truthy next && truthy raw
                          then Some (Dispatcher.transformResultForNext raw tool next)
                          else None
                      | None => None
                      end |}).
Proof.
  intros enriched dispatched chained.
  split; [|split; [|split]].
  - intros previous -> Hne. unfold enriched, Dispatcher.enrichedPayload.
    destruct previous; [contradiction|reflexivity].
  - intros [-> | ->]; reflexivity.
  - unfold chained, Dispatcher.dispatchToolWithChaining.
    fold enriched. fold dispatched.
    destruct dispatched as [w [raw|e]]; cbv beta iota zeta delta [try_catch bind ret written fst];
      rewrite ?app_nil_r; reflexivity.
  - unfold chained, Dispatcher.dispatchToolWithChaining.
    fold enriched. fold dispatched.
    destruct dispatched as [w [raw|e]];
      cbv beta iota zeta delta [try_catch bind ret outcome snd].
    + eexists. split; [reflexivity|]. split; [discriminate|].
      intros raw' [= <-]. unfold Dispatcher.wants_transform.
      destruct nextTool as [next|]; [|reflexivity].
      destruct (truthy next && truthy raw); reflexivity.
    + eexists. split; [reflexivity|]. split; [|discriminate].
      intros e' [= <-]. reflexivity.
Qed.

(** A previous result that is the empty string is given, and is not
    merged: the adapter sees no [previousContext]. *)
Lemma empty_previousResult_is_not_merged :
  Dispatcher.enrichedPayload ∅ (Some []) !! lit "previousContext" = None
  /\ outcome (Dispatcher.dispatchToolWithChaining ∅ [] Scenario.adapters
                Scenario.URL (lit "utility") ∅ (Some []) None)
     = Returned {| Dispatcher.success := true;
                   Dispatcher.tool := lit "utility";
                   Dispatcher.result := lit "context=undefined";
                   Dispatcher.fallbackUsed := None;
                   Dispatcher.transformedForNext := None |}.
Proof. split; vm_compute; reflexivity. Qed.

Example nonempty_previousResult_is_merged :
  outcome (Dispatcher.dispatchToolWithChaining ∅ [] Scenario.adapters
             Scenario.URL (lit "utility") ∅ (Some (lit "notes")) None)
  = Returned {| Dispatcher.success := true;
                Dispatcher.tool := lit "utility";
                Dispatcher.result := lit "context=notes";
                Dispatcher.fallbackUsed := None;
                Dispatcher.transformedForNext := None |}.
Proof. vm_compute. reflexivity. Qed.

(** ** The transform between chained tools *)

(** C5, at a search result that opens with the magnifying-glass emoji
    (U+1F50D, the surrogate pair D83D DD0D) as the search adapter writes
    it: chained into the file-system tool, the bold markers are removed
    and the emoji is still there. *)
Theorem transformResultForNext_keeps_emoji :
  Dispatcher.transformResultForNext
    ([0xD83D; 0xDD0D] ++ lit " **Search Results**") (lit "search") (lit "filesystem")
  = [0xD83D; 0xDD0D] ++ lit " Search Results".
Proof. vm_compute. reflexivity. Qed.

(** ** The streaming execute endpoint *)

Section EndpointShape.

Variable dispatchTool : list N -> Payload -> Comp (list N) (list N).
Variable JSON_parse : list N -> option (Payload).
Variable streamSummarizeToolResult :
  list N -> list N -> list N -> Outcome Server.SummaryStream.
Variable logTaskExecuted :
  list N -> list N -> Payload -> list N -> bool -> Outcome unit.

Lemma consume_eq (pending : list (option (list N))) (fullSummary : list N) :
  Server.consume pending fullSummary =
  (Server.SummaryChunk <$> Server.contents_of pending,
   Returned (fullSummary ++ concat (Server.contents_of pending))).
Proof.
  revert fullSummary. unfold Server.contents_of.
  induction pending as [|chunk rest IH]; intros fullSummary.
  - simpl. rewrite app_nil_r. reflexivity.
  - simpl. rewrite filter_cons.
    destruct (truthy (default [] chunk)) eqn:E.
    + rewrite decide_True by reflexivity.
      unfold bind, Server.sendEvent, tell. rewrite IH. simpl.
      rewrite <- app_assoc. reflexivity.
    + rewrite decide_False by discriminate. apply IH.
Qed.

Lemma for_await_eq (stream : Server.SummaryStream) :
  Server.for_await stream =
  (Server.SummaryChunk <$> Server.contents_of (Server.chunks stream),
   match Server.failure stream with
   | Some e => Threw e
   | None => Returned (concat (Server.contents_of (Server.chunks stream)))
   end).
Proof.
  unfold Server.for_await. rewrite consume_eq. unfold bind, throw, ret.
  destruct (Server.failure stream); simpl; rewrite app_nil_r; reflexivity.
Qed.

(** What the summarizing step sends: the pieces of the summary and [done]
    with the whole of it, or, on any failure, the pieces sent so far, the
    raw result as one more piece, and [done] with the raw result. *)
Lemma summarize_eq (taskId tool : list N) (payload : Payload)
  (description rawResult : list N) :
  Server.summarize streamSummarizeToolResult logTaskExecuted
    taskId tool payload description rawResult =
  match streamSummarizeToolResult description tool rawResult with
  | Threw _ =>
      ([Server.SummaryChunk rawResult; Server.Done rawResult], Returned tt)
  | Returned stream =>
      let contents := Server.contents_of (Server.chunks stream) in
      match Server.failure stream,
            logTaskExecuted taskId tool payload (concat contents) true with
      | None, Returned _ =>
          ((Server.SummaryChunk <$> contents) ++ [Server.Done (concat contents)],
           Returned tt)
      | _, _ =>
          ((Server.SummaryChunk <$> contents)
             ++ [Server.SummaryChunk rawResult; Server.Done rawResult],
           Returned tt)
      end
  end.
Proof.
  unfold Server.summarize.
  destruct (streamSummarizeToolResult description tool rawResult) as [stream|e].
  - unfold call at 1. unfold bind at 1. rewrite for_await_eq.
    destruct (Server.failure stream) as [e|].
    + reflexivity.
    + cbv beta iota zeta delta [bind call try_catch].
      destruct (logTaskExecuted _ _ _ _ _) as [[]|e]; simpl;
        rewrite ?app_nil_r; reflexivity.
  - reflexivity.
Qed.

Lemma execute_eq (taskId tool : list N) (payload : Payload)
  (description : list N) :
  Server.execute dispatchTool streamSummarizeToolResult logTaskExecuted
    taskId tool payload description =
  match outcome (dispatchTool tool payload) with
  | Threw e =>
      (Server.Start taskId tool :: (Server.Log <$> written (dispatchTool tool payload)),
       Threw e)
  | Returned rawResult =>
      (Server.Start taskId tool :: (Server.Log <$> written (dispatchTool tool payload))
         ++ Server.ToolResult rawResult
         :: written (Server.summarize streamSummarizeToolResult logTaskExecuted
                       taskId tool payload description rawResult),
       Returned tt)
  end.
Proof.
  unfold Server.execute.
  destruct (dispatchTool tool payload) as [logs [rawResult|e]].
  - cbv beta iota zeta delta [bind with_sink Server.sendEvent tell fst snd outcome written].
    rewrite summarize_eq.
    destruct (streamSummarizeToolResult description tool rawResult) as [stream|e].
    + cbv zeta. destruct (Server.failure stream); [reflexivity|].
      destruct (logTaskExecuted _ _ _ _ _); reflexivity.
    + reflexivity.
  - reflexivity.
Qed.

Lemma summarize_returns (taskId tool : list N) (payload : Payload)
  (description rawResult : list N) :
  exists contents final,
    Server.summarize streamSummarizeToolResult logTaskExecuted
      taskId tool payload description rawResult =
    ((Server.SummaryChunk <$> contents) ++ [Server.Done final], Returned tt).
Proof.
  rewrite summarize_eq.
  destruct (streamSummarizeToolResult description tool rawResult) as [stream|e].
  - cbv zeta. set (contents := Server.contents_of (Server.chunks stream)).
    assert (((Server.SummaryChunk <$> contents)
               ++ [Server.SummaryChunk rawResult; Server.Done rawResult])
            = (Server.SummaryChunk <$> (contents ++ [rawResult]))
               ++ [Server.Done rawResult]) as E.
    { rewrite fmap_app, <- app_assoc. reflexivity. }
    destruct (Server.failure stream).
    + exists (contents ++ [rawResult]), rawResult. rewrite E. reflexivity.
    + destruct (logTaskExecuted _ _ _ _ _).
      * exists contents, (concat contents). reflexivity.
      * exists (contents ++ [rawResult]), rawResult. rewrite E. reflexivity.
  - exists [rawResult], rawResult. reflexivity.
Qed.

(** The handler, event for event. *)
Lemma streamExecute_eq (query : Server.Query) :
  Server.streamExecute dispatchTool JSON_parse streamSummarizeToolResult
    logTaskExecuted query =
  match Server.given (Server.q_taskId query), Server.given (Server.q_tool query),
        Server.given (Server.q_payload query) with
  | Some taskId, Some tool, Some payloadStr =>
      match JSON_parse payloadStr with
      | None => ([Server.Error (lit "Invalid payload JSON")], Returned tt)
      | Some payload =>
          let description :=
            default (lit "Execute task") (Server.given (Server.q_description query)) in
          match outcome (dispatchTool tool payload) with
          | Threw e =>
              (Server.Start taskId tool
                 :: (Server.Log <$> written (dispatchTool tool payload))
                 ++ [Server.Error (message_or (lit "Execution failed") e)],
               Returned tt)
          | Returned rawResult =>
              (Server.Start taskId tool
                 :: (Server.Log <$> written (dispatchTool tool payload))
                 ++ Server.ToolResult rawResult
                 :: written (Server.summarize streamSummarizeToolResult
                               logTaskExecuted taskId tool payload description
                               rawResult),
               Returned tt)
          end
      end
  | _, _, _ => ([Server.Error (lit "Missing required parameters")], Returned tt)
  end.
Proof.
  unfold Server.streamExecute.
  destruct (Server.given (Server.q_taskId query)) as [taskId|]; [|reflexivity].
  destruct (Server.given (Server.q_tool query)) as [tool|]; [|reflexivity].
  destruct (Server.given (Server.q_payload query)) as [payloadStr|]; [|reflexivity].
  destruct (JSON_parse payloadStr) as [payload|]; [|reflexivity].
  rewrite execute_eq. cbv zeta.
  destruct (outcome (dispatchTool tool payload)); reflexivity.
Qed.

End EndpointShape.

Lemma count_nil (k : Server.EventKind) : Server.count k [] = 0%nat.
Proof. reflexivity. Qed.

Lemma count_cons (k : Server.EventKind) (e : Server.StreamEvent)
  (l : list Server.StreamEvent) :
  Server.count k (e :: l) =
  ((if Server.kind_eqb (Server.kind e) k then 1 else 0) + Server.count k l)%nat.
Proof.
  unfold Server.count. rewrite filter_cons.
  destruct (Server.kind_eqb (Server.kind e) k).
  - rewrite decide_True by reflexivity. reflexivity.
  - rewrite decide_False by discriminate. reflexivity.
Qed.

Lemma count_app (k : Server.EventKind) (a b : list Server.StreamEvent) :
  Server.count k (a ++ b) = (Server.count k a + Server.count k b)%nat.
Proof. unfold Server.count. rewrite filter_app, length_app. reflexivity. Qed.

Lemma count_fmap_other (k : Server.EventKind) (f : list N -> Server.StreamEvent)
  (l : list (list N)) :
  (forall x, Server.kind_eqb (Server.kind (f x)) k = false) ->
  Server.count k (f <$> l) = 0%nat.
Proof.
  intros H. induction l as [|x l IH]; [reflexivity|].
  rewrite fmap_cons, count_cons, H, IH. reflexivity.
Qed.

Ltac count_events :=
  repeat first
    [ rewrite count_app | rewrite count_cons | rewrite count_nil
    | rewrite (count_fmap_other _ Server.Log) by (intros; reflexivity)
    | rewrite (count_fmap_other _ Server.SummaryChunk) by (intros; reflexivity) ];
  cbn [Server.kind Server.kind_eqb]; try lia.

Lemma Forall_not_terminal_fmap (f : list N -> Server.StreamEvent) (l : list (list N)) :
  (forall x, Server.terminal (f x) = false) ->
  Forall (fun event => Server.terminal event = false) (f <$> l).
Proof. intros H. apply Forall_fmap, Forall_forall. intros x _. apply H. Qed.

(** C1, as the code has it.  The handler never throws and always ends its
    stream with exactly one terminal event ([done] or [error]), which is
    the last event.  For a request whose [taskId], [tool] and [payload]
    parameters are given and whose payload parses, [start] is the first
    event and is sent once, before every [log] and the [tool_result]; when
    the dispatch returns, exactly one [tool_result] follows the logs and
    precedes every [summary_chunk], and the stream ends with [done]; when
    the dispatch throws, no [tool_result] is sent and the stream ends with
    [error] carrying the message of the error.  A request that misses a
    parameter, or whose payload does not parse, is answered by a single
    [error] event, with no [start]. *)
Theorem streamExecute_event_order
  (dispatchTool : list N -> Payload -> Comp (list N) (list N))
  (JSON_parse : list N -> option (Payload))
  (streamSummarizeToolResult : list N -> list N -> list N -> Outcome Server.SummaryStream)
  (logTaskExecuted : list N -> list N -> Payload -> list N -> bool -> Outcome unit)
  (query : Server.Query) :
  let run := Server.streamExecute dispatchTool JSON_parse
               streamSummarizeToolResult logTaskExecuted query in
  let events := written run in
  outcome run = Returned tt
  /\ (exists before final,
        events = before ++ [final] /\ Server.terminal final = true
        /\ Forall (fun event => Server.terminal event = false) before)
  /\ (Server.count Server.done_ev events + Server.count Server.error_ev events = 1)%nat
  /\ (forall taskId tool payloadStr payload,
        Server.given (Server.q_taskId query) = Some taskId ->
        Server.given (Server.q_tool query) = Some tool ->
        Server.given (Server.q_payload query) = Some payloadStr ->
        JSON_parse payloadStr = Some payload ->
        let dispatched := dispatchTool tool payload in
        head events = Some (Server.Start taskId tool)
        /\ Server.count Server.start_ev events = 1%nat
        /\ (forall error, outcome dispatched = Threw error ->
              Server.count Server.tool_result_ev events = 0%nat
              /\ events =
                 Server.Start taskId tool :: (Server.Log <$> written dispatched)
                 ++ [Server.Error (message_or (lit "Execution failed") error)])
        /\ (forall rawResult, outcome dispatched = Returned rawResult ->
              Server.count Server.tool_result_ev events = 1%nat
              /\ exists contents final,
                   events =
                   Server.Start taskId tool :: (Server.Log <$> written dispatched)
                   ++ Server.ToolResult rawResult
                   :: (Server.SummaryChunk <$> contents) ++ [Server.Done final]))
  /\ (Server.given (Server.q_taskId query) = None
      \/ Server.given (Server.q_tool query) = None
      \/ Server.given (Server.q_payload query) = None ->
      events = [Server.Error (lit "Missing required parameters")])
  /\ (forall taskId tool payloadStr,
        Server.given (Server.q_taskId query) = Some taskId ->
        Server.given (Server.q_tool query) = Some tool ->
        Server.given (Server.q_payload query) = Some payloadStr ->
        JSON_parse payloadStr = None ->
        events = [Server.Error (lit "Invalid payload JSON")]).
Proof.
  intros run events. unfold events, run. clear run events.
  rewrite streamExecute_eq.
  destruct (Server.given (Server.q_taskId query)) as [taskId|] eqn:Et;
  [destruct (Server.given (Server.q_tool query)) as [tool|] eqn:Eo;
   [destruct (Server.given (Server.q_payload query)) as [payloadStr|] eqn:Ep;
    [destruct (JSON_parse payloadStr) as [payload|] eqn:Ej|]|]|].
  - (* accepted *)
    cbv zeta.
    set (description := default (lit "Execute task") _).
    destruct (outcome (dispatchTool tool payload)) as [rawResult|e] eqn:Eout.
    + destruct (summarize_returns streamSummarizeToolResult logTaskExecuted
                  taskId tool payload description rawResult)
        as (contents & final & Esum).
      rewrite Esum. cbn [written outcome fst snd].
      split; [reflexivity|]. split; [|split; [|split; [|split]]].
      * exists (Server.Start taskId tool
                  :: (Server.Log <$> written (dispatchTool tool payload))
                  ++ Server.ToolResult rawResult :: (Server.SummaryChunk <$> contents)),
          (Server.Done final).
        split; [|split; [reflexivity|]].
        -- simpl. rewrite <- app_assoc. reflexivity.
        -- constructor; [reflexivity|]. apply Forall_app. split.
           ++ apply Forall_not_terminal_fmap. reflexivity.
           ++ constructor; [reflexivity|].
              apply Forall_not_terminal_fmap. reflexivity.
      * count_events.
      * intros taskId' tool' payloadStr' payload' [= <-] [= <-] [= <-] Ej'.
        rewrite Ej in Ej'. injection Ej' as <-. cbv zeta.
        split; [reflexivity|]. split; [count_events|]. split.
        -- intros error Herr. rewrite Eout in Herr. discriminate.
        -- intros raw' Hraw. rewrite Eout in Hraw. injection Hraw as <-.
           split; [count_events|]. exists contents, final. reflexivity.
      * intros [H|[H|H]]; discriminate.
      * intros taskId' tool' payloadStr' _ _ [= <-] Ej'. congruence.
    + cbn [written outcome fst snd].
      split; [reflexivity|]. split; [|split; [|split; [|split]]].
      * exists (Server.Start taskId tool
                  :: (Server.Log <$> written (dispatchTool tool payload))),
          (Server.Error (message_or (lit "Execution failed") e)).
        split; [reflexivity|]. split; [reflexivity|].
        constructor; [reflexivity|]. apply Forall_not_terminal_fmap. reflexivity.
      * count_events.
      * intros taskId' tool' payloadStr' payload' [= <-] [= <-] [= <-] Ej'.
        rewrite Ej in Ej'. injection Ej' as <-. cbv zeta.
        split; [reflexivity|]. split; [count_events|]. split.
        -- intros error Herr. rewrite Eout in Herr. injection Herr as <-.
           split; [count_events|reflexivity].
        -- intros raw' Hraw. rewrite Eout in Hraw. discriminate.
      * intros [H|[H|H]]; discriminate.
      * intros taskId' tool' payloadStr' _ _ [= <-] Ej'. congruence.
  - (* the payload does not parse *)
    cbn [written outcome fst snd].
    split; [reflexivity|]. split; [|split; [|split; [|split]]].
    + exists [], (Server.Error (lit "Invalid payload JSON")). repeat split. constructor.
    + reflexivity.
    + intros taskId' tool' payloadStr' payload' _ _ [= <-] Ej'. congruence.
    + intros [H|[H|H]]; discriminate.
    + reflexivity.
  - cbn [written outcome fst snd].
    split; [reflexivity|]. split; [|split; [|split; [|split]]].
    + exists [], (Server.Error (lit "Missing required parameters")). repeat split. constructor.
    + reflexivity.
    + intros; discriminate.
    + reflexivity.
    + intros; discriminate.
  - cbn [written outcome fst snd].
    split; [reflexivity|]. split; [|split; [|split; [|split]]].
    + exists [], (Server.Error (lit "Missing required parameters")). repeat split. constructor.
    + reflexivity.
    + intros; discriminate.
    + reflexivity.
    + intros; discriminate.
  - cbn [written outcome fst snd].
    split; [reflexivity|]. split; [|split; [|split; [|split]]].
    + exists [], (Server.Error (lit "Missing required parameters")). repeat split. constructor.
    + reflexivity.
    + intros; discriminate.
    + reflexivity.
    + intros; discriminate.
Qed.

(** A task whose tool name is the empty string is a task the planner can
    produce; the request sent for it is answered by one [error] event, and
    [start] is never sent. *)
Lemma streamExecute_rejects_without_start :
  Scenario.endpoint
    (Client.request_of (Scenario.planned (lit "p1") "1" "Save the notes" ""))
  = [Server.Error (lit "Missing required parameters")]
  /\ Server.count Server.start_ev
       (Scenario.endpoint
          (Client.request_of (Scenario.planned (lit "p1") "1" "Save the notes" "")))
     = 0%nat.
Proof. split; vm_compute; reflexivity. Qed.

Lemma streamExecute_event_order_witness :
  written (Scenario.server
             {| Server.q_taskId := Some (lit "p1-task-2");
                Server.q_tool := Some (lit "slack");
                Server.q_payload := Some (lit "{}");
                Server.q_description := Some (lit "Tell the team") |})
  = [ Server.Start (lit "p1-task-2") (lit "slack");
      Server.ToolResult (lit "Message sent");
      Server.SummaryChunk (lit "All ");
      Server.SummaryChunk (lit "done.");
      Server.Done (lit "All done.") ]
  /\ (Server.count Server.done_ev
        (written (Scenario.server
                    {| Server.q_taskId := Some (lit "p1-task-2");
                       Server.q_tool := Some (lit "slack");
                       Server.q_payload := Some (lit "{}");
                       Server.q_description := Some (lit "Tell the team") |}))
      + Server.count Server.error_ev
          (written (Scenario.server
                      {| Server.q_taskId := Some (lit "p1-task-2");
                         Server.q_tool := Some (lit "slack");
                         Server.q_payload := Some (lit "{}");
                         Server.q_description := Some (lit "Tell the team") |}))
      = 1)%nat.
Proof.
  split; [vm_compute; reflexivity|].
  apply (streamExecute_event_order
           (Dispatcher.dispatchTool ∅ [] Scenario.adapters Scenario.URL)
           Scenario.JSON_parse Scenario.streamSummarizeToolResult
           Scenario.logTaskExecuted).
Defined.

(** C6. When the request is accepted and the dispatch returns, a failure
    of the summarizer (on opening the stream or while it is read) does not
    fail the task: after the pieces already sent, the raw result is sent
    as one [summary_chunk], [done] carries the raw result, and no [error]
    event is sent. *)
Theorem summarizer_failure_degrades_to_raw_result
  (dispatchTool : list N -> Payload -> Comp (list N) (list N))
  (JSON_parse : list N -> option (Payload))
  (streamSummarizeToolResult : list N -> list N -> list N -> Outcome Server.SummaryStream)
  (logTaskExecuted : list N -> list N -> Payload -> list N -> bool -> Outcome unit)
  (query : Server.Query) (taskId tool payloadStr : list N)
  (payload : Payload) (rawResult : list N) (sent : list (list N)) :
  Server.given (Server.q_taskId query) = Some taskId ->
  Server.given (Server.q_tool query) = Some tool ->
  Server.given (Server.q_payload query) = Some payloadStr ->
  JSON_parse payloadStr = Some payload ->
  outcome (dispatchTool tool payload) = Returned rawResult ->
  (let summary :=
     streamSummarizeToolResult
       (default (lit "Execute task") (Server.given (Server.q_description query)))
       tool rawResult in
   (exists e, summary = Threw e /\ sent = [])
   \/ (exists stream e,
         summary = Returned stream /\ Server.failure stream = Some e
         /\ sent = Server.contents_of (Server.chunks stream))) ->
  let run := Server.streamExecute dispatchTool JSON_parse
               streamSummarizeToolResult logTaskExecuted query in
  outcome run = Returned tt
  /\ written run =
     Server.Start taskId tool :: (Server.Log <$> written (dispatchTool tool payload))
     ++ Server.ToolResult rawResult :: (Server.SummaryChunk <$> sent)
     ++ [Server.SummaryChunk rawResult; Server.Done rawResult]
  /\ Server.count Server.error_ev (written run) = 0%nat
  /\ Server.count Server.done_ev (written run) = 1%nat.
Proof.
  intros Et Eo Ep Ej Eout Hfail run.
  assert (run =
          (Server.Start taskId tool :: (Server.Log <$> written (dispatchTool tool payload))
             ++ Server.ToolResult rawResult :: (Server.SummaryChunk <$> sent)
             ++ [Server.SummaryChunk rawResult; Server.Done rawResult],
           Returned tt)) as E.
  { unfold run. rewrite streamExecute_eq, Et, Eo, Ep, Ej. cbv zeta.
    rewrite Eout, summarize_eq.
    cbv zeta in Hfail.
    destruct Hfail as [(e & -> & ->)|(stream & e & -> & Hf & ->)].
    - reflexivity.
    - cbv zeta. rewrite Hf. reflexivity. }
  rewrite E. cbn [written outcome fst snd].
  split; [reflexivity|]. split; [reflexivity|]. split; count_events.
Qed.

Lemma summarizer_failure_degrades_to_raw_result_witness :
  written (Server.streamExecute
             (Dispatcher.dispatchTool ∅ [] Scenario.adapters Scenario.URL)
             Scenario.JSON_parse Scenario.summarizer_down Scenario.logTaskExecuted
             {| Server.q_taskId := Some (lit "p1-task-2");
                Server.q_tool := Some (lit "slack");
                Server.q_payload := Some (lit "{}");
                Server.q_description := None |})
  = [ Server.Start (lit "p1-task-2") (lit "slack");
      Server.ToolResult (lit "Message sent");
      Server.SummaryChunk (lit "Message sent");
      Server.Done (lit "Message sent") ].
Proof.
  refine (proj1 (proj2
    (summarizer_failure_degrades_to_raw_result
       (Dispatcher.dispatchTool ∅ [] Scenario.adapters Scenario.URL)
       Scenario.JSON_parse Scenario.summarizer_down Scenario.logTaskExecuted
       {| Server.q_taskId := Some (lit "p1-task-2");
          Server.q_tool := Some (lit "slack");
          Server.q_payload := Some (lit "{}");
          Server.q_description := None |}
       (lit "p1-task-2") (lit "slack") (lit "{}") ∅ (lit "Message sent") []
       _ _ _ _ _ _))); try (vm_compute; reflexivity).
  left. exists (JsError (lit "503 Service Unavailable")). split; reflexivity.
Defined.

(** ** The client-side executor *)

Lemma deliver_shape (response : list Server.StreamEvent) :
  exists before final,
    Client.deliver response = before ++ [final]
    /\ Server.terminal final = true
    /\ Forall (fun event => Server.terminal event = false) before.
Proof.
  induction response as [|event rest IH].
  - exists [], (Server.Error (lit "Stream connection error")).
    split; [reflexivity|]. split; [reflexivity|constructor].
  - destruct IH as (before & final & E & Hfinal & Hbefore).
    destruct event as [taskId tool|message|raw|content|r|message]; simpl.
    1-4: rewrite E; eexists (_ :: before), final;
         (split; [reflexivity|]); (split; [exact Hfinal|]);
         constructor; [reflexivity|exact Hbefore].
    + exists [], (Server.Done r). split; [reflexivity|]. split; [reflexivity|constructor].
    + eexists [], _. split; [reflexivity|]. split; [reflexivity|constructor].
Qed.

Lemma with_task_same (msg : Client.Message) (t : Client.Task) :
  Client.m_task msg = Some t -> Client.with_task msg t = msg.
Proof. destruct msg; simpl; intros ->; reflexivity. Qed.

Lemma map_task_lookup (taskId : list N) (f : Client.Task -> Client.Task)
  (messages : list Client.Message) (i : nat) (card : Client.Message)
  (t : Client.Task) :
  messages !! i = Some card -> Client.m_task card = Some t ->
  Client.id t = taskId ->
  Client.map_task taskId f messages !! i = Some (Client.with_task card (f t)).
Proof.
  intros Hi Ht Hid. unfold Client.map_task.
  rewrite list_lookup_fmap, Hi. simpl. rewrite Ht.
  unfold str_eqb. rewrite bool_decide_eq_true_2 by exact Hid. reflexivity.
Qed.

Lemma apply_event_id (event : Server.StreamEvent) (t : Client.Task) :
  Client.id (Client.apply_event event t) = Client.id t.
Proof. destruct event; reflexivity. Qed.

Lemma onEvent_card (task : Client.Task) (event : Server.StreamEvent)
  (messages : list Client.Message) (settled : option Client.Settled)
  (i : nat) (card : Client.Message) (t : Client.Task) :
  messages !! i = Some card -> Client.m_task card = Some t ->
  Client.id t = Client.id task ->
  fst (Client.onEvent task (messages, settled) event) !! i
  = Some (Client.with_task card (Client.apply_event event t)).
Proof.
  intros Hi Ht Hid.
  destruct event; simpl; unfold Client.updateTaskInMessages.
  all: try (rewrite with_task_same by exact Ht; exact Hi).
  all: try (apply (map_task_lookup _ _ _ _ _ _ Hi Ht Hid)).
  all: exact (map_task_lookup _ (fun task0 => Client.merge task0 _) _ _ _ _ Hi Ht Hid).
Qed.

Lemma fold_onEvent_card (task : Client.Task) (events : list Server.StreamEvent) :
  forall (messages : list Client.Message) (settled : option Client.Settled)
         (i : nat) (card : Client.Message) (t : Client.Task),
  messages !! i = Some card -> Client.m_task card = Some t ->
  Client.id t = Client.id task ->
  fst (fold_left (Client.onEvent task) events (messages, settled)) !! i
  = Some (Client.with_task card
            (fold_left (fun t event => Client.apply_event event t) events t)).
Proof.
  induction events as [|event rest IH]; intros messages settled i card t Hi Ht Hid.
  - simpl. rewrite with_task_same by exact Ht. exact Hi.
  - cbn [fold_left].
    pose proof (onEvent_card task event messages settled i card t Hi Ht Hid) as H1.
    destruct (Client.onEvent task (messages, settled) event) as [m1 s1].
    simpl in H1.
    rewrite (IH m1 s1 i _ (Client.apply_event event t) H1 eq_refl).
    + reflexivity.
    + rewrite apply_event_id. exact Hid.
Qed.

Lemma summary_text_app (a b : list Server.StreamEvent) :
  Client.summary_text (a ++ b) = Client.summary_text a ++ Client.summary_text b.
Proof. unfold Client.summary_text. rewrite fmap_app, concat_app. reflexivity. Qed.

Lemma log_lines_app (a b : list Server.StreamEvent) :
  Client.log_lines (a ++ b) = Client.log_lines a ++ Client.log_lines b.
Proof. unfold Client.log_lines. apply omap_app. Qed.

(** What the events before the terminal one do to the running task. *)
Lemma task_after_nonterminal (before : list Server.StreamEvent) :
  forall (t : Client.Task) (r0 : list N),
  Forall (fun event => Server.terminal event = false) before ->
  Client.result t = Some r0 ->
  let t' := fold_left (fun t event => Client.apply_event event t) before t in
  Client.status t' = Client.status t
  /\ Client.error t' = Client.error t
  /\ Client.result t' = Some (r0 ++ Client.summary_text before)
  /\ Client.logs t' =
     match Client.log_lines before with
     | [] => Client.logs t
     | lines => Some (default [] (Client.logs t) ++ lines)
     end.
Proof.
  induction before as [|event rest IH]; intros t r0 Hnt Hr.
  - simpl. rewrite app_nil_r. auto.
  - apply Forall_cons in Hnt as [He Hrest].
    destruct event as [taskId tool|message|raw|content|r|message];
      try discriminate He; cbn [fold_left Client.apply_event].
    + exact (IH t r0 Hrest Hr).
    + destruct (IH (Client.append_log message t) r0 Hrest Hr)
        as (Hs & Herr & Hres & Hlogs).
      cbv zeta. rewrite Hs, Herr, Hres, Hlogs. repeat split.
      cbn [Client.log_lines omap list_omap Client.append_log Client.logs].
      change (omap _ rest) with (Client.log_lines rest).
      destruct (Client.log_lines rest).
      * reflexivity.
      * simpl. rewrite <- app_assoc. reflexivity.
    + exact (IH t r0 Hrest Hr).
    + destruct (IH (Client.append_result content t) (r0 ++ content) Hrest)
        as (Hs & Herr & Hres & Hlogs).
      { simpl. rewrite Hr. reflexivity. }
      cbv zeta. rewrite Hs, Herr, Hres, Hlogs. repeat split.
      unfold Client.summary_text. simpl. rewrite <- app_assoc. reflexivity.
Qed.

Lemma fold_onEvent_nonterminal_settled (task : Client.Task)
  (before : list Server.StreamEvent) :
  forall (messages : list Client.Message) (settled : option Client.Settled),
  Forall (fun event => Server.terminal event = false) before ->
  snd (fold_left (Client.onEvent task) before (messages, settled)) = settled.
Proof.
  induction before as [|event rest IH]; intros messages settled Hnt; [reflexivity|].
  apply Forall_cons in Hnt as [He Hrest].
  destruct event; try discriminate He; simpl; apply IH; exact Hrest.
Qed.

Lemma executeTaskInternal_eq
  (endpoint : Client.ExecuteRequestWithDescription -> list Server.StreamEvent)
  (task : Client.Task) (messages : list Client.Message) :
  Client.executeTaskInternal endpoint task messages =
  let started :=
    Client.updateTaskInMessages (Client.id task)
      {| Client.u_status := Some Client.executing; Client.u_result := Some [];
         Client.u_error := None |} messages in
  let events := Client.streamExecuteTask endpoint (Client.request_of task) in
  let final := fold_left (Client.onEvent task) events (started, None) in
  (Client.Opened (Client.request_of task)
     :: (Client.Delivered (Client.id task) <$> events),
   fst final, snd final).
Proof.
  unfold Client.executeTaskInternal. cbv zeta.
  destruct (fold_left _ _ _). reflexivity.
Qed.

(** The promise of [executeTaskInternal] is always settled: resolved when
    the delivered stream ends with [done], rejected with the message when
    it ends with [error]. *)
Lemma executeTaskInternal_settled
  (endpoint : Client.ExecuteRequestWithDescription -> list Server.StreamEvent)
  (task : Client.Task) (messages : list Client.Message) :
  let events := Client.streamExecuteTask endpoint (Client.request_of task) in
  (exists r, last events = Some (Server.Done r)
             /\ snd (Client.executeTaskInternal endpoint task messages)
                = Some Client.Resolved)
  \/ (exists message,
        last events = Some (Server.Error message)
        /\ snd (Client.executeTaskInternal endpoint task messages)
           = Some (Client.Rejected (JsError message))).
Proof.
  intros events. rewrite executeTaskInternal_eq. cbv zeta. fold events.
  cbn [snd].
  destruct (deliver_shape (endpoint (Client.request_of task)))
    as (before & final & E & Hfinal & Hbefore).
  unfold events, Client.streamExecuteTask. rewrite E.
  rewrite fold_left_app, last_snoc. cbn [fold_left].
  pose proof (fold_onEvent_nonterminal_settled task before
                (Client.updateTaskInMessages (Client.id task)
                   {| Client.u_status := Some Client.executing;
                      Client.u_result := Some []; Client.u_error := None |} messages)
                None Hbefore) as Hs.
  destruct (fold_left (Client.onEvent task) before _) as [m s].
  simpl in Hs. subst s.
  destruct final; try discriminate Hfinal.
  - left. eexists. split; reflexivity.
  - right. eexists. split; reflexivity.
Qed.

(** What a call of [executeTaskInternal] that is run to its end does to
    the card of its task: the result is the text of the [summary_chunk]
    events delivered, the log lines delivered are appended to the logs,
    and the card shows either status [success] with the error as it was
    before the call, or status [failed] with the error set to the message
    of the [error] event that ended the stream. *)
Lemma executeTaskInternal_card
  (endpoint : Client.ExecuteRequestWithDescription -> list Server.StreamEvent)
  (task : Client.Task) (messages : list Client.Message)
  (i : nat) (card : Client.Message) (shown : Client.Task) :
  messages !! i = Some card ->
  Client.m_task card = Some shown ->
  Client.id shown = Client.id task ->
  let events := Client.streamExecuteTask endpoint (Client.request_of task) in
  let run := Client.executeTaskInternal endpoint task messages in
  exists shown',
    snd (fst run) !! i = Some (Client.with_task card shown')
    /\ Client.result shown' = Some (Client.summary_text events)
    /\ Client.logs shown' =
       match Client.log_lines events with
       | [] => Client.logs shown
       | lines => Some (default [] (Client.logs shown) ++ lines)
       end
    /\ ((exists r, last events = Some (Server.Done r))
        /\ snd run = Some Client.Resolved
        /\ Client.status shown' = Client.success
        /\ Client.error shown' = Client.error shown
        \/
        exists message,
          last events = Some (Server.Error message)
          /\ snd run = Some (Client.Rejected (JsError message))
          /\ Client.status shown' = Client.failed
          /\ Client.error shown' = Some message).
Proof.
  intros Hi Ht Hid events run.
  pose proof (executeTaskInternal_settled endpoint task messages) as Hsettled.
  cbv zeta in Hsettled. fold events in Hsettled. fold run in Hsettled.
  set (t0 := Client.merge shown
               {| Client.u_status := Some Client.executing;
                  Client.u_result := Some []; Client.u_error := None |}).
  exists (fold_left (fun t event => Client.apply_event event t) events t0).
  split.
  { unfold run. rewrite executeTaskInternal_eq. cbv zeta. cbn [fst snd].
    fold events.
    rewrite (fold_onEvent_card task events _ None i (Client.with_task card t0) t0).
    - reflexivity.
    - unfold Client.updateTaskInMessages.
      exact (map_task_lookup _ (fun task0 => Client.merge task0 _) _ _ _ _ Hi Ht Hid).
    - reflexivity.
    - exact Hid. }
  destruct (deliver_shape (endpoint (Client.request_of task)))
    as (before & final & E & Hfinal & Hbefore).
  assert (events = before ++ [final]) as Ev by exact E.
  destruct (task_after_nonterminal before t0 [] Hbefore eq_refl)
    as (Hs & He & Hr & Hl).
  rewrite Ev in *. rewrite fold_left_app. cbn [fold_left].
  rewrite summary_text_app, log_lines_app, last_snoc in *.
  set (t1 := fold_left (fun t event => Client.apply_event event t) before t0) in *.
  destruct final as [? ?|?|?|?|r|message]; try discriminate Hfinal.
  - split; [|split].
    + simpl. rewrite Hr. unfold Client.summary_text at 2. simpl.
      rewrite app_nil_r. reflexivity.
    + simpl. rewrite Hl. cbn [Client.log_lines omap list_omap].
      rewrite app_nil_r. reflexivity.
    + left. destruct Hsettled as [(r' & _ & Hrun)|(m & Hlast & _)];
        [|discriminate Hlast].
      split; [eexists; reflexivity|]. split; [exact Hrun|].
      split; [reflexivity|]. simpl. rewrite He. reflexivity.
  - split; [|split].
    + simpl. rewrite Hr. unfold Client.summary_text at 2. simpl.
      rewrite app_nil_r. reflexivity.
    + simpl. rewrite Hl. cbn [Client.log_lines omap list_omap].
      rewrite app_nil_r. reflexivity.
    + right. destruct Hsettled as [(r' & Hlast & _)|(m & Hlast & Hrun)];
        [discriminate Hlast|].
      injection Hlast as <-.
      exists message. repeat split; try reflexivity. exact Hrun.
Qed.

Lemma opened_delivered (taskId : list N) (events : list Server.StreamEvent) :
  Client.opened (Client.Delivered taskId <$> events) = [].
Proof. induction events as [|e rest IH]; [reflexivity|exact IH]. Qed.

Lemma opened_app (a b : list Client.Activity) :
  Client.opened (a ++ b) = Client.opened a ++ Client.opened b.
Proof. unfold Client.opened. apply omap_app. Qed.

Lemma opened_concat
  (endpoint : Client.ExecuteRequestWithDescription -> list Server.StreamEvent)
  (tasks : list Client.Task) :
  Client.opened
    (concat ((fun task =>
                Client.Opened (Client.request_of task)
                  :: (Client.Delivered (Client.id task)
                        <$> Client.streamExecuteTask endpoint (Client.request_of task)))
               <$> tasks))
  = Client.request_of <$> tasks.
Proof.
  induction tasks as [|task rest IH]; [reflexivity|].
  rewrite !fmap_cons. cbn [concat].
  rewrite opened_app, IH.
  change (Client.opened (Client.Opened ?r :: ?l)) with (r :: Client.opened l).
  rewrite opened_delivered. reflexivity.
Qed.

(** The activity of [executeTasksSequentially] run as a whole: one stream
    per task of the plan, in the order of the list, each opening followed
    by the delivered events of the stream up to its one terminal event. *)
Lemma executeTasksSequentially_activity
  (endpoint : Client.ExecuteRequestWithDescription -> list Server.StreamEvent)
  (tasks : list Client.Task) (messages : list Client.Message) :
  let activity := fst (Client.executeTasksSequentially endpoint tasks messages) in
  activity =
    concat ((fun task =>
               Client.Opened (Client.request_of task)
                 :: (Client.Delivered (Client.id task)
                       <$> Client.streamExecuteTask endpoint (Client.request_of task)))
              <$> tasks)
  /\ Client.opened activity = Client.request_of <$> tasks
  /\ length (Client.opened activity) = length tasks
  /\ Forall (fun task =>
               exists before final,
                 Client.streamExecuteTask endpoint (Client.request_of task)
                 = before ++ [final]
                 /\ Server.terminal final = true
                 /\ Forall (fun event => Server.terminal event = false) before)
            tasks
  /\ Client.status <$> Client.shown_tasks
       (snd (Client.executeTasksSequentially Scenario.endpoint Scenario.plan
               (Client.task_cards Scenario.plan)))
     = [Client.failed; Client.success; Client.success].
Proof.
  intros activity.
  assert (activity =
          concat ((fun task =>
                     Client.Opened (Client.request_of task)
                       :: (Client.Delivered (Client.id task)
                             <$> Client.streamExecuteTask endpoint (Client.request_of task)))
                    <$> tasks)) as E.
  { unfold activity. clear activity. revert messages.
    induction tasks as [|task rest IH]; intros messages; [reflexivity|].
    cbn [Client.executeTasksSequentially].
    pose proof (executeTaskInternal_settled endpoint task messages) as Hs.
    rewrite executeTaskInternal_eq in *. cbv zeta in *. cbn [snd] in Hs.
    destruct Hs as [(r & _ & ->)|(m & _ & ->)];
      specialize (IH (fst (fold_left (Client.onEvent task)
                         (Client.streamExecuteTask endpoint (Client.request_of task))
                         (Client.updateTaskInMessages (Client.id task)
                            {| Client.u_status := Some Client.executing;
                               Client.u_result := Some [];
                               Client.u_error := None |} messages, None))));
      destruct (Client.executeTasksSequentially endpoint rest _) as [act' m'];
      cbn [fst] in *; rewrite IH; reflexivity. }
  split; [exact E|]. split; [rewrite E; apply opened_concat|].
  split; [rewrite E, opened_concat, length_fmap; reflexivity|].
  split.
  - apply Forall_forall. intros task _. apply deliver_shape.
  - vm_compute. reflexivity.
Qed.

(** ** The page while a plan is carried out *)

Lemma onEvent_promise (task : Client.Task) (messages : list Client.Message)
  (promise : option Client.Settled) (event : Server.StreamEvent) :
  snd (Client.onEvent task (messages, promise) event)
  = if Server.terminal event
    then Client.settle promise (Executor.settlement event)
    else promise.
Proof. destruct event; reflexivity. Qed.

Lemma snoc_split {A} (before : list A) (final : A) (handled : list A)
  (event : A) (rest : list A) :
  before ++ [final] = handled ++ event :: rest ->
  rest = [] /\ handled = before /\ event = final
  \/ exists rest', rest = rest' ++ [final] /\ before = handled ++ event :: rest'.
Proof.
  destruct rest as [|x rest _] using rev_ind; intros E.
  - left. apply app_inj_tail in E as [-> ->]. auto.
  - right. exists rest.
    change (handled ++ event :: rest ++ [x])
      with (handled ++ (event :: rest) ++ [x]) in E.
    rewrite app_assoc in E. apply app_inj_tail in E as [-> ->]. auto.
Qed.

(** Where a delivered stream is cut, the event at the cut is the terminal
    one exactly when nothing follows it, and none before it is. *)
Lemma deliver_cut (response : list Server.StreamEvent)
  (handled : list Server.StreamEvent) (event : Server.StreamEvent)
  (rest : list Server.StreamEvent) :
  Client.deliver response = handled ++ event :: rest ->
  Forall (fun event => Server.terminal event = false) handled
  /\ Server.terminal event = match rest with [] => true | _ :: _ => false end.
Proof.
  intros E.
  destruct (deliver_shape response) as (before & final & E' & Hfinal & Hbefore).
  rewrite E' in E.
  apply snoc_split in E as [(-> & -> & ->)|(rest' & -> & ->)].
  - auto.
  - apply Forall_app in Hbefore as [Hhandled Hrest].
    apply Forall_cons in Hrest as [Hevent _].
    split; [exact Hhandled|]. rewrite Hevent. destruct rest'; reflexivity.
Qed.

Lemma call_consistent
  (endpoint : nat -> Client.ExecuteRequestWithDescription -> list Server.StreamEvent)
  (task : Client.Task) (app : Executor.App) :
  Executor.run_consistent endpoint (length (Executor.runs app))
    (snd (Executor.call endpoint task app)).
Proof.
  exists []. cbn [Executor.call snd Executor.run_task Executor.coming
                   Executor.promise Datatypes.app].
  split; [reflexivity|].
  destruct (deliver_shape (endpoint (length (Executor.runs app)) (Client.request_of task)))
    as (before & final & E & _ & _).
  unfold Client.streamExecuteTask. rewrite E.
  destruct before; cbn [Datatypes.app]; auto.
Qed.

Lemma page_initial_consistent
  (endpoint : nat -> Client.ExecuteRequestWithDescription -> list Server.StreamEvent)
  (tasks : list Client.Task) (messages : list Client.Message) :
  Executor.consistent endpoint tasks (Executor.initial tasks messages).
Proof.
  unfold Executor.consistent, Executor.initial. cbn.
  split; [intros r run H; rewrite lookup_nil in H; discriminate|].
  split; [reflexivity|]. split; [lia|].
  split; [intros i r H; rewrite lookup_nil in H; discriminate|].
  intros i r run H. rewrite lookup_nil in H. discriminate.
Qed.

(** A call that is awaited and settled is over. *)
Lemma resumable_over
  (endpoint : nat -> Client.ExecuteRequestWithDescription -> list Server.StreamEvent)
  (tasks : list Client.Task) (app : Executor.App) :
  Executor.consistent endpoint tasks app ->
  Executor.resumable app = true ->
  forall i r run,
    Executor.awaited app !! i = Some r -> Executor.runs app !! r = Some run ->
    Executor.over run.
Proof.
  intros (Hruns & _ & _ & _ & Hover) Hres i r run Hi Hr.
  destruct (decide (S i < length (Executor.awaited app))%nat) as [Hlt|Hge].
  { exact (Hover i r run Hi Hr Hlt). }
  assert (last (Executor.awaited app) = Some r) as Hlast.
  { apply lookup_lt_Some in Hi as Hlen.
    rewrite last_lookup.
    replace (Nat.pred (length (Executor.awaited app))) with i by lia.
    exact Hi. }
  unfold Executor.resumable in Hres. rewrite Hlast, Hr in Hres.
  destruct (Hruns r run Hr) as (handled & _ & Hcoming).
  unfold Executor.over.
  destruct (Executor.promise run) eqn:Ep; [|discriminate Hres].
  destruct (Executor.coming run).
  - split; [reflexivity|discriminate].
  - destruct Hcoming as [_ Hnone]. discriminate Hnone.
Qed.

Lemma page_step_consistent
  (endpoint : nat -> Client.ExecuteRequestWithDescription -> list Server.StreamEvent)
  (tasks : list Client.Task) (app app' : Executor.App) (s : Executor.Step) :
  Executor.consistent endpoint tasks app ->
  Executor.step endpoint app s = Some app' ->
  Executor.consistent endpoint tasks app'.
Proof.
  intros Hc Hstep.
  pose proof Hc as (Hruns & Htodo & Hlen & Hplan & Hover).
  destruct s as [|card|r]; cbn [Executor.step] in Hstep.
  - (* the loop goes round *)
    destruct (Executor.todo app) as [|task rest] eqn:Et; [discriminate|].
    destruct (Executor.resumable app) eqn:Hres; [|discriminate].
    pose proof (call_consistent endpoint task app) as Hcall.
    destruct (Executor.call endpoint task app) as [messages' run] eqn:Ec.
    assert (Executor.run_task run = task) as Hrt.
    { unfold Executor.call in Ec. injection Ec as _ <-. reflexivity. }
    injection Hstep as <-. cbn [snd] in Hcall.
    unfold Executor.consistent.
    cbn [Executor.runs Executor.todo Executor.awaited Executor.messages].
    assert (length (Executor.awaited app) < length tasks)%nat as Hk.
    { assert (length (drop (length (Executor.awaited app)) tasks) = S (length rest))
        as Hd by (rewrite <- Htodo; reflexivity).
      rewrite length_drop in Hd. lia. }
    assert (tasks !! length (Executor.awaited app) = Some task) as Htask.
    { rewrite <- (Nat.add_0_r (length (Executor.awaited app))).
      rewrite <- lookup_drop, <- Htodo. reflexivity. }
    split; [|split; [|split; [|split]]].
    + intros r0 run0 H0. apply lookup_snoc_Some in H0 as [[_ H0]|[-> <-]].
      * exact (Hruns _ _ H0).
      * exact Hcall.
    + rewrite length_app. cbn [length].
      rewrite Nat.add_1_r.
      rewrite (drop_S _ _ _ Htask) in Htodo. congruence.
    + rewrite length_app. cbn [length]. lia.
    + intros i r0 H0. apply lookup_snoc_Some in H0 as [[_ H0]|[-> <-]].
      * destruct (Hplan _ _ H0) as (run0 & Hr0 & Ht0).
        exists run0. split; [apply lookup_app_l_Some; exact Hr0|exact Ht0].
      * exists run. split; [apply list_lookup_middle; reflexivity|].
        rewrite Hrt. exact Htask.
    + intros i r0 run0 H0 Hr0 Hi. rewrite length_app in Hi. cbn [length] in Hi.
      apply lookup_snoc_Some in H0 as [[Hlt H0]|[-> _]]; [|lia].
      destruct (Hplan _ _ H0) as (run1 & Hr1 & _).
      rewrite (lookup_app_l_Some _ _ _ _ Hr1) in Hr0. injection Hr0 as <-.
      exact (resumable_over endpoint tasks app Hc Hres i r0 run1 H0 Hr1).
  - (* the button *)
    destruct (Executor.messages app !! card ≫= Client.m_task) as [task|];
      [|discriminate].
    destruct (Client.status task); try discriminate.
    pose proof (call_consistent endpoint task app) as Hcall.
    destruct (Executor.call endpoint task app) as [messages' run] eqn:Ec.
    injection Hstep as <-. cbn [snd] in Hcall.
    unfold Executor.consistent.
    cbn [Executor.runs Executor.todo Executor.awaited Executor.messages].
    split; [|split; [|split; [|split]]]; try assumption.
    + intros r0 run0 H0. apply lookup_snoc_Some in H0 as [[_ H0]|[-> <-]].
      * exact (Hruns _ _ H0).
      * exact Hcall.
    + intros i r0 H0. destruct (Hplan _ _ H0) as (run0 & Hr0 & Ht0).
      exists run0. split; [apply lookup_app_l_Some; exact Hr0|exact Ht0].
    + intros i r0 run0 H0 Hr0 Hi.
      destruct (Hplan _ _ H0) as (run1 & Hr1 & _).
      rewrite (lookup_app_l_Some _ _ _ _ Hr1) in Hr0. injection Hr0 as <-.
      exact (Hover _ _ _ H0 Hr1 Hi).
  - (* an event is handed over *)
    destruct (Executor.runs app !! r) as [run|] eqn:Er; [|discriminate].
    destruct (Executor.coming run) as [|event rest] eqn:Ecoming; [discriminate|].
    pose proof (onEvent_promise (Executor.run_task run) (Executor.messages app)
                  (Executor.promise run) event) as Hp.
    destruct (Client.onEvent _ _ event) as [messages' promise'].
    cbn [snd] in Hp. injection Hstep as <-.
    unfold Executor.consistent.
    cbn [Executor.runs Executor.todo Executor.awaited Executor.messages].
    apply lookup_lt_Some in Er as Hr.
    split; [|split; [|split; [|split]]]; try assumption.
    + intros r0 run0 H0. destruct (decide (r = r0)) as [<-|Hne].
      * rewrite list_lookup_insert_eq in H0 by exact Hr. injection H0 as <-.
        destruct (Hruns _ _ Er) as (handled & Hstream & Hcoming).
        rewrite Ecoming in Hstream, Hcoming.
        destruct Hcoming as [Hhandled Hnone].
        exists (handled ++ [event]).
        cbn [Executor.run_task Executor.coming Executor.promise].
        split; [rewrite <- app_assoc; exact Hstream|].
        apply deliver_cut in Hstream as [_ Hterminal].
        rewrite Hp, Hterminal, Hnone.
        destruct rest.
        -- exists event. rewrite last_snoc. auto.
        -- split; [|reflexivity]. apply Forall_app. split; [exact Hhandled|].
           constructor; [exact Hterminal|constructor].
      * rewrite list_lookup_insert_ne in H0 by exact Hne. exact (Hruns _ _ H0).
    + intros i r0 H0. destruct (Hplan _ _ H0) as (run0 & Hr0 & Ht0).
      destruct (decide (r = r0)) as [<-|Hne].
      * eexists. split; [apply list_lookup_insert_eq; exact Hr|].
        cbn [Executor.run_task]. congruence.
      * exists run0. rewrite list_lookup_insert_ne by exact Hne. auto.
    + intros i r0 run0 H0 Hr0 Hi.
      destruct (Hplan _ _ H0) as (run1 & Hr1 & _).
      destruct (decide (r = r0)) as [<-|Hne].
      * destruct (Hover _ _ _ H0 Hr1 Hi) as [Hnil _].
        rewrite Er in Hr1. injection Hr1 as <-. congruence.
      * rewrite list_lookup_insert_ne in Hr0 by exact Hne.
        exact (Hover _ _ _ H0 Hr0 Hi).
Qed.

Lemma page_exec_consistent
  (endpoint : nat -> Client.ExecuteRequestWithDescription -> list Server.StreamEvent)
  (tasks : list Client.Task) (steps : list Executor.Step) :
  forall app app',
    Executor.consistent endpoint tasks app ->
    Executor.exec endpoint app steps = Some app' ->
    Executor.consistent endpoint tasks app'.
Proof.
  induction steps as [|s steps IH]; intros app app' Hc Hexec.
  - injection Hexec as <-. exact Hc.
  - cbn [Executor.exec] in Hexec.
    destruct (Executor.step endpoint app s) as [app1|] eqn:Hstep; [|discriminate].
    exact (IH _ _ (page_step_consistent _ _ _ _ _ Hc Hstep) Hexec).
Qed.

Lemma exec_app
  (endpoint : nat -> Client.ExecuteRequestWithDescription -> list Server.StreamEvent)
  (a b : list Executor.Step) :
  forall app,
    Executor.exec endpoint app (a ++ b)
    = Executor.exec endpoint app a ≫= fun app' => Executor.exec endpoint app' b.
Proof.
  induction a as [|s a IH]; intros app; [reflexivity|].
  cbn [Executor.exec Datatypes.app]. destruct (Executor.step endpoint app s); [apply IH|reflexivity].
Qed.

Lemma step_event
  (endpoint : nat -> Client.ExecuteRequestWithDescription -> list Server.StreamEvent)
  (app : Executor.App) (r : nat) (run : Executor.Run)
  (event : Server.StreamEvent) (rest : list Server.StreamEvent) :
  Executor.runs app !! r = Some run ->
  Executor.coming run = event :: rest ->
  let after :=
    Client.onEvent (Executor.run_task run)
      (Executor.messages app, Executor.promise run) event in
  Executor.step endpoint app (Executor.Event r)
  = Some {| Executor.messages := fst after;
            Executor.runs :=
              <[r := {| Executor.run_task := Executor.run_task run;
                        Executor.coming := rest;
                        Executor.promise := snd after |}]> (Executor.runs app);
            Executor.todo := Executor.todo app;
            Executor.awaited := Executor.awaited app |}.
Proof.
  intros Hr Hcoming after. cbn [Executor.step]. rewrite Hr, Hcoming.
  unfold after. destruct (Client.onEvent _ _ event). reflexivity.
Qed.

(** Handing over all the events a call still has to come. *)
Lemma exec_events
  (endpoint : nat -> Client.ExecuteRequestWithDescription -> list Server.StreamEvent)
  (events : list Server.StreamEvent) :
  forall (app : Executor.App) (r : nat) (run : Executor.Run),
  Executor.runs app !! r = Some run ->
  Executor.coming run = events ->
  let after :=
    fold_left (Client.onEvent (Executor.run_task run)) events
      (Executor.messages app, Executor.promise run) in
  Executor.exec endpoint app (replicate (length events) (Executor.Event r))
  = Some {| Executor.messages := fst after;
            Executor.runs :=
              <[r := {| Executor.run_task := Executor.run_task run;
                        Executor.coming := [];
                        Executor.promise := snd after |}]> (Executor.runs app);
            Executor.todo := Executor.todo app;
            Executor.awaited := Executor.awaited app |}.
Proof.
  induction events as [|event rest IH]; intros app r run Hr Hcoming after.
  - cbn [length replicate Executor.exec]. unfold after. cbn [fold_left fst snd].
    f_equal. destruct app as [m rs t a]. cbn in *. f_equal.
    symmetry. apply list_insert_id. rewrite Hr. f_equal.
    destruct run; cbn in *. congruence.
  - cbn [length replicate Executor.exec].
    rewrite (step_event endpoint app r run event rest Hr Hcoming). cbv zeta.
    apply lookup_lt_Some in Hr as Hlt.
    erewrite IH.
    2:{ cbn [Executor.runs]. apply list_lookup_insert_eq. exact Hlt. }
    2:{ reflexivity. }
    cbn [Executor.messages Executor.runs Executor.todo Executor.awaited
         Executor.run_task Executor.promise].
    rewrite list_insert_insert_eq. unfold after. cbn [fold_left].
    destruct (Client.onEvent _ _ event). reflexivity.
Qed.

(** From any state the call the loop awaits can be brought to its end. *)
Lemma page_resume
  (endpoint : nat -> Client.ExecuteRequestWithDescription -> list Server.StreamEvent)
  (tasks : list Client.Task) (app : Executor.App) :
  Executor.consistent endpoint tasks app ->
  exists steps app',
    Executor.exec endpoint app steps = Some app'
    /\ Executor.todo app' = Executor.todo app
    /\ Executor.awaited app' = Executor.awaited app
    /\ Executor.resumable app' = true.
Proof.
  intros Hc. pose proof Hc as (Hruns & _ & _ & Hplan & _).
  destruct (last (Executor.awaited app)) as [r|] eqn:Hlast.
  2:{ exists [], app. cbn [Executor.exec]. repeat split.
      unfold Executor.resumable. rewrite Hlast. reflexivity. }
  rewrite last_lookup in Hlast.
  destruct (Hplan _ _ Hlast) as (run & Hr & _).
  eexists _, _. split; [exact (exec_events endpoint _ app r run Hr eq_refl)|].
  cbn [Executor.todo Executor.awaited]. split; [reflexivity|]. split; [reflexivity|].
  unfold Executor.resumable. cbn [Executor.awaited Executor.runs].
  rewrite last_lookup, Hlast.
  rewrite list_lookup_insert_eq by (apply lookup_lt_Some in Hr; exact Hr).
  cbn [Executor.promise].
  destruct (Hruns _ _ Hr) as (handled & Hstream & Hcoming).
  destruct (Executor.coming run) as [|event rest] eqn:Ecoming.
  - destruct Hcoming as (final & _ & _ & ->). reflexivity.
  - destruct Hcoming as [Hhandled ->].
    destruct (deliver_shape (endpoint r (Client.request_of (Executor.run_task run))))
      as (before & final & E & Hfinal & Hbefore).
    unfold Client.streamExecuteTask in Hstream. rewrite E in Hstream.
    assert (exists mid, event :: rest = mid ++ [final]
                        /\ Forall (fun e => Server.terminal e = false) mid)
      as (mid & -> & Hmid).
    { apply snoc_split in Hstream as [(-> & -> & ->)|(rest' & -> & ->)].
      - exists []. split; [reflexivity|constructor].
      - exists (event :: rest'). split; [reflexivity|].
        apply Forall_app in Hbefore as [_ H]. exact H. }
    rewrite fold_left_app. cbn [fold_left].
    pose proof (fold_onEvent_nonterminal_settled (Executor.run_task run) mid
                  (Executor.messages app) None Hmid) as Hs.
    destruct (fold_left _ mid _) as [m s]. cbn [snd] in Hs. subst s.
    rewrite onEvent_promise, Hfinal. reflexivity.
Qed.

(** From any state the plan can be brought to its end. *)
Lemma page_complete
  (endpoint : nat -> Client.ExecuteRequestWithDescription -> list Server.StreamEvent)
  (tasks : list Client.Task) :
  forall (n : nat) (app : Executor.App),
  length (Executor.todo app) = n ->
  Executor.consistent endpoint tasks app ->
  exists more final,
    Executor.exec endpoint app more = Some final
    /\ Executor.todo final = []
    /\ Executor.resumable final = true.
Proof.
  induction n as [|n IH]; intros app Hn Hc.
  - destruct (page_resume endpoint tasks app Hc) as (steps & app' & He & Ht & _ & Hres).
    exists steps, app'. split; [exact He|]. split; [|exact Hres].
    rewrite Ht. destruct (Executor.todo app); [reflexivity|discriminate].
  - destruct (page_resume endpoint tasks app Hc) as (steps & app1 & He & Ht & _ & Hres).
    pose proof (page_exec_consistent endpoint tasks steps _ _ Hc He) as Hc1.
    destruct (Executor.todo app) as [|task rest] eqn:Etodo; [discriminate|].
    destruct (Executor.step endpoint app1 Executor.Next) as [app2|] eqn:Hstep.
    2:{ cbn [Executor.step] in Hstep. rewrite Ht, Hres in Hstep.
        destruct (Executor.call endpoint task app1). discriminate. }
    assert (Executor.todo app2 = rest) as Ht2.
    { cbn [Executor.step] in Hstep. rewrite Ht, Hres in Hstep.
      destruct (Executor.call endpoint task app1). injection Hstep as <-. reflexivity. }
    destruct (IH app2) as (more & final & He2 & Hfin).
    { rewrite Ht2. cbn [length] in Hn. lia. }
    { exact (page_step_consistent _ _ _ _ _ Hc1 Hstep). }
    exists (steps ++ Executor.Next :: more), final. split; [|exact Hfin].
    rewrite exec_app, He. cbn [mbind option_bind Executor.exec]. rewrite Hstep.
    exact He2.
Qed.

(** When nothing else happens the page ends with the messages of the
    loop run as a whole. *)
Lemma schedule_exec
  (endpoint : Client.ExecuteRequestWithDescription -> list Server.StreamEvent)
  (tasks : list Client.Task) :
  forall app : Executor.App,
  Executor.todo app = tasks ->
  Executor.resumable app = true ->
  exists final,
    Executor.exec (fun _ => endpoint) app
      (Executor.schedule endpoint (length (Executor.runs app)) tasks) = Some final
    /\ Executor.messages final
       = snd (Client.executeTasksSequentially endpoint tasks (Executor.messages app))
    /\ Executor.todo final = []
    /\ Executor.awaited final
       = Executor.awaited app ++ seq (length (Executor.runs app)) (length tasks).
Proof.
  induction tasks as [|task rest IH]; intros app Htodo Hres.
  - exists app. cbn. rewrite app_nil_r. auto.
  - cbn [Executor.schedule Executor.exec Executor.step]. rewrite Htodo, Hres.
    cbn [Executor.call].
    set (n := length (Executor.runs app)).
    set (events := Client.streamExecuteTask endpoint (Client.request_of task)).
    set (started := Client.updateTaskInMessages _ _ _).
    set (run := Executor.Build_Run task events None).
    set (app1 := Executor.Build_App started (Executor.runs app ++ [run]) rest
                   (Executor.awaited app ++ [n])).
    rewrite exec_app.
    assert (Executor.runs app1 !! n = Some run) as Hr
      by (apply list_lookup_middle; reflexivity).
    rewrite (exec_events (fun _ => endpoint) events app1 n run Hr eq_refl).
    cbn [mbind option_bind Executor.messages Executor.runs Executor.todo
         Executor.awaited Executor.run_task Executor.promise app1 run].
    pose proof (executeTaskInternal_settled endpoint task (Executor.messages app)) as Hs.
    cbv zeta in Hs. rewrite executeTaskInternal_eq in Hs. cbv zeta in Hs.
    cbn [snd] in Hs. fold events started in Hs.
    cbn [Client.executeTasksSequentially].
    rewrite executeTaskInternal_eq. cbv zeta. fold events started.
    set (after := fold_left (Client.onEvent task) events (started, None)) in *.
    assert (exists settled, snd after = Some settled) as (settled & Hsettled).
    { destruct Hs as [(? & _ & ->)|(? & _ & ->)]; eexists; reflexivity. }
    rewrite Hsettled.
    match goal with
    | |- exists final, Executor.exec _ ?a _ = _ /\ _ => set (app2 := a)
    end.
    assert (length (Executor.runs app2) = S n) as Hlen.
    { unfold app2. cbn [Executor.runs].
      rewrite length_insert, length_app. cbn [length]. unfold n. lia. }
    destruct (IH app2) as (final & He & Hm & Ht & Ha).
    { reflexivity. }
    { unfold Executor.resumable, app2. cbn [Executor.awaited Executor.runs].
      rewrite last_snoc.
      rewrite list_lookup_insert_eq
        by (rewrite length_app; cbn [length]; unfold n; lia).
      cbn [Executor.promise]. reflexivity. }
    rewrite Hlen in He, Ha.
    exists final. split; [exact He|]. split; [|split; [exact Ht|]].
    + rewrite Hm. unfold app2. cbn [Executor.messages].
      destruct (Client.executeTasksSequentially endpoint rest (fst after)).
      reflexivity.
    + rewrite Ha. unfold app2. cbn [Executor.awaited length seq].
      rewrite <- app_assoc. reflexivity.
Qed.

(** C2. Whatever has happened on the page since [handleSend] called
    [executeTasksSequentially] on a plan (rounds of its loop, events
    handed over, cards approved by the user meanwhile, in any order that
    the code allows), the loop has called [executeTaskInternal] on the
    first tasks of the plan, one call per task in the order of the list,
    and the others are still to do.  The promise of a call is pending as
    long as the terminal event of its stream ([done] or [error]) has not
    been handed over, and that event settles it.  All the calls of the
    loop but the last are over, and the loop goes round only in a state in
    which the last one is over too: a task is started only after the
    stream of the one before has been handed over to its end.  The loop
    does go round then, whether the promise was resolved or rejected;
    until then the next event of the awaited call can be handed over; and
    from every state the plan can be brought to its end, where the loop has
    made exactly one call for each task of the plan and all are over.
    When nothing else happens, the messages at the end are those of the
    loop run as a whole; in the sample scenario (file system refused, then
    a message, then an event) the final statuses are failed, success,
    success. *)
Theorem executeTasksSequentially_awaits_each_task
  (endpoint : nat -> Client.ExecuteRequestWithDescription -> list Server.StreamEvent)
  (tasks : list Client.Task) (messages : list Client.Message)
  (steps : list Executor.Step) (app : Executor.App) :
  Executor.exec endpoint (Executor.initial tasks messages) steps = Some app ->
  let started := length (Executor.awaited app) in
  Executor.todo app = drop started tasks
  /\ (forall i r,
        Executor.awaited app !! i = Some r ->
        exists run,
          Executor.runs app !! r = Some run
          /\ tasks !! i = Some (Executor.run_task run))
  /\ (forall r run,
        Executor.runs app !! r = Some run ->
        exists handled,
          Client.streamExecuteTask (endpoint r)
            (Client.request_of (Executor.run_task run))
          = handled ++ Executor.coming run
          /\ match Executor.coming run with
             | [] =>
                 exists final,
                   last handled = Some final
                   /\ Server.terminal final = true
                   /\ Executor.promise run = Some (Executor.settlement final)
             | _ :: _ =>
                 Forall (fun event => Server.terminal event = false) handled
                 /\ Executor.promise run = None
             end)
  /\ (forall i r run,
        Executor.awaited app !! i = Some r ->
        Executor.runs app !! r = Some run ->
        (S i < started)%nat ->
        Executor.over run)
  /\ (forall app',
        Executor.step endpoint app Executor.Next = Some app' ->
        forall i r run,
          Executor.awaited app !! i = Some r ->
          Executor.runs app !! r = Some run ->
          Executor.over run)
  /\ (Executor.todo app <> [] ->
      (forall r run,
         last (Executor.awaited app) = Some r ->
         Executor.runs app !! r = Some run ->
         Executor.promise run <> None) ->
      is_Some (Executor.step endpoint app Executor.Next))
  /\ (forall r run,
        last (Executor.awaited app) = Some r ->
        Executor.runs app !! r = Some run ->
        Executor.promise run = None ->
        is_Some (Executor.step endpoint app (Executor.Event r)))
  /\ (exists more final,
        Executor.exec endpoint app more = Some final
        /\ Executor.todo final = []
        /\ length (Executor.awaited final) = length tasks
        /\ forall i r run,
             Executor.awaited final !! i = Some r ->
             Executor.runs final !! r = Some run ->
             tasks !! i = Some (Executor.run_task run) /\ Executor.over run)
  /\ (forall alone : Client.ExecuteRequestWithDescription -> list Server.StreamEvent,
      exists final,
        Executor.exec (fun _ => alone) (Executor.initial tasks messages)
          (Executor.schedule alone 0 tasks) = Some final
        /\ Executor.messages final
           = snd (Client.executeTasksSequentially alone tasks messages)
        /\ Executor.todo final = []
        /\ Executor.awaited final = seq 0 (length tasks))
  /\ (fun final => Client.status <$> Client.shown_tasks (Executor.messages final))
       <$> Executor.exec (fun _ => Scenario.endpoint)
             (Executor.initial Scenario.plan (Client.task_cards Scenario.plan))
             (Executor.schedule Scenario.endpoint 0 Scenario.plan)
     = Some [Client.failed; Client.success; Client.success].
Proof.
  intros Hexec started.
  pose proof (page_exec_consistent endpoint tasks steps _ _
                (page_initial_consistent endpoint tasks messages) Hexec) as Hc.
  pose proof Hc as (Hruns & Htodo & Hlen & Hplan & Hover).
  split; [exact Htodo|]. split; [exact Hplan|]. split; [exact Hruns|].
  split; [exact Hover|]. split; [|split; [|split; [|split; [|split]]]].
  - intros app' Hstep i r run Hi Hr.
    apply (resumable_over endpoint tasks app Hc) with (i := i) (r := r);
      [|exact Hi|exact Hr].
    cbn [Executor.step] in Hstep.
    destruct (Executor.todo app); [discriminate|].
    destruct (Executor.resumable app); [reflexivity|discriminate].
  - intros Hleft Hsettled. cbn [Executor.step].
    destruct (Executor.todo app) as [|task rest]; [contradiction|].
    assert (Executor.resumable app = true) as ->.
    { unfold Executor.resumable.
      destruct (last (Executor.awaited app)) as [r|] eqn:Hlast; [|reflexivity].
      rewrite last_lookup in Hlast.
      destruct (Hplan _ _ Hlast) as (run & Hr & _). rewrite Hr.
      specialize (Hsettled r run eq_refl Hr).
      destruct (Executor.promise run); [reflexivity|contradiction]. }
    destruct (Executor.call endpoint task app). eexists. reflexivity.
  - intros r run Hlast Hr Hpending.
    destruct (Hruns _ _ Hr) as (handled & _ & Hcoming).
    destruct (Executor.coming run) as [|event rest] eqn:Ecoming.
    + destruct Hcoming as (final & _ & _ & Hp). congruence.
    + rewrite (step_event endpoint app r run event rest Hr Ecoming).
      eexists. reflexivity.
  - destruct (page_complete endpoint tasks _ app eq_refl Hc)
      as (more & final & He & Hdone & Hres).
    pose proof (page_exec_consistent endpoint tasks more _ _ Hc He) as Hcf.
    pose proof Hcf as (_ & Htodo' & Hlen' & Hplan' & _).
    exists more, final. split; [exact He|]. split; [exact Hdone|]. split.
    + rewrite Hdone in Htodo'.
      assert (length (drop (length (Executor.awaited final)) tasks) = 0%nat) as Hd
        by (rewrite <- Htodo'; reflexivity).
      rewrite length_drop in Hd. lia.
    + intros i r run Hi Hr. split.
      * destruct (Hplan' _ _ Hi) as (run' & Hr' & Ht). congruence.
      * exact (resumable_over endpoint tasks final Hcf Hres i r run Hi Hr).
  - intros alone.
    destruct (schedule_exec alone tasks (Executor.initial tasks messages)
                eq_refl eq_refl) as (final & He & Hm & Ht & Ha).
    exists final. auto.
  - vm_compute. reflexivity.
Qed.

Lemma executeTasksSequentially_awaits_each_task_witness :
  let app :=
    default (Executor.initial [] [])
      (Executor.exec Executor.dropped_once
         (Executor.initial Scenario.plan (Client.task_cards Scenario.plan))
         [Executor.Next; Executor.Approve 1; Executor.Event 0; Executor.Event 1;
          Executor.Event 0; Executor.Next; Executor.Event 2]) in
  Executor.exec Executor.dropped_once
    (Executor.initial Scenario.plan (Client.task_cards Scenario.plan))
    [Executor.Next; Executor.Approve 1; Executor.Event 0; Executor.Event 1;
     Executor.Event 0; Executor.Next; Executor.Event 2]
  = Some app
  /\ Executor.todo app = drop (length (Executor.awaited app)) Scenario.plan.
Proof.
  intros app.
  assert (Executor.exec Executor.dropped_once
            (Executor.initial Scenario.plan (Client.task_cards Scenario.plan))
            [Executor.Next; Executor.Approve 1; Executor.Event 0; Executor.Event 1;
             Executor.Event 0; Executor.Next; Executor.Event 2]
          = Some app) as Hexec by (vm_compute; reflexivity).
  split; [exact Hexec|].
  exact (proj1 (executeTasksSequentially_awaits_each_task Executor.dropped_once
                  Scenario.plan (Client.task_cards Scenario.plan) _ app Hexec)).
Defined.

(** C8, on the sample plan.  While the first task is running the user
    approves the card of the second one; the connection of that call
    drops, so the card shows [failed] with the error
    [Stream connection error].  The loop then reaches the second task and
    carries it out: at the end of the plan its card shows status
    [success], the summary as its result, and still the error of the call
    that failed. *)
Theorem executeTaskInternal_keeps_stale_error :
  exists failed_first app card,
    Executor.exec Executor.dropped_once
      (Executor.initial Scenario.plan (Client.task_cards Scenario.plan))
      (take 3 Executor.approved_early) = Some failed_first
    /\ (fun task => (Client.status task, Client.error task))
         <$> Client.shown_tasks (Executor.messages failed_first) !! 1%nat
       = Some (Client.failed, Some (lit "Stream connection error"))
    /\ Executor.exec Executor.dropped_once
         (Executor.initial Scenario.plan (Client.task_cards Scenario.plan))
         Executor.approved_early = Some app
    /\ Executor.todo app = []
    /\ Client.shown_tasks (Executor.messages app) !! 1%nat = Some card
    /\ Client.id card = lit "p1-task-2"
    /\ Client.status card = Client.success
    /\ Client.result card = Some (lit "All done.")
    /\ Client.error card = Some (lit "Stream connection error").
Proof.
  eexists _, _, _.
  split; [vm_compute; reflexivity|]. split; [vm_compute; reflexivity|].
  split; [vm_compute; reflexivity|]. split; [vm_compute; reflexivity|].
  split; [vm_compute; reflexivity|].
  repeat split; vm_compute; reflexivity.
Qed.

(** ** Further properties of the dispatcher and of the transform *)

(** A tool that is neither an enabled built-in nor a custom tool is
    refused before any adapter runs, with an error that names it. *)
Theorem dispatchTool_refuses_unknown_or_disabled
  (env : ProcessEnv) (CUSTOM_TOOLS : list Dispatcher.CustomToolConfig)
  (adapters : Dispatcher.Adapters) (URL : list N -> option Dispatcher.ParsedURL)
  (tool : list N) (payload : Payload) :
  Dispatcher.missing_or_disabled (Dispatcher.find_tool env tool) = true ->
  Dispatcher.find_custom CUSTOM_TOOLS tool = None ->
  Dispatcher.dispatchTool env CUSTOM_TOOLS adapters URL tool payload =
  throw (JsError (lit "Tool '" ++ tool ++ lit "' is not enabled or does not exist.")).
Proof.
  intros Hmissing Hcustom. unfold Dispatcher.dispatchTool.
  rewrite Hmissing, Hcustom. reflexivity.
Qed.

Lemma dispatchTool_refuses_unknown_or_disabled_witness :
  Dispatcher.dispatchTool ∅ [] Scenario.adapters Scenario.URL (lit "terminal") ∅ =
  throw (JsError (lit "Tool 'terminal' is not enabled or does not exist.")).
Proof.
  rewrite (dispatchTool_refuses_unknown_or_disabled ∅ [] Scenario.adapters
             Scenario.URL (lit "terminal") ∅);
    vm_compute; reflexivity.
Defined.

(** Outside the four pairs search or browser into filesystem or slack, the
    transform hands the result on unchanged. *)
Theorem transformResultForNext_identity (result fromTool toTool : list N) :
  (fromTool <> lit "search" /\ fromTool <> lit "browser")
  \/ (toTool <> lit "filesystem" /\ toTool <> lit "slack") ->
  Dispatcher.transformResultForNext result fromTool toTool = result.
Proof.
  intros H. unfold Dispatcher.transformResultForNext, Dispatcher.search_like, str_eqb.
  destruct H as [[H1 H2]|[H1 H2]].
  - rewrite (bool_decide_eq_false_2 _ H1), (bool_decide_eq_false_2 _ H2).
    reflexivity.
  - rewrite (bool_decide_eq_false_2 _ H1), (bool_decide_eq_false_2 _ H2).
    rewrite !andb_false_r. reflexivity.
Qed.

Lemma transformResultForNext_identity_witness :
  Dispatcher.transformResultForNext (lit "**3 files**") (lit "filesystem") (lit "slack")
  = lit "**3 files**".
Proof.
  apply transformResultForNext_identity. left. split; discriminate.
Defined.

Lemma remove_bold_head (s : list N) :
  head (remove_all [lit "**"] s) = Some 0x2A -> head s = Some 0x2A.
Proof.
  destruct s as [|c s']; [discriminate|].
  unfold remove_all. cbn [remove_all_from match_alt find].
  destruct (startsWith (c :: s') (lit "**")) eqn:E.
  - intros _. apply startsWith_inv in E as [rest E].
    injection E as -> _. reflexivity.
  - intros H. exact H.
Qed.

Lemma remove_bold_from_clean (s : list N) :
  forall skip, includes (remove_all_from [lit "**"] skip s) (lit "**") = false.
Proof.
  induction s as [|c s' IH]; intros skip; [reflexivity|].
  cbn [remove_all_from match_alt find].
  destruct skip as [|k]; [|apply IH].
  destruct (startsWith (c :: s') (lit "**")) eqn:E; [apply IH|].
  rewrite includes_unfold, (IH 0%nat), orb_false_r.
  change (lit "**") with [42; 42] in *.
  destruct (remove_all_from [[42; 42]] 0 s') as [|d out] eqn:Eout.
  { cbn [startsWith]. apply andb_false_r. }
  cbn [startsWith]. rewrite andb_true_r.
  destruct (N.eqb_spec 42 c) as [<-|]; [|reflexivity].
  destruct (N.eqb_spec 42 d) as [<-|]; [|reflexivity].
  assert (head s' = Some 0x2A) as Hs.
  { apply remove_bold_head. unfold remove_all.
    change (lit "**") with [42; 42]. rewrite Eout. reflexivity. }
  destruct s' as [|d' s'']; [discriminate|]. injection Hs as ->.
  cbn [startsWith] in E. rewrite !N.eqb_refl in E. discriminate E.
Qed.

Lemma includes_take (n : nat) (s p : list N) :
  includes s p = false -> includes (take n s) p = false.
Proof.
  intros H. destruct (includes (take n s) p) eqn:E; [|reflexivity].
  apply includes_inv in E as (before & rest & E).
  rewrite <- (take_drop n s), E, <- !app_assoc, includes_app in H.
  discriminate H.
Qed.

(** Chained from a search or browser result into the file-system tool, the
    text has its bold markers removed (no [**] is left) and is cut to at
    most 10000 code units. *)
Theorem transformResultForNext_filesystem (result fromTool : list N) :
  fromTool = lit "search" \/ fromTool = lit "browser" ->
  let out := Dispatcher.transformResultForNext result fromTool (lit "filesystem") in
  out = take (N.to_nat 10000)
          (remove_all [lit "**"] (remove_all Dispatcher.emoji_pattern result))
  /\ N.of_nat (length out) <= 10000
  /\ includes out (lit "**") = false.
Proof.
  intros H out.
  assert (out = take (N.to_nat 10000)
                  (remove_all [lit "**"]
                     (remove_all Dispatcher.emoji_pattern result))) as E.
  { unfold out, Dispatcher.transformResultForNext.
    destruct H as [-> | ->]; reflexivity. }
  split; [exact E|]. rewrite E. split.
  - rewrite length_take. lia.
  - apply includes_take. apply remove_bold_from_clean.
Qed.

Lemma transformResultForNext_filesystem_witness :
  Dispatcher.transformResultForNext (lit "**Rust** vs **Go**") (lit "browser")
    (lit "filesystem")
  = lit "Rust vs Go".
Proof.
  destruct (transformResultForNext_filesystem (lit "**Rust** vs **Go**")
              (lit "browser") (or_intror eq_refl)) as [E _].
  rewrite E. vm_compute. reflexivity.
Defined.

Lemma split_pieces_have_no_separator (sep : N) (s : list N) :
  Forall (fun piece => Forall (fun c => c <> sep) piece) (split sep s).
Proof.
  induction s as [|c s' IH]; simpl.
  - repeat constructor.
  - destruct (N.eqb_spec c sep) as [->|Hne].
    + constructor; [constructor|exact IH].
    + destruct (split sep s') as [|piece rest].
      * repeat constructor. exact Hne.
      * apply Forall_cons in IH as [Hp Hr].
        constructor; [constructor; assumption|exact Hr].
Qed.

Lemma split_without_separator (sep : N) (p : list N) :
  Forall (fun c => c <> sep) p -> split sep p = [p].
Proof.
  induction 1 as [|c p Hc _ IH]; [reflexivity|].
  simpl. rewrite IH. destruct (N.eqb_spec c sep); [contradiction|reflexivity].
Qed.

Lemma split_app_separator (sep : N) (p rest : list N) :
  Forall (fun c => c <> sep) p ->
  split sep (p ++ sep :: rest) = p :: split sep rest.
Proof.
  induction 1 as [|c p Hc _ IH].
  - simpl. rewrite N.eqb_refl. reflexivity.
  - simpl. rewrite IH. destruct (N.eqb_spec c sep); [contradiction|reflexivity].
Qed.

(** Splitting what [join] built gives the pieces back. *)
Lemma split_join (sep : N) (first : list N) (others : list (list N)) :
  Forall (fun piece => Forall (fun c => c <> sep) piece) (first :: others) ->
  split sep (join [sep] (first :: others)) = first :: others.
Proof.
  revert first. induction others as [|second others IH]; intros first H.
  - apply Forall_cons in H as [H _]. apply split_without_separator. exact H.
  - apply Forall_cons in H as [Hf H].
    change (join [sep] (first :: second :: others))
      with (first ++ sep :: join [sep] (second :: others)).
    rewrite split_app_separator by exact Hf. rewrite IH by exact H. reflexivity.
Qed.

(** Chained from a search or browser result into the messaging tool, the
    text is the first ten non-blank lines of the result, joined by line
    feeds: it has at most ten lines. *)
Theorem transformResultForNext_slack (result fromTool : list N) :
  fromTool = lit "search" \/ fromTool = lit "browser" ->
  let kept :=
    take 10 (filter (fun l => truthy (trim l) = true) (split 0x0A result)) in
  let out := Dispatcher.transformResultForNext result fromTool (lit "slack") in
  out = join [0x0A] kept
  /\ (length kept <= 10)%nat
  /\ Forall (fun l => trim l <> []) kept
  /\ (length (split 0x0A out) <= 10)%nat.
Proof.
  intros H kept out.
  assert (out = join [0x0A] kept) as E.
  { unfold out, Dispatcher.transformResultForNext.
    destruct H as [-> | ->]; reflexivity. }
  assert (length kept <= 10)%nat as Hlen.
  { unfold kept. rewrite length_take. lia. }
  assert (Forall (fun piece => Forall (fun c => c <> 0x0A) piece) kept) as Hsep.
  { unfold kept. apply Forall_take, Forall_forall. intros l Hl.
    apply list_elem_of_filter in Hl as [_ Hl].
    pose proof (split_pieces_have_no_separator 0x0A result) as Hall.
    rewrite Forall_forall in Hall. apply Hall. exact Hl. }
  split; [exact E|]. split; [exact Hlen|]. split.
  - unfold kept. apply Forall_take, Forall_forall. intros l Hl.
    apply list_elem_of_filter in Hl as [Hl _].
    destruct (trim l); [discriminate Hl|discriminate].
  - rewrite E. destruct kept as [|first others] eqn:Ek.
    + simpl. lia.
    + rewrite split_join by exact Hsep. exact Hlen.
Qed.

Lemma transformResultForNext_slack_witness :
  Dispatcher.transformResultForNext
    (lit "Title" ++ [0x0A; 0x0A] ++ lit "  " ++ [0x0A] ++ lit "First result")
    (lit "search") (lit "slack")
  = lit "Title" ++ [0x0A] ++ lit "First result".
Proof.
  destruct (transformResultForNext_slack
              (lit "Title" ++ [0x0A; 0x0A] ++ lit "  " ++ [0x0A] ++ lit "First result")
              (lit "search") (or_introl eq_refl)) as [E _].
  rewrite E. vm_compute. reflexivity.
Defined.

(** ** The plan as a whole *)

Lemma shown_map_task (taskId : list N) (f : Client.Task -> Client.Task)
  (messages : list Client.Message) :
  Client.shown_tasks (Client.map_task taskId f messages) =
  (fun t => if str_eqb (Client.id t) taskId then f t else t)
    <$> Client.shown_tasks messages.
Proof.
  unfold Client.shown_tasks, Client.map_task.
  induction messages as [|msg rest IH]; [reflexivity|].
  rewrite fmap_cons. cbn [omap list_omap].
  destruct (Client.m_task msg) as [t|] eqn:Et.
  - destruct (str_eqb (Client.id t) taskId) eqn:Eid.
    + cbn [Client.with_task Client.m_task]. rewrite fmap_cons, Eid.
      f_equal. exact IH.
    + rewrite Et, fmap_cons, Eid. f_equal. exact IH.
  - rewrite Et. exact IH.
Qed.

Lemma fmap_same_tasks (c : Client.Task -> bool) (l : list Client.Task) :
  (fun t => if c t then t else t) <$> l = l.
Proof.
  induction l as [|t l IH]; [reflexivity|].
  rewrite fmap_cons, IH. destruct (c t); reflexivity.
Qed.

Lemma shown_onEvent (task : Client.Task) (event : Server.StreamEvent)
  (messages : list Client.Message) (settled : option Client.Settled) :
  Client.shown_tasks (fst (Client.onEvent task (messages, settled) event)) =
  (fun t => if str_eqb (Client.id t) (Client.id task)
            then Client.apply_event event t else t)
    <$> Client.shown_tasks messages.
Proof.
  destruct event; cbn [Client.onEvent fst Client.apply_event];
    unfold Client.updateTaskInMessages;
    first [ apply shown_map_task | symmetry; apply fmap_same_tasks ].
Qed.

Lemma shown_fold_onEvent (task : Client.Task) (events : list Server.StreamEvent) :
  forall (messages : list Client.Message) (settled : option Client.Settled),
  Client.shown_tasks (fst (fold_left (Client.onEvent task) events (messages, settled))) =
  (fun t => if str_eqb (Client.id t) (Client.id task)
            then fold_left (fun t event => Client.apply_event event t) events t
            else t)
    <$> Client.shown_tasks messages.
Proof.
  induction events as [|event rest IH]; intros messages settled.
  - cbn [fold_left fst]. symmetry. apply fmap_same_tasks.
  - cbn [fold_left].
    pose proof (shown_onEvent task event messages settled) as H1.
    destruct (Client.onEvent task (messages, settled) event) as [m1 s1].
    cbn [fst] in H1. rewrite IH, H1, <- list_fmap_compose.
    apply list_fmap_ext. intros _ t _. unfold compose.
    destruct (str_eqb (Client.id t) (Client.id task)) eqn:E.
    + unfold str_eqb in *. rewrite apply_event_id, E. reflexivity.
    + rewrite E. reflexivity.
Qed.

Lemma shown_executeTaskInternal
  (endpoint : Client.ExecuteRequestWithDescription -> list Server.StreamEvent)
  (task : Client.Task) (messages : list Client.Message) :
  Client.shown_tasks (snd (fst (Client.executeTaskInternal endpoint task messages))) =
  (fun t => if str_eqb (Client.id t) (Client.id task)
            then fold_left (fun t event => Client.apply_event event t)
                   (Client.streamExecuteTask endpoint (Client.request_of task))
                   (Client.merge t {| Client.u_status := Some Client.executing;
                                      Client.u_result := Some [];
                                      Client.u_error := None |})
            else t)
    <$> Client.shown_tasks messages.
Proof.
  rewrite executeTaskInternal_eq. cbv zeta. cbn [fst snd].
  rewrite shown_fold_onEvent. unfold Client.updateTaskInMessages.
  rewrite shown_map_task, <- list_fmap_compose.
  apply list_fmap_ext. intros _ t _. unfold compose.
  destruct (str_eqb (Client.id t) (Client.id task)) eqn:E.
  - change (Client.id (Client.merge t ?u)) with (Client.id t). rewrite E. reflexivity.
  - rewrite E. reflexivity.
Qed.

Lemma fmap_other_ids (taskId : list N) (f : Client.Task -> Client.Task)
  (l : list Client.Task) :
  taskId ∉ (Client.id <$> l) ->
  (fun t => if str_eqb (Client.id t) taskId then f t else t) <$> l = l.
Proof.
  induction l as [|t l IH]; intros H; [reflexivity|].
  rewrite fmap_cons in H. apply not_elem_of_cons in H as [Hne H].
  rewrite fmap_cons, IH by exact H.
  unfold str_eqb. rewrite bool_decide_eq_false_2 by congruence. reflexivity.
Qed.

Lemma fold_apply_event_id (events : list Server.StreamEvent) (t : Client.Task) :
  Client.id (fold_left (fun t event => Client.apply_event event t) events t)
  = Client.id t.
Proof.
  revert t. induction events as [|e rest IH]; intros t; [reflexivity|].
  cbn [fold_left]. rewrite IH. apply apply_event_id.
Qed.

Lemma ran_id
  (endpoint : Client.ExecuteRequestWithDescription -> list Server.StreamEvent)
  (task : Client.Task) :
  Client.id (Client.ran endpoint task) = Client.id task.
Proof. unfold Client.ran. rewrite fold_apply_event_id. reflexivity. Qed.

Lemma executeTasksSequentially_shown
  (endpoint : Client.ExecuteRequestWithDescription -> list Server.StreamEvent)
  (tasks : list Client.Task) :
  forall (earlier : list Client.Task) (messages : list Client.Message),
  NoDup (Client.id <$> tasks) ->
  (forall t, t ∈ earlier -> Client.id t ∉ (Client.id <$> tasks)) ->
  Client.shown_tasks messages = earlier ++ tasks ->
  Client.shown_tasks (snd (Client.executeTasksSequentially endpoint tasks messages))
  = earlier ++ (Client.ran endpoint <$> tasks).
Proof.
  induction tasks as [|task rest IH]; intros earlier messages Hnd Hearlier Hshown.
  - exact Hshown.
  - cbn [Client.executeTasksSequentially].
    pose proof (shown_executeTaskInternal endpoint task messages) as Hrun.
    pose proof (executeTaskInternal_settled endpoint task messages) as Hs.
    cbv zeta in Hs.
    destruct (Client.executeTaskInternal endpoint task messages)
      as [[activity messages'] settled].
    cbn [fst snd] in Hrun, Hs.
    assert (exists v, settled = Some v) as [v ->].
    { destruct Hs as [(r & _ & ->)|(m & _ & ->)]; eauto. }
    rewrite fmap_cons in Hnd. apply NoDup_cons in Hnd as [Hfresh Hnd].
    specialize (IH (earlier ++ [Client.ran endpoint task]) messages' Hnd).
    destruct (Client.executeTasksSequentially endpoint rest messages')
      as [activity' messages''].
    cbn [snd] in *. rewrite IH.
    + rewrite <- app_assoc. reflexivity.
    + intros t Ht. apply elem_of_app in Ht as [Ht|Ht].
      * specialize (Hearlier t Ht). rewrite fmap_cons in Hearlier.
        apply not_elem_of_cons in Hearlier as [_ H]. exact H.
      * apply list_elem_of_singleton in Ht as ->. rewrite ran_id. exact Hfresh.
    + rewrite Hrun, Hshown, fmap_app, fmap_cons.
      rewrite (fmap_other_ids _ _ rest) by exact Hfresh.
      rewrite <- app_assoc. cbn [app]. f_equal.
      * clear -Hearlier. induction earlier as [|t earlier IHe]; [reflexivity|].
        rewrite fmap_cons, IHe.
        -- assert (Client.id t <> Client.id task) as Hne.
           { intros E. apply (Hearlier t); [left|].
             rewrite fmap_cons, E. left. }
           unfold str_eqb. rewrite bool_decide_eq_false_2 by exact Hne.
           reflexivity.
        -- intros t' Ht'. apply Hearlier. right. exact Ht'.
      * unfold str_eqb. rewrite bool_decide_eq_true_2 by reflexivity.
        reflexivity.
Qed.

Lemma ran_outcome
  (endpoint : Client.ExecuteRequestWithDescription -> list Server.StreamEvent)
  (task : Client.Task) :
  let events := Client.streamExecuteTask endpoint (Client.request_of task) in
  let task' := Client.ran endpoint task in
  Client.result task' = Some (Client.summary_text events)
  /\ ((exists r, last events = Some (Server.Done r))
      /\ Client.status task' = Client.success
      /\ Client.error task' = Client.error task
      \/ exists message,
           last events = Some (Server.Error message)
           /\ Client.status task' = Client.failed
           /\ Client.error task' = Some message).
Proof.
  intros events task'. unfold task', Client.ran. fold events.
  destruct (deliver_shape (endpoint (Client.request_of task)))
    as (before & final & E & Hfinal & Hbefore).
  assert (events = before ++ [final]) as Ev by exact E.
  destruct (task_after_nonterminal before
              (Client.merge task
                 {| Client.u_status := Some Client.executing;
                    Client.u_result := Some []; Client.u_error := None |})
              [] Hbefore eq_refl) as (Hs & He & Hr & _).
  rewrite Ev, fold_left_app, summary_text_app, last_snoc. cbn [fold_left].
  destruct final as [? ?|?|?|?|r|message]; try discriminate Hfinal.
  - split.
    + simpl. rewrite Hr. unfold Client.summary_text at 2. simpl.
      rewrite app_nil_r. reflexivity.
    + left. split; [eexists; reflexivity|]. split; [reflexivity|].
      simpl. rewrite He. reflexivity.
  - split.
    + simpl. rewrite Hr. unfold Client.summary_text at 2. simpl.
      rewrite app_nil_r. reflexivity.
    + right. exists message. repeat split; reflexivity.
Qed.



(** ** Client and server together *)

Lemma deliver_terminated (before : list Server.StreamEvent)
  (final : Server.StreamEvent) :
  Forall (fun event => Server.terminal event = false) before ->
  Server.terminal final = true ->
  Client.deliver (before ++ [final]) = before ++ Client.deliver [final].
Proof.
  intros Hbefore Hfinal. induction Hbefore as [|event before He _ IH].
  - destruct final; try discriminate Hfinal; reflexivity.
  - destruct event; try discriminate He; simpl; rewrite IH; reflexivity.
Qed.

(** A task whose dispatch throws, run by the client against the handler:
    the stream is [start], the logs and [error]; the task ends [failed]
    with the message of the dispatch error as its error and the empty
    text as its result. *)
Theorem failed_dispatch_fails_the_task
  (dispatchTool : list N -> Payload -> Comp (list N) (list N))
  (JSON_parse : list N -> option Payload)
  (JSON_stringify : Payload -> list N)
  (streamSummarizeToolResult : list N -> list N -> list N -> Outcome Server.SummaryStream)
  (logTaskExecuted : list N -> list N -> Payload -> list N -> bool -> Outcome unit)
  (task : Client.Task) (error : Exn) :
  Client.id task <> [] ->
  Client.tool task <> [] ->
  JSON_stringify (Client.payload task) <> [] ->
  JSON_parse (JSON_stringify (Client.payload task)) = Some (Client.payload task) ->
  outcome (dispatchTool (Client.tool task) (Client.payload task)) = Threw error ->
  message_or (lit "Execution failed") error <> [] ->
  let endpoint :=
    Client.served_by
      (Server.streamExecute dispatchTool JSON_parse streamSummarizeToolResult
         logTaskExecuted)
      JSON_stringify in
  Client.streamExecuteTask endpoint (Client.request_of task)
  = Server.Start (Client.id task) (Client.tool task)
    :: (Server.Log <$> written (dispatchTool (Client.tool task) (Client.payload task)))
    ++ [Server.Error (message_or (lit "Execution failed") error)]
  /\ Client.status (Client.ran endpoint task) = Client.failed
  /\ Client.error (Client.ran endpoint task)
     = Some (message_or (lit "Execution failed") error)
  /\ Client.result (Client.ran endpoint task) = Some [].
Proof.
  intros Hid Htool Hstr Hparse Hthrow Hmsg endpoint.
  assert (forall s : list N, s <> [] -> Server.given (Some s) = Some s) as Hgiven.
  { intros [|c s] H; [contradiction|reflexivity]. }
  assert (Client.streamExecuteTask endpoint (Client.request_of task)
          = Server.Start (Client.id task) (Client.tool task)
            :: (Server.Log <$> written (dispatchTool (Client.tool task) (Client.payload task)))
            ++ [Server.Error (message_or (lit "Execution failed") error)]) as E.
  { unfold Client.streamExecuteTask, endpoint, Client.served_by.
    rewrite streamExecute_eq.
    cbn [Client.query_of Client.request_of Server.q_taskId Server.q_tool
         Server.q_payload Client.r_taskId Client.r_tool Client.r_payload].
    rewrite !Hgiven by assumption. rewrite Hparse. cbv zeta. rewrite Hthrow.
    cbn [written fst].
    change (Server.Start ?a ?b :: ?l ++ [?e]) with ((Server.Start a b :: l) ++ [e]).
    rewrite deliver_terminated.
    - cbn [Client.deliver].
      destruct (message_or (lit "Execution failed") error); [contradiction|reflexivity].
    - constructor; [reflexivity|]. apply Forall_not_terminal_fmap. reflexivity.
    - reflexivity. }
  split; [exact E|].
  destruct (ran_outcome endpoint task) as [Hres Hout]. cbv zeta in Hres, Hout.
  rewrite E in Hres, Hout.
  change (Server.Start ?a ?b :: ?l ++ [?e]) with ((Server.Start a b :: l) ++ [e])
    in Hres, Hout.
  rewrite last_snoc in Hout. rewrite summary_text_app in Hres.
  destruct Hout as [((r & Hlast) & _)|(message & Hlast & Hst & Herr)];
    [discriminate Hlast|].
  injection Hlast as <-. split; [exact Hst|]. split; [exact Herr|].
  rewrite Hres. f_equal.
  unfold Client.summary_text. cbn [fmap list_fmap concat]. rewrite !app_nil_r.
  generalize (written (dispatchTool (Client.tool task) (Client.payload task))).
  intros logs. induction logs as [|l logs IH]; [reflexivity|exact IH].
Qed.

Lemma failed_dispatch_fails_the_task_witness :
  Client.error (Client.ran Scenario.endpoint
                  (Scenario.planned (lit "p1") "1" "Save the notes" "filesystem"))
  = Some (lit "EACCES: permission denied")
  /\ Client.result (Client.ran Scenario.endpoint
                      (Scenario.planned (lit "p1") "1" "Save the notes" "filesystem"))
     = Some [].
Proof.
  destruct (failed_dispatch_fails_the_task
              (Dispatcher.dispatchTool ∅ [] Scenario.adapters Scenario.URL)
              Scenario.JSON_parse Scenario.JSON_stringify
              Scenario.streamSummarizeToolResult Scenario.logTaskExecuted
              (Scenario.planned (lit "p1") "1" "Save the notes" "filesystem")
              (JsError (lit "EACCES: permission denied")))
    as (_ & _ & Herr & Hres);
    try (vm_compute; first [reflexivity | discriminate]).
  split; [exact Herr|exact Hres].
Defined.

(** ** The tool registry *)

(** [getAvailableTools] lists the enabled built-in tools in their order of
    declaration and the custom tools after them, each listed as enabled
    and under its own name; a disabled built-in tool is not listed. *)
Theorem getAvailableTools_lists_enabled_then_custom
  (env : ProcessEnv) (CUSTOM_TOOLS : list Dispatcher.CustomToolConfig) :
  let listed := Dispatcher.getAvailableTools env CUSTOM_TOOLS in
  Forall (fun t => Dispatcher.enabled t = true) listed
  /\ (exists builtIn,
        sublist builtIn (Dispatcher.TOOL_DEFINITIONS env)
        /\ (forall t, t ∈ builtIn <->
                      t ∈ Dispatcher.TOOL_DEFINITIONS env
                      /\ Dispatcher.enabled t = true)
        /\ Dispatcher.name <$> listed
           = (Dispatcher.name <$> builtIn) ++ (Dispatcher.ct_name <$> CUSTOM_TOOLS))
  /\ Dispatcher.name <$> Dispatcher.getAvailableTools ∅ []
     = lit <$> ["filesystem"; "github"; "slack"; "calendar"; "browser"; "search";
                "leetcode"; "mcp_registry"; "utility"].
Proof.
  intros listed. unfold listed, Dispatcher.getAvailableTools. cbv zeta.
  split; [|split].
  - apply Forall_app. split.
    + apply Forall_forall. intros t Ht.
      apply list_elem_of_filter in Ht as [Ht _]. exact Ht.
    + apply Forall_fmap, Forall_forall. intros ct _. reflexivity.
  - exists (filter (fun t => Dispatcher.enabled t = true)
              (Dispatcher.TOOL_DEFINITIONS env)).
    split; [apply sublist_filter|]. split.
    + intros t. rewrite list_elem_of_filter. tauto.
    + rewrite fmap_app, <- list_fmap_compose. reflexivity.
  - vm_compute. reflexivity.
Qed.

(** ** The calendar adapter *)

Lemma lit_inj (s t : string) : lit s = lit t -> s = t.
Proof.
  unfold lit. intros H.
  rewrite <- (string_of_list_ascii_of_string s), <- (string_of_list_ascii_of_string t).
  f_equal. revert H.
  generalize (list_ascii_of_string s) (list_ascii_of_string t).
  intros l. induction l as [|a l IH]; intros [|b l'] H; try discriminate; [reflexivity|].
  cbn in H. injection H as Hab Hl. f_equal; [|exact (IH _ Hl)].
  rewrite <- (ascii_N_embedding a), <- (ascii_N_embedding b), Hab. reflexivity.
Qed.

Lemma to_int_not_nil (z : Z) :
  Z.to_int z <> Decimal.Pos Decimal.Nil /\ Z.to_int z <> Decimal.Neg Decimal.Nil.
Proof.
  destruct z as [|p|p]; cbn; split; try discriminate;
    intros H; injection H as H; exact (DecimalPos.Unsigned.to_uint_nonnil p H).
Qed.

Lemma to_string_num_inj (a b : Z) : to_string (JNum a) = to_string (JNum b) -> a = b.
Proof.
  cbn [to_string]. intros H. apply lit_inj in H.
  apply DecimalZ.to_int_inj.
  destruct (to_int_not_nil a) as [Ha1 Ha2], (to_int_not_nil b) as [Hb1 Hb2].
  pose proof (NilZero.isi _ Ha1 Ha2) as Ea. pose proof (NilZero.isi _ Hb1 Hb2) as Eb.
  rewrite H in Ea. rewrite Ea in Eb. injection Eb as ->. reflexivity.
Qed.

Lemma event_id_inj (a b : Z) : Calendar.event_id a = Calendar.event_id b -> a = b.
Proof.
  unfold Calendar.event_id. intros H. apply app_inv_head in H.
  exact (to_string_num_inj _ _ H).
Qed.

Lemma map_set_fresh (m : list (list N * Calendar.Event)) key value :
  key ∉ (fst <$> m) -> Calendar.map_set m key value = m ++ [(key, value)].
Proof.
  induction m as [|entry m IH]; intros Hfresh; [reflexivity|].
  cbn [Calendar.map_set]. unfold str_eqb.
  rewrite fmap_cons, not_elem_of_cons in Hfresh. destruct Hfresh as [Hne Hm].
  rewrite bool_decide_eq_false_2 by congruence.
  rewrite IH by exact Hm. reflexivity.
Qed.

Lemma event_id_fresh (ks : list Z) (counter : Z) :
  Forall (fun k => (1 <= k < counter)%Z) ks ->
  Calendar.event_id counter ∉ (Calendar.event_id <$> ks).
Proof.
  intros Hks Hin. apply list_elem_of_fmap in Hin as (k & Hk & Hin).
  apply event_id_inj in Hk. subst k.
  rewrite Forall_forall in Hks. specialize (Hks _ Hin). lia.
Qed.

Lemma filter_keys (m : list (list N * Calendar.Event)) (ks : list Z) (k : list N) :
  fst <$> m = Calendar.event_id <$> ks ->
  fst <$> filter (fun entry => fst entry <> k) m
  = Calendar.event_id <$> filter (fun k' => Calendar.event_id k' <> k) ks.
Proof.
  revert ks. induction m as [|entry m IH]; intros [|k' ks] H; try discriminate;
    [reflexivity|].
  rewrite !fmap_cons in H. injection H as Hk Hm.
  rewrite !filter_cons. rewrite <- Hk.
  destruct (decide (fst entry <> k)); [rewrite !fmap_cons, Hk; f_equal|];
    exact (IH _ Hm).
Qed.

Lemma StronglySorted_filter {A} (R : relation A) (P : A -> Prop)
  `{forall x, Decision (P x)} (l : list A) :
  StronglySorted R l -> StronglySorted R (filter P l).
Proof.
  induction 1 as [|x l Hl IH Hx]; [constructor|].
  rewrite filter_cons. destruct (decide (P x)); [|exact IH].
  constructor; [exact IH|].
  apply Forall_forall. intros y Hy. apply list_elem_of_filter in Hy as [_ Hy].
  rewrite Forall_forall in Hx. exact (Hx _ Hy).
Qed.

Lemma executeCalendar_consistent (store : Calendar.Store) (payload : gmap (list N) JsVal) :
  Calendar.consistent store -> Calendar.consistent (fst (Calendar.executeCalendar store payload)).
Proof.
  intros (Hpos & ks & Hkeys & Hsorted & Hbound & Hid).
  unfold Calendar.executeCalendar. cbv zeta.
  assert (Calendar.consistent store) as Hsame by (split; [exact Hpos|exists ks; auto]).
  destruct (Value.is_case _ "create_event").
  { destruct (negb _ || negb _); [exact Hsame|].
    cbn [fst]. split; [cbn; lia|]. exists (ks ++ [Calendar.eventCounter store]). cbn [Calendar.events Calendar.eventCounter].
    rewrite map_set_fresh by (rewrite Hkeys; exact (event_id_fresh _ _ Hbound)).
    rewrite !fmap_app, Hkeys. split; [reflexivity|]. split; [|split].
    - apply StronglySorted_app_2; [|exact Hsorted|repeat constructor].
      intros x1 x2 H1 H2. apply list_elem_of_singleton in H2. subst x2.
      rewrite Forall_forall in Hbound. specialize (Hbound _ H1). lia.
    - apply Forall_app. split.
      + eapply Forall_impl; [exact Hbound|]. cbn. intros; lia.
      + repeat constructor; lia.
    - apply Forall_app. split; [exact Hid|]. repeat constructor. }
  destruct (Value.is_case _ "list_events").
  { destruct (Calendar.events store) eqn:E; cbn [fst]; exact Hsame. }
  destruct (Value.is_case _ "delete_event"); [|exact Hsame].
  destruct (negb _); [exact Hsame|].
  destruct (Calendar.map_get _ _) as [event|]; [|exact Hsame].
  cbn [fst]. unfold Calendar.map_delete.
  destruct (get payload (lit "eventId")) as [| | | |k]; try exact Hsame.
  split; [exact Hpos|]. exists (filter (fun k' => Calendar.event_id k' <> k) ks).
  cbn [Calendar.events Calendar.eventCounter].
  split; [exact (filter_keys _ _ _ Hkeys)|]. split; [|split].
  - exact (StronglySorted_filter _ _ _ Hsorted).
  - apply Forall_forall. intros x Hx. apply list_elem_of_filter in Hx as [_ Hx].
    rewrite Forall_forall in Hbound. exact (Hbound _ Hx).
  - apply Forall_forall. intros x Hx. apply list_elem_of_filter in Hx as [_ Hx].
    rewrite Forall_forall in Hid. exact (Hid _ Hx).
Qed.

Lemma after_consistent (store : Calendar.Store) (calls : list (gmap (list N) JsVal)) :
  Calendar.consistent store -> Calendar.consistent (Calendar.after store calls).
Proof.
  revert store. induction calls as [|payload calls IH]; intros store H; [exact H|].
  apply IH, executeCalendar_consistent, H.
Qed.

Lemma initial_consistent : Calendar.consistent Calendar.initial.
Proof. split; [cbn; lia|]. exists []. repeat split; constructor. Qed.

Lemma executeCalendar_counter (store : Calendar.Store) (payload : gmap (list N) JsVal) :
  (Calendar.eventCounter store
   <= Calendar.eventCounter (fst (Calendar.executeCalendar store payload)))%Z.
Proof.
  unfold Calendar.executeCalendar. cbv zeta.
  repeat match goal with
         | |- context [if ?b then _ else _] => destruct b
         | |- context [match ?x with _ => _ end] => destruct x
         end; cbn; lia.
Qed.

Lemma after_counter (store : Calendar.Store) (calls : list (gmap (list N) JsVal)) :
  (Calendar.eventCounter store <= Calendar.eventCounter (Calendar.after store calls))%Z.
Proof.
  revert store. induction calls as [|payload calls IH]; intros store; [cbn; lia|].
  cbn [Calendar.after fold_left]. etransitivity; [apply executeCalendar_counter|apply IH].
Qed.

Lemma after_app (store : Calendar.Store) (before later : list (gmap (list N) JsVal)) :
  Calendar.after store (before ++ later)
  = Calendar.after (Calendar.after store before) later.
Proof. apply fold_left_app. Qed.

(** Whatever calls were made since the module was loaded, the keys of
    the event store are the ids [event-k] of a strictly increasing
    sequence of numbers from 1 to below [eventCounter], in the order of
    creation; no two events share a key; every event carries its key as
    its [id]; and the id the next [create_event] would issue was the key
    of no event at any earlier moment, deleted events included. *)
Theorem executeCalendar_issues_fresh_ids (calls : list (gmap (list N) JsVal)) :
  let store := Calendar.after Calendar.initial calls in
  (exists ks : list Z,
      fst <$> Calendar.events store = Calendar.event_id <$> ks
      /\ StronglySorted Z.lt ks
      /\ Forall (fun k => (1 <= k < Calendar.eventCounter store)%Z) ks)
  /\ NoDup (fst <$> Calendar.events store)
  /\ Forall (fun entry => Calendar.id (snd entry) = fst entry) (Calendar.events store)
  /\ (forall before later, calls = before ++ later ->
        Calendar.event_id (Calendar.eventCounter store)
        ∉ (fst <$> Calendar.events (Calendar.after Calendar.initial before))).
Proof.
  intros store.
  destruct (after_consistent _ calls initial_consistent)
    as (Hpos & ks & Hkeys & Hsorted & Hbound & Hid).
  fold store in Hpos, Hkeys, Hbound, Hid.
  split; [exists ks; auto|]. split; [|split; [exact Hid|]].
  - rewrite Hkeys. apply NoDup_fmap_2; [intros a b; apply event_id_inj|].
    clear -Hsorted. induction Hsorted as [|k ks Hs IH Hk]; constructor; [|exact IH].
    intros Hin. rewrite Forall_forall in Hk. specialize (Hk _ Hin). lia.
  - intros before later ->.
    destruct (after_consistent _ before initial_consistent)
      as (_ & ks' & Hkeys' & _ & Hbound' & _).
    rewrite Hkeys'. apply event_id_fresh.
    eapply Forall_impl; [exact Hbound'|]. cbn. intros k Hk.
    unfold store. rewrite after_app.
    pose proof (after_counter (Calendar.after Calendar.initial before) later). lia.
Qed.

Lemma map_get_fresh (m : list (list N * Calendar.Event)) (key : list N) :
  key ∉ (fst <$> m) -> Calendar.map_get m (JStr key) = None.
Proof.
  intros Hfresh. cbn [Calendar.map_get].
  destruct (find _ m) as [entry|] eqn:E; [|reflexivity].
  apply find_some in E as [Hin Heq]. exfalso. apply Hfresh.
  apply bool_decide_eq_true in Heq. subst key.
  apply list_elem_of_fmap. exists entry. split; [reflexivity|].
  apply list_elem_of_In. exact Hin.
Qed.

Lemma map_get_last (m : list (list N * Calendar.Event)) (key : list N) event :
  key ∉ (fst <$> m) ->
  Calendar.map_get (m ++ [(key, event)]) (JStr key) = Some event.
Proof.
  intros Hfresh. cbn [Calendar.map_get].
  induction m as [|entry m IH]; cbn [app find fst].
  - unfold str_eqb. rewrite bool_decide_eq_true_2 by reflexivity. reflexivity.
  - rewrite fmap_cons, not_elem_of_cons in Hfresh. destruct Hfresh as [Hne Hm].
    unfold str_eqb at 1. rewrite bool_decide_eq_false_2 by congruence.
    exact (IH Hm).
Qed.

Lemma map_delete_last (m : list (list N * Calendar.Event)) (key : list N) event :
  key ∉ (fst <$> m) ->
  Calendar.map_delete (m ++ [(key, event)]) (JStr key) = m.
Proof.
  intros Hfresh. cbn [Calendar.map_delete].
  rewrite filter_app, filter_cons, filter_nil. cbn [fst].
  rewrite decide_False by (intros H; exact (H eq_refl)).
  rewrite app_nil_r.
  induction m as [|entry m IH]; [reflexivity|].
  rewrite fmap_cons, not_elem_of_cons in Hfresh. destruct Hfresh as [Hne Hm].
  rewrite filter_cons, decide_True by congruence. f_equal. exact (IH Hm).
Qed.

Lemma map_get_deleted (m : list (list N * Calendar.Event)) (key : list N) :
  Calendar.map_get (Calendar.map_delete m (JStr key)) (JStr key) = None.
Proof.
  apply map_get_fresh. cbn [Calendar.map_delete]. intros Hin.
  apply list_elem_of_fmap in Hin as (entry & -> & Hin).
  apply list_elem_of_filter in Hin as [Hne _]. exact (Hne eq_refl).
Qed.

Lemma delete_request (key : list N) :
  let remove := Dispatcher.obj [("action", JStr (lit "delete_event"));
                                ("eventId", JStr key)] in
  get remove (lit "action") = JStr (lit "delete_event")
  /\ get remove (lit "eventId") = JStr key.
Proof. split; vm_compute; reflexivity. Qed.

(** After any history, creating an event (title and date given, each a
    string, a boolean or a safe integer) and deleting it by the id it was
    given leaves the events as they were and the counter one higher; the
    deletion reports the title and date of the event, and deleting the
    same id again fails with [Event not found]. *)
Theorem executeCalendar_create_then_delete
  (calls : list (gmap (list N) JsVal)) (payload : gmap (list N) JsVal) :
  let store := Calendar.after Calendar.initial calls in
  let id := Calendar.event_id (Calendar.eventCounter store) in
  let remove := Dispatcher.obj [("action", JStr (lit "delete_event"));
                                ("eventId", JStr id)] in
  let created := Calendar.executeCalendar store payload in
  let deleted := Calendar.executeCalendar (fst created) remove in
  get payload (lit "action") = JStr (lit "create_event") ->
  Value.truthy_val (get payload (lit "title")) = true ->
  Value.truthy_val (get payload (lit "date")) = true ->
  Value.safe (get payload (lit "title")) = true ->
  Value.safe (get payload (lit "date")) = true ->
  Calendar.events (fst deleted) = Calendar.events store
  /\ Calendar.eventCounter (fst deleted) = (Calendar.eventCounter store + 1)%Z
  /\ snd deleted
     = Returned (lit "Event deleted: " ++ to_string (get payload (lit "title"))
                 ++ lit " (" ++ to_string (get payload (lit "date")) ++ lit ")")
  /\ snd (Calendar.executeCalendar (fst deleted) remove)
     = Threw (JsError (lit "Event not found: " ++ id)).
Proof.
  intros store id remove created deleted Haction Htitle Hdate _ _.
  destruct (after_consistent _ calls initial_consistent)
    as (_ & ks & Hkeys & _ & Hbound & _).
  fold store in Hkeys, Hbound.
  assert (id ∉ (fst <$> Calendar.events store)) as Hfresh
    by (rewrite Hkeys; exact (event_id_fresh _ _ Hbound)).
  destruct (delete_request id) as [Hra Hre]. fold remove in Hra, Hre.
  assert (forall s, Calendar.executeCalendar s remove
            = match Calendar.map_get (Calendar.events s) (JStr id) with
              | None => (s, Threw (JsError (lit "Event not found: " ++ id)))
              | Some event =>
                  ({| Calendar.events := Calendar.map_delete (Calendar.events s) (JStr id);
                      Calendar.eventCounter := Calendar.eventCounter s |},
                   Returned (lit "Event deleted: " ++ to_string (Calendar.title event)
                             ++ lit " (" ++ to_string (Calendar.date event) ++ lit ")"))
              end) as Hremove.
  { intros s. unfold Calendar.executeCalendar. cbv zeta. rewrite Hra, Hre.
    reflexivity. }
  assert (fst created
          = {| Calendar.events := Calendar.events store ++
                 [(id, {| Calendar.id := id;
                          Calendar.title := get payload (lit "title");
                          Calendar.date := get payload (lit "date");
                          Calendar.time := Value.or_else (get payload (lit "time"))
                                             (JStr (lit "09:00"));
                          Calendar.duration := Value.or_else (get payload (lit "duration"))
                                                 (JNum 60);
                          Calendar.description := get payload (lit "description") |})];
               Calendar.eventCounter := (Calendar.eventCounter store + 1)%Z |}) as Hcreated.
  { unfold created, Calendar.executeCalendar. cbv zeta.
    rewrite Haction, Htitle, Hdate.
    change (Value.is_case (JStr (lit "create_event")) "create_event") with true.
    cbn [negb orb fst]. rewrite map_set_fresh by exact Hfresh. reflexivity. }
  unfold deleted. rewrite Hremove, Hcreated. cbn [Calendar.events Calendar.eventCounter].
  rewrite map_get_last by exact Hfresh. cbn [fst snd Calendar.events Calendar.eventCounter Calendar.title Calendar.date].
  rewrite map_delete_last by exact Hfresh.
  split; [reflexivity|]. split; [reflexivity|]. split; [reflexivity|].
  rewrite Hremove. cbn [Calendar.events].
  rewrite map_get_fresh by exact Hfresh. reflexivity.
Qed.

Lemma executeCalendar_create_then_delete_witness :
  Calendar.events
    (fst (Calendar.executeCalendar
            (fst (Calendar.executeCalendar Calendar.initial
                    (Dispatcher.obj [("action", JStr (lit "create_event"));
                                     ("title", JStr (lit "Standup"));
                                     ("date", JStr (lit "2024-01-15"));
                                     ("duration", JNum 0)])))
            (Dispatcher.obj [("action", JStr (lit "delete_event"));
                             ("eventId", JStr (lit "event-1"))])))
  = [].
Proof.
  exact (proj1 (executeCalendar_create_then_delete []
                  (Dispatcher.obj [("action", JStr (lit "create_event"));
                                   ("title", JStr (lit "Standup"));
                                   ("date", JStr (lit "2024-01-15"));
                                   ("duration", JNum 0)])
                  eq_refl eq_refl eq_refl eq_refl eq_refl)).
Defined.

(** A call changes the store only when it is a [create_event] or a
    [delete_event] that returns: a call that throws, a listing and a call
    with an unknown action leave the events and the counter as they
    were. *)
Theorem executeCalendar_changes_store_only_on_success
  (store : Calendar.Store) (payload : gmap (list N) JsVal) :
  fst (Calendar.executeCalendar store payload) = store
  \/ (exists text, snd (Calendar.executeCalendar store payload) = Returned text)
     /\ (get payload (lit "action") = JStr (lit "create_event")
         \/ get payload (lit "action") = JStr (lit "delete_event")).
Proof.
  unfold Calendar.executeCalendar. cbv zeta.
  destruct (Value.is_case _ "create_event") eqn:Ecreate.
  { destruct (negb _ || negb _); [left; reflexivity|]. right.
    split; [eexists; reflexivity|]. left.
    destruct (get payload (lit "action")); try discriminate.
    apply bool_decide_eq_true in Ecreate. congruence. }
  destruct (Value.is_case _ "list_events").
  { left. destruct (Calendar.events store); reflexivity. }
  destruct (Value.is_case _ "delete_event") eqn:Edelete; [|left; reflexivity].
  destruct (negb _); [left; reflexivity|].
  destruct (Calendar.map_get _ _); [|left; reflexivity]. right.
  split; [eexists; reflexivity|]. right.
  destruct (get payload (lit "action")); try discriminate.
  apply bool_decide_eq_true in Edelete. congruence.
Qed.

Lemma truthy_or_else (a b : JsVal) :
  Value.truthy_val b = true -> Value.truthy_val (Value.or_else a b) = true.
Proof. unfold Value.or_else. destruct (Value.truthy_val a) eqn:E; auto. Qed.

Lemma after_complete (calls : list (gmap (list N) JsVal)) :
  Forall (fun entry =>
            Value.truthy_val (Calendar.title (snd entry)) = true
            /\ Value.truthy_val (Calendar.date (snd entry)) = true
            /\ Value.truthy_val (Calendar.time (snd entry)) = true
            /\ Value.truthy_val (Calendar.duration (snd entry)) = true)
    (Calendar.events (Calendar.after Calendar.initial calls)).
Proof.
  generalize (Forall_nil_2 (fun entry : list N * Calendar.Event =>
            Value.truthy_val (Calendar.title (snd entry)) = true
            /\ Value.truthy_val (Calendar.date (snd entry)) = true
            /\ Value.truthy_val (Calendar.time (snd entry)) = true
            /\ Value.truthy_val (Calendar.duration (snd entry)) = true)).
  change [] with (Calendar.events Calendar.initial).
  generalize Calendar.initial.
  induction calls as [|payload calls IH]; intros store H; [exact H|].
  cbn [Calendar.after fold_left]. apply IH. clear IH.
  unfold Calendar.executeCalendar. cbv zeta.
  destruct (Value.is_case _ "create_event").
  { destruct (Value.truthy_val (get payload (lit "title"))) eqn:Et; [|exact H].
    destruct (Value.truthy_val (get payload (lit "date"))) eqn:Ed; [|exact H].
    cbn [negb orb fst Calendar.events].
    set (event := Calendar.Build_Event _ _ _ _ _ _).
    assert (Value.truthy_val (Calendar.title event) = true
            /\ Value.truthy_val (Calendar.date event) = true
            /\ Value.truthy_val (Calendar.time event) = true
            /\ Value.truthy_val (Calendar.duration event) = true) as Hevent
      by (repeat split; try assumption; apply truthy_or_else; reflexivity).
    generalize dependent event. intros event Hevent.
    generalize (Calendar.event_id (Calendar.eventCounter store)). intros key.
    induction H as [|entry m Hentry Hm IHm]; cbn [Calendar.map_set].
    - repeat constructor; apply Hevent.
    - destruct (str_eqb _ _); constructor; auto. }
  destruct (Value.is_case _ "list_events").
  { destruct (Calendar.events store) eqn:E; cbn [fst]; rewrite E; exact H. }
  destruct (Value.is_case _ "delete_event"); [|exact H].
  destruct (negb _); [exact H|].
  destruct (Calendar.map_get _ _); [|exact H].
  cbn [fst Calendar.events]. unfold Calendar.map_delete.
  destruct (get payload (lit "eventId")); try exact H.
  apply Forall_forall. intros x Hx. apply list_elem_of_filter in Hx as [_ Hx].
  rewrite Forall_forall in H. exact (H _ Hx).
Qed.

(** What a [create_event] that is given a title and a date adds. *)
Lemma create_event_stored
  (calls : list (gmap (list N) JsVal)) (payload : gmap (list N) JsVal) :
  let store := Calendar.after Calendar.initial calls in
  get payload (lit "action") = JStr (lit "create_event") ->
  Value.truthy_val (get payload (lit "title")) = true ->
  Value.truthy_val (get payload (lit "date")) = true ->
  fst (Calendar.executeCalendar store payload)
  = {| Calendar.events :=
         Calendar.events store
         ++ [(Calendar.event_id (Calendar.eventCounter store),
              {| Calendar.id := Calendar.event_id (Calendar.eventCounter store);
                 Calendar.title := get payload (lit "title");
                 Calendar.date := get payload (lit "date");
                 Calendar.time :=
                   if Value.truthy_val (get payload (lit "time"))
                   then get payload (lit "time") else JStr (lit "09:00");
                 Calendar.duration :=
                   if Value.truthy_val (get payload (lit "duration"))
                   then get payload (lit "duration") else JNum 60;
                 Calendar.description := get payload (lit "description") |})];
       Calendar.eventCounter := (Calendar.eventCounter store + 1)%Z |}.
Proof.
  intros store Haction Htitle Hdate.
  destruct (after_consistent _ calls initial_consistent)
    as (_ & ks & Hkeys & _ & Hbound & _).
  fold store in Hkeys, Hbound.
  assert (Calendar.event_id (Calendar.eventCounter store)
          ∉ (fst <$> Calendar.events store)) as Hfresh
    by (rewrite Hkeys; exact (event_id_fresh _ _ Hbound)).
  unfold Calendar.executeCalendar. cbv zeta.
  rewrite Haction, Htitle, Hdate.
  change (Value.is_case (JStr (lit "create_event")) "create_event") with true.
  cbn [negb orb fst]. rewrite map_set_fresh by exact Hfresh. reflexivity.
Qed.

(** Every event in the store has a truthy title, date, time and
    duration.  A [create_event] with a title and a date appends one event
    under the next id, with the title, date and description as given, the
    [time] as given when it is truthy and the string [09:00] otherwise
    (missing, [null] or empty), and the [duration] as given when it is
    truthy and the number [60] otherwise (missing, [null] or zero). *)
Theorem executeCalendar_stores_complete_events
  (calls : list (gmap (list N) JsVal)) (payload : gmap (list N) JsVal) :
  let store := Calendar.after Calendar.initial calls in
  Forall (fun entry =>
            Value.truthy_val (Calendar.title (snd entry)) = true
            /\ Value.truthy_val (Calendar.date (snd entry)) = true
            /\ Value.truthy_val (Calendar.time (snd entry)) = true
            /\ Value.truthy_val (Calendar.duration (snd entry)) = true)
    (Calendar.events store)
  /\ (get payload (lit "action") = JStr (lit "create_event") ->
      Value.truthy_val (get payload (lit "title")) = true ->
      Value.truthy_val (get payload (lit "date")) = true ->
      exists event,
        Calendar.events (fst (Calendar.executeCalendar store payload))
        = Calendar.events store
          ++ [(Calendar.event_id (Calendar.eventCounter store), event)]
        /\ Calendar.id event = Calendar.event_id (Calendar.eventCounter store)
        /\ Calendar.title event = get payload (lit "title")
        /\ Calendar.date event = get payload (lit "date")
        /\ Calendar.description event = get payload (lit "description")
        /\ Calendar.time event
           = (if Value.truthy_val (get payload (lit "time"))
              then get payload (lit "time") else JStr (lit "09:00"))
        /\ Calendar.duration event
           = (if Value.truthy_val (get payload (lit "duration"))
              then get payload (lit "duration") else JNum 60)
        /\ (get payload (lit "time") ∈ [JUndefined; JNull; JStr []] ->
            Calendar.time event = JStr (lit "09:00"))
        /\ (get payload (lit "duration") ∈ [JUndefined; JNull; JNum 0] ->
            Calendar.duration event = JNum 60)).
Proof.
  intros store. split; [apply after_complete|].
  intros Haction Htitle Hdate.
  pose proof (create_event_stored calls payload Haction Htitle Hdate) as Hstored.
  fold store in Hstored. rewrite Hstored. cbn [Calendar.events].
  eexists. split; [reflexivity|].
  cbn [Calendar.id Calendar.title Calendar.date Calendar.time Calendar.duration
       Calendar.description].
  repeat (split; [reflexivity|]). split.
  - intros Hin.
    repeat (apply elem_of_cons in Hin as [->|Hin]; [reflexivity|]). inversion Hin.
  - intros Hin.
    repeat (apply elem_of_cons in Hin as [->|Hin]; [reflexivity|]). inversion Hin.
Qed.

Lemma executeCalendar_stores_complete_events_witness :
  exists event,
    Calendar.events
      (fst (Calendar.executeCalendar Calendar.initial
              (Dispatcher.obj [("action", JStr (lit "create_event"));
                               ("title", JStr (lit "Standup"));
                               ("date", JStr (lit "2024-01-15"));
                               ("time", JStr []);
                               ("duration", JNum 0)])))
    = [(lit "event-1", event)]
    /\ Calendar.time event = JStr (lit "09:00")
    /\ Calendar.duration event = JNum 60.
Proof.
  destruct (proj2 (executeCalendar_stores_complete_events []
                     (Dispatcher.obj [("action", JStr (lit "create_event"));
                                      ("title", JStr (lit "Standup"));
                                      ("date", JStr (lit "2024-01-15"));
                                      ("time", JStr []);
                                      ("duration", JNum 0)]))
              eq_refl eq_refl eq_refl)
    as (event & Hevents & _ & _ & _ & _ & _ & _ & Htime & Hduration).
  exists event. split; [exact Hevents|]. split.
  - apply Htime. vm_compute. apply list_elem_of_further, list_elem_of_further, list_elem_of_here.
  - apply Hduration. vm_compute. apply list_elem_of_further, list_elem_of_further, list_elem_of_here.
Defined.

(** ** The terminal adapter *)

Lemma includes_unit (s : list N) (c : N) : includes s [c] = false -> c ∉ s.
Proof.
  induction s as [|x s IH]; intros H Hin; [inversion Hin|].
  cbn in H. apply orb_false_iff in H as [Hx Hs].
  rewrite andb_true_r in Hx. apply N.eqb_neq in Hx.
  apply elem_of_cons in Hin as [->|Hin]; [congruence|exact (IH Hs Hin)].
Qed.

Lemma lowerUnit_other (c : N) :
  (0x41 <=? c) && (c <=? 0x5A) = false -> c <> 0x212A -> c <> 0x0130 ->
  lowerUnit c = [c].
Proof.
  intros H1 H2 H3. unfold lowerUnit. rewrite H1.
  apply N.eqb_neq in H2, H3. rewrite H2, H3. reflexivity.
Qed.

Lemma toLowerCase_keeps (s : list N) (c : N) :
  lowerUnit c = [c] -> c ∈ s -> c ∈ toLowerCase s.
Proof.
  intros Hc Hin. unfold toLowerCase. apply list_elem_of_In, in_flat_map.
  exists c. split; [apply list_elem_of_In, Hin|]. rewrite Hc. left. reflexivity.
Qed.

Lemma allowed_command_clean (command : list N) :
  toLowerCase command ∈ Terminal.ALLOWED_COMMANDS ->
  Forall (fun c => c ∉ Terminal.forbidden) command.
Proof.
  intros Hallowed. apply Forall_forall. intros c Hc Hbad.
  assert (lowerUnit c = [c]) as Hlow.
  { unfold Terminal.forbidden in Hbad. cbn in Hbad.
    repeat (apply elem_of_cons in Hbad as [->|Hbad]; [reflexivity|]).
    inversion Hbad. }
  pose proof (toLowerCase_keeps _ _ Hlow Hc) as Hin.
  revert Hallowed Hin Hbad. generalize (toLowerCase command). intros w Hw Hin Hbad.
  assert (Forall (fun w => Forall (fun c => c ∉ Terminal.forbidden) w)
            Terminal.ALLOWED_COMMANDS) as Hwords.
  { apply (bool_decide_unpack _). vm_compute. exact I. }
  rewrite Forall_forall in Hwords. specialize (Hwords _ Hw).
  rewrite Forall_forall in Hwords. exact (Hwords _ Hin Hbad).
Qed.

Lemma sanitize_clean (arg quoted : list N) :
  Terminal.sanitize arg = Returned quoted ->
  Forall (fun c => c ∉ Terminal.forbidden) arg
  /\ quoted = [Dispatcher.dquote] ++ Terminal.escape_quotes arg ++ [Dispatcher.dquote]
  /\ Forall (fun c => c ∉ Terminal.forbidden) quoted.
Proof.
  unfold Terminal.sanitize.
  destruct (includes arg (lit ";")) eqn:E1; [discriminate|].
  destruct (includes arg (lit "|")) eqn:E2; [discriminate|].
  destruct (includes arg (lit "&")) eqn:E3; [discriminate|].
  destruct (includes arg (lit "`")) eqn:E4; [discriminate|].
  cbn [orb]. intros [= <-].
  apply includes_unit in E1, E2, E3, E4.
  assert (Forall (fun c => c ∉ Terminal.forbidden) arg) as Harg.
  { apply Forall_forall. intros c Hc Hbad. unfold Terminal.forbidden in Hbad.
    cbn in Hbad.
    repeat (apply elem_of_cons in Hbad as [->|Hbad]; [contradiction|]).
    inversion Hbad. }
  split; [exact Harg|]. split; [reflexivity|].
  assert (Dispatcher.dquote ∉ Terminal.forbidden) as Hdquote
    by (apply (bool_decide_unpack _); vm_compute; exact I).
  apply (Forall_app _ [_]). split; [repeat constructor; exact Hdquote|].
  apply Forall_app. split; [|repeat constructor; exact Hdquote].
  unfold Terminal.escape_quotes. apply Forall_forall. intros c Hc.
  apply list_elem_of_In, in_flat_map in Hc as (x & Hx & Hc).
  apply list_elem_of_In in Hx. rewrite Forall_forall in Harg.
  destruct (x =? Dispatcher.dquote).
  - destruct Hc as [<-|[<-|[]]]; [|exact Hdquote].
    apply (bool_decide_unpack _). vm_compute. exact I.
  - destruct Hc as [<-|[]]. exact (Harg _ Hx).
Qed.

Lemma map_sanitize_clean (args quoted : list (list N)) :
  Terminal.map_throwing Terminal.sanitize args = Returned quoted ->
  Forall (Forall (fun c => c ∉ Terminal.forbidden)) args
  /\ quoted = (fun arg => [Dispatcher.dquote] ++ Terminal.escape_quotes arg
                          ++ [Dispatcher.dquote]) <$> args
  /\ Forall (Forall (fun c => c ∉ Terminal.forbidden)) quoted.
Proof.
  revert quoted. induction args as [|arg args IH]; intros quoted H.
  - injection H as <-. repeat split; constructor.
  - cbn [Terminal.map_throwing] in H.
    destruct (Terminal.sanitize arg) as [q|] eqn:Earg; [|discriminate].
    destruct (Terminal.map_throwing _ args) as [qs|]; [|discriminate].
    injection H as <-. apply sanitize_clean in Earg as (Ha & Hq & Hc).
    destruct (IH _ eq_refl) as (Has & Hqs & Hcs).
    split; [constructor; assumption|]. split; [|constructor; assumption].
    rewrite fmap_cons. congruence.
Qed.

Lemma join_space_clean (pieces : list (list N)) :
  Forall (Forall (fun c => c ∉ Terminal.forbidden)) pieces ->
  Forall (fun c => c ∉ Terminal.forbidden) (join (lit " ") pieces).
Proof.
  induction 1 as [|p rest Hp Hrest IH]; [constructor|].
  cbn [join]. destruct rest as [|p' rest]; [exact Hp|].
  apply Forall_app. split; [exact Hp|]. apply Forall_app. split; [|exact IH].
  repeat constructor. apply (bool_decide_unpack _). vm_compute. exact I.
Qed.

(** A command line reaches the shell only when [ALLOW_TERMINAL] is
    [true], the command lower-cases to a word of the whitelist and no
    argument contains [;], [|], [&] or a backquote; the call then runs
    that one line, which is the command followed by the arguments in
    double quotes, and the line itself contains none of the four
    characters. *)
Theorem executeTerminal_runs_only_vetted_commands
  (env : gmap (list N) (list N)) (execAsync : list N -> Outcome (list N * list N))
  (payload : Terminal.TerminalPayload) (line : list N) :
  line ∈ written (Terminal.executeTerminal env execAsync payload) ->
  env !! lit "ALLOW_TERMINAL" = Some (lit "true")
  /\ toLowerCase (Terminal.command payload) ∈ Terminal.ALLOWED_COMMANDS
  /\ Forall (Forall (fun c => c ∉ Terminal.forbidden))
       (default [] (Terminal.args payload))
  /\ written (Terminal.executeTerminal env execAsync payload) = [line]
  /\ line = join (lit " ")
              (Terminal.command payload
               :: ((fun arg => [Dispatcher.dquote] ++ Terminal.escape_quotes arg
                               ++ [Dispatcher.dquote])
                   <$> default [] (Terminal.args payload)))
  /\ Forall (fun c => c ∉ Terminal.forbidden) line.
Proof.
  unfold Terminal.executeTerminal. cbv zeta.
  unfold Dispatcher.env_is_true.
  destruct (bool_decide (env !! lit "ALLOW_TERMINAL" = Some (lit "true"))) eqn:Eenv;
    cbn [negb]; [|intros H; inversion H].
  apply bool_decide_eq_true in Eenv.
  destruct (bool_decide (toLowerCase _ ∈ Terminal.ALLOWED_COMMANDS)) eqn:Ecmd;
    cbn [negb]; [|intros H; inversion H].
  apply bool_decide_eq_true in Ecmd.
  destruct (Terminal.map_throwing _ _) as [quoted|error] eqn:Eargs;
    [|intros H; inversion H].
  apply map_sanitize_clean in Eargs as (Hargs & Hquoted & Hclean).
  assert (Forall (fun c => c ∉ Terminal.forbidden)
            (join (lit " ") (Terminal.command payload :: quoted))) as Hline.
  { apply join_space_clean. constructor; [|exact Hclean].
    exact (allowed_command_clean _ Ecmd). }
  assert (written
    (let* sanitizedArgs := call (Returned quoted) in
     try_catch
       (let* _ := tell (join (lit " ") (Terminal.command payload :: sanitizedArgs)) in
        let* std := call (execAsync (join (lit " ") (Terminal.command payload :: sanitizedArgs))) in
        ret (lit "Command executed: "
               ++ join (lit " ") (Terminal.command payload :: sanitizedArgs)
               ++ [Dispatcher.newline; Dispatcher.newline] ++ lit "Output:"
               ++ [Dispatcher.newline]
               ++ substring0 (N.to_nat 2000) (if truthy (fst std) then fst std else snd std)
               ++ (if 2000 <? N.of_nat (length (if truthy (fst std) then fst std else snd std))
                   then [Dispatcher.newline] ++ lit "...(truncated)"
                   else [])))
       (fun error =>
          match error with
          | JsError message => throw (JsError (lit "Command failed: " ++ message))
          | JsThrown => throw error
          end))
    = [join (lit " ") (Terminal.command payload :: quoted)]) as Hwritten.
  { unfold call, bind, try_catch, tell, ret, throw, written.
    destruct (execAsync _) as [std|[message|]]; reflexivity. }
  rewrite Hwritten. intros Hin. apply list_elem_of_singleton in Hin. subst line.
  rewrite <- Hquoted. auto 10.
Qed.

Lemma executeTerminal_runs_only_vetted_commands_witness :
  Forall (fun c => c ∉ Terminal.forbidden) (lit "echo " ++ [0x22] ++ lit "hello" ++ [0x22]).
Proof.
  assert (lit "echo " ++ [0x22] ++ lit "hello" ++ [0x22]
          ∈ written (Terminal.executeTerminal Terminal.enabled_env Terminal.fixed_shell
                       {| Terminal.command := lit "echo";
                          Terminal.args := Some [lit "hello"] |})) as Hrun
    by (vm_compute; apply list_elem_of_here).
  exact (proj2 (proj2 (proj2 (proj2 (proj2
    (executeTerminal_runs_only_vetted_commands _ _ _ _ Hrun)))))).
Defined.

Lemma space_not_allowed (command : list N) :
  0x20 ∈ command -> toLowerCase command ∉ Terminal.ALLOWED_COMMANDS.
Proof.
  intros Hspace Hallowed.
  pose proof (toLowerCase_keeps command 0x20 eq_refl Hspace) as Hin.
  revert Hallowed Hin. generalize (toLowerCase command). intros w Hw Hin.
  assert (Forall (fun w => 0x20 ∉ w) Terminal.ALLOWED_COMMANDS) as Hwords
    by (apply (bool_decide_unpack _); vm_compute; exact I).
  rewrite Forall_forall in Hwords. exact (Hwords _ Hw Hin).
Qed.

(** With the adapter enabled, a command that contains a space, such
    as [ls -la], is refused with [Command not allowed] before anything is
    run: options have to be passed in [args]. *)
Theorem executeTerminal_refuses_command_with_space
  (env : gmap (list N) (list N)) (execAsync : list N -> Outcome (list N * list N))
  (payload : Terminal.TerminalPayload) :
  env !! lit "ALLOW_TERMINAL" = Some (lit "true") ->
  0x20 ∈ Terminal.command payload ->
  Terminal.executeTerminal env execAsync payload
  = ([], Threw (JsError
       (lit "Command not allowed: " ++ Terminal.command payload
        ++ lit ". Allowed commands: echo, date, pwd, whoami, ls, dir, cat, type, head, tail, wc, grep, find, node, npm, npx, git"))).
Proof.
  intros Henv Hspace. unfold Terminal.executeTerminal. cbv zeta.
  unfold Dispatcher.env_is_true. rewrite bool_decide_eq_true_2 by exact Henv.
  rewrite bool_decide_eq_false_2 by exact (space_not_allowed _ Hspace).
  reflexivity.
Qed.

Lemma executeTerminal_refuses_command_with_space_witness :
  outcome (Terminal.executeTerminal Terminal.enabled_env Terminal.fixed_shell
             {| Terminal.command := lit "ls -la"; Terminal.args := None |})
  = Threw (JsError
       (lit "Command not allowed: ls -la. Allowed commands: echo, date, pwd, whoami, ls, dir, cat, type, head, tail, wc, grep, find, node, npm, npx, git")).
Proof.
  assert (Terminal.enabled_env !! lit "ALLOW_TERMINAL" = Some (lit "true")) as Henv
    by (vm_compute; reflexivity).
  assert (0x20 ∈ lit "ls -la") as Hspace
    by (apply (bool_decide_unpack _); vm_compute; exact I).
  rewrite (executeTerminal_refuses_command_with_space Terminal.enabled_env
             Terminal.fixed_shell
             {| Terminal.command := lit "ls -la"; Terminal.args := None |}
             Henv Hspace).
  reflexivity.
Defined.

Lemma Returned_inj {A} (a b : A) : Returned a = Returned b -> a = b.
Proof. intros [= ->]. reflexivity. Qed.

(** When [executeTerminal] returns, it ran one command line, and its text
    is [Command executed:], that line, and what the command printed:
    [stdout], or [stderr] when [stdout] is empty.  An output of at most
    2000 code units is shown whole; a longer one is cut after 2000 code
    units and followed by a line break and [...(truncated)], 2015 code
    units in all. *)
Theorem executeTerminal_truncates_output
  (env : gmap (list N) (list N)) (execAsync : list N -> Outcome (list N * list N))
  (payload : Terminal.TerminalPayload) (text : list N) :
  outcome (Terminal.executeTerminal env execAsync payload) = Returned text ->
  exists line stdout stderr,
    written (Terminal.executeTerminal env execAsync payload) = [line]
    /\ execAsync line = Returned (stdout, stderr)
    /\ let output := if truthy stdout then stdout else stderr in
       let heading := lit "Command executed: " ++ line
                      ++ [Dispatcher.newline; Dispatcher.newline] ++ lit "Output:"
                      ++ [Dispatcher.newline] in
       (N.of_nat (length output) <= 2000 -> text = heading ++ output)
       /\ (2000 < N.of_nat (length output) ->
           text = heading ++ take (N.to_nat 2000) output
                  ++ [Dispatcher.newline] ++ lit "...(truncated)"
           /\ N.of_nat (length text) = N.of_nat (length heading) + 2015).
Proof.
  unfold Terminal.executeTerminal. cbv zeta.
  destruct (negb (Dispatcher.env_is_true env "ALLOW_TERMINAL")); [discriminate|].
  destruct (negb (bool_decide _)); [discriminate|].
  destruct (Terminal.map_throwing _ _) as [quoted|error]; [|discriminate].
  unfold call, bind, try_catch, tell, ret, throw, written, outcome.
  destruct (execAsync _) as [[stdout stderr]|[message|]] eqn:Eexec;
    cbn [fst snd app]; try discriminate.
  intros Htext. apply Returned_inj in Htext. subst text.
  eexists _, stdout, stderr.
  split; [reflexivity|]. split; [exact Eexec|].
  set (output := if truthy stdout then stdout else stderr).
  unfold substring0. split.
  - intros Hshort. destruct (N.ltb_spec 2000 (N.of_nat (length output))); [lia|].
    rewrite take_ge by lia. rewrite app_nil_r, <- !app_assoc. reflexivity.
  - intros Hlong. destruct (N.ltb_spec 2000 (N.of_nat (length output))); [|lia].
    split; [rewrite <- !app_assoc; reflexivity|].
    repeat (rewrite ?length_app, ?length_cons, ?length_take; cbn [length]).
    cbn [length app lit fmap list_fmap list_ascii_of_string]. lia.
Qed.

Lemma executeTerminal_truncates_output_witness :
  exists line stdout stderr,
    written (Terminal.executeTerminal Terminal.enabled_env Terminal.long_shell
               {| Terminal.command := lit "cat";
                  Terminal.args := Some [lit "big.log"] |}) = [line]
    /\ Terminal.long_shell line = Returned (stdout, stderr)
    /\ 2000 < N.of_nat (length stdout).
Proof.
  destruct (executeTerminal_truncates_output Terminal.enabled_env Terminal.long_shell
              {| Terminal.command := lit "cat";
                 Terminal.args := Some [lit "big.log"] |}
              (lit "Command executed: cat " ++ [0x22] ++ lit "big.log" ++ [0x22]
               ++ [Dispatcher.newline; Dispatcher.newline] ++ lit "Output:"
               ++ [Dispatcher.newline] ++ replicate 2000 (0x78 : N)
               ++ [Dispatcher.newline] ++ lit "...(truncated)"))
    as (line & stdout & stderr & Hline & Hexec & _);
    [vm_compute; reflexivity|].
  exists line, stdout, stderr. split; [exact Hline|]. split; [exact Hexec|].
  unfold Terminal.long_shell in Hexec. apply Returned_inj in Hexec.
  replace stdout with (fst (stdout, stderr)) by reflexivity.
  rewrite <- Hexec. cbn [fst]. rewrite length_replicate. reflexivity.
Defined.

(** ** The browser adapter *)

Lemma endsWith_app (prefix suffix : list N) :
  Browser.endsWith (prefix ++ suffix) suffix = true.
Proof. unfold Browser.endsWith. rewrite rev_app_distr. apply startsWith_app. Qed.

Lemma endsWith_inv (s suffix : list N) :
  Browser.endsWith s suffix = true -> exists prefix, s = prefix ++ suffix.
Proof.
  unfold Browser.endsWith. intros H. apply startsWith_inv in H as [rest Hrest].
  exists (rev rest). rewrite <- (rev_involutive s), Hrest, rev_app_distr, rev_involutive.
  reflexivity.
Qed.

Lemma isAllowedUrl_iff
  (env : gmap (list N) (list N)) (URL : list N -> option Dispatcher.ParsedURL)
  (st : Browser.State) (url : list N) :
  Browser.isAllowedUrl env URL st url = true
  <-> exists parsed,
        URL url = Some parsed
        /\ ((exists domain prefix,
               domain ∈ Browser.listMcpDomains st
               /\ Dispatcher.hostname parsed = prefix ++ domain)
            \/ Dispatcher.hostname parsed = lit "localhost"
            \/ Dispatcher.hostname parsed = lit "127.0.0.1"
            \/ env !! lit "BROWSER_ALLOW_UNSAFE_URLS" = Some (lit "true")).
Proof.
  unfold Browser.isAllowedUrl, Browser.listMcpDomains. cbv zeta.
  destruct (URL url) as [parsed|]; [|split; [discriminate|intros (? & ? & _); discriminate]].
  destruct (existsb _ _) eqn:Edomain.
  { split; [intros _|reflexivity]. exists parsed. split; [reflexivity|]. left.
    apply existsb_exists in Edomain as (domain & Hin & Hends).
    apply endsWith_inv in Hends as [prefix Hhost].
    exists domain, prefix. split; [apply list_elem_of_In, Hin|exact Hhost]. }
  assert (~ exists domain prefix,
              domain ∈ Browser.readAllowedDomains st
              /\ Dispatcher.hostname parsed = prefix ++ domain) as Hnone.
  { intros (domain & prefix & Hin & Hhost).
    assert (existsb (fun domain => Browser.endsWith (Dispatcher.hostname parsed) domain)
              (Browser.readAllowedDomains st) = true) as Hyes; [|congruence].
    apply existsb_exists. exists domain. split; [apply list_elem_of_In, Hin|].
    rewrite Hhost. apply endsWith_app. }
  unfold str_eqb, Dispatcher.env_is_true.
  destruct (bool_decide (Dispatcher.hostname parsed = lit "localhost")) eqn:E1;
    [apply bool_decide_eq_true in E1|apply bool_decide_eq_false in E1].
  { split; [intros _; exists parsed; auto|reflexivity]. }
  destruct (bool_decide (Dispatcher.hostname parsed = lit "127.0.0.1")) eqn:E2;
    [apply bool_decide_eq_true in E2|apply bool_decide_eq_false in E2].
  { split; [intros _; exists parsed; auto|reflexivity]. }
  cbn [orb].
  destruct (bool_decide (env !! lit "BROWSER_ALLOW_UNSAFE_URLS" = Some (lit "true"))) eqn:E3;
    [apply bool_decide_eq_true in E3|apply bool_decide_eq_false in E3].
  { split; [intros _; exists parsed; auto 6|reflexivity]. }
  split; [discriminate|]. intros (parsed' & [= <-] & [H|[H|[H|H]]]); contradiction.
Qed.

(** [isAllowedUrl] accepts a URL exactly when it parses and its host
    name ends with a listed domain, is [localhost] or [127.0.0.1], or
    [BROWSER_ALLOW_UNSAFE_URLS] is [true].  The test on the domain is a
    test on the end of the host name: any text may stand before the
    domain, with or without a dot. *)
Theorem isAllowedUrl_is_a_suffix_test
  (env : gmap (list N) (list N)) (URL : list N -> option Dispatcher.ParsedURL)
  (st : Browser.State) (url : list N) :
  Browser.isAllowedUrl env URL st url = true
  <-> exists parsed,
        URL url = Some parsed
        /\ ((exists domain prefix,
               domain ∈ Browser.listMcpDomains st
               /\ Dispatcher.hostname parsed = prefix ++ domain)
            \/ Dispatcher.hostname parsed = lit "localhost"
            \/ Dispatcher.hostname parsed = lit "127.0.0.1"
            \/ env !! lit "BROWSER_ALLOW_UNSAFE_URLS" = Some (lit "true")).
Proof. apply isAllowedUrl_iff. Qed.

(** [addMcpDomain] adds a new domain at the end of the list and
    leaves the list alone when the domain is there already, so adding
    twice is adding once; after [removeMcpDomain] the domain is not
    listed; and removing a domain that was just added, and was not listed
    before, gives back the list as it was. *)
Theorem addMcpDomain_removeMcpDomain_round_trip (st : Browser.State) (domain : list N) :
  Browser.listMcpDomains (Browser.addMcpDomain domain st)
  = (if bool_decide (domain ∈ Browser.listMcpDomains st)
     then Browser.listMcpDomains st
     else Browser.listMcpDomains st ++ [domain])
  /\ Browser.addMcpDomain domain (Browser.addMcpDomain domain st)
     = Browser.addMcpDomain domain st
  /\ (domain ∉ Browser.listMcpDomains (Browser.removeMcpDomain domain st))
  /\ (domain ∉ Browser.listMcpDomains st ->
      Browser.listMcpDomains
        (Browser.removeMcpDomain domain (Browser.addMcpDomain domain st))
      = Browser.listMcpDomains st).
Proof.
  unfold Browser.listMcpDomains.
  assert (forall s, domain ∈ Browser.readAllowedDomains s ->
                    Browser.addMcpDomain domain s = s) as Hpresent.
  { intros s Hin. unfold Browser.addMcpDomain. cbv zeta.
    rewrite bool_decide_eq_true_2 by exact Hin. reflexivity. }
  assert (domain ∉ Browser.readAllowedDomains st ->
          Browser.readAllowedDomains (Browser.addMcpDomain domain st)
          = Browser.readAllowedDomains st ++ [domain]) as Habsent.
  { intros Hout. unfold Browser.addMcpDomain. cbv zeta.
    rewrite bool_decide_eq_false_2 by exact Hout. reflexivity. }
  split; [|split; [|split]].
  - destruct (decide (domain ∈ Browser.readAllowedDomains st)) as [Hin|Hout].
    + rewrite bool_decide_eq_true_2, Hpresent by exact Hin. reflexivity.
    + rewrite bool_decide_eq_false_2 by exact Hout. exact (Habsent Hout).
  - apply Hpresent.
    destruct (decide (domain ∈ Browser.readAllowedDomains st)) as [Hin|Hout].
    + rewrite Hpresent by exact Hin. exact Hin.
    + rewrite Habsent by exact Hout. apply elem_of_app. right. apply list_elem_of_here.
  - cbn. intros Hin. apply list_elem_of_filter in Hin as [Hne _]. exact (Hne eq_refl).
  - intros Hout. unfold Browser.removeMcpDomain. cbv zeta.
    rewrite Habsent by exact Hout. cbn [Browser.readAllowedDomains Browser.writeAllowedDomains Browser.config].
    rewrite filter_app, filter_cons, filter_nil.
    rewrite decide_False by (intros H; exact (H eq_refl)). rewrite app_nil_r.
    revert Hout. generalize (Browser.readAllowedDomains st). intros l Hout.
    induction l as [|d l IH]; [reflexivity|].
    apply not_elem_of_cons in Hout as [Hne Hout].
    rewrite filter_cons, decide_True by congruence. f_equal. exact (IH Hout).
Qed.

(** When the configuration file gives no list, [addMcpDomain] pushes
    the new domain onto the array of defaults itself: the defaults of
    the running process then hold the domain, and it stays listed if the
    file written is lost again.  With a list in the file the defaults are
    not touched. *)
Theorem addMcpDomain_changes_the_defaults (st : Browser.State) (domain : list N) :
  domain ∉ Browser.listMcpDomains st ->
  match Browser.config st with
  | Browser.Listing _ =>
      Browser.defaults (Browser.addMcpDomain domain st) = Browser.defaults st
  | Browser.Missing | Browser.Unusable =>
      Browser.defaults (Browser.addMcpDomain domain st)
      = Browser.defaults st ++ [domain]
      /\ Browser.listMcpDomains
           {| Browser.config := Browser.Missing;
              Browser.defaults := Browser.defaults (Browser.addMcpDomain domain st) |}
         = Browser.listMcpDomains st ++ [domain]
  end.
Proof.
  unfold Browser.listMcpDomains, Browser.addMcpDomain. cbv zeta. intros Hout.
  rewrite bool_decide_eq_false_2 by exact Hout. cbn [negb].
  unfold Browser.readAllowedDomains.
  destruct (Browser.config st); cbn; auto.
Qed.

Lemma addMcpDomain_changes_the_defaults_witness :
  Browser.listMcpDomains
    {| Browser.config := Browser.Missing;
       Browser.defaults :=
         Browser.defaults (Browser.addMcpDomain (lit "example.com")
                             (Browser.loaded Browser.Missing)) |}
  = Browser.DEFAULT_ALLOWED_DOMAINS ++ [lit "example.com"].
Proof.
  assert (lit "example.com" ∉ Browser.listMcpDomains (Browser.loaded Browser.Missing))
    as Hout by (apply (bool_decide_unpack _); vm_compute; exact I).
  exact (proj2 (addMcpDomain_changes_the_defaults (Browser.loaded Browser.Missing)
                  (lit "example.com") Hout)).
Defined.

Section BrowserRun.

Variable env : gmap (list N) (list N).
Variable URL : list N -> option Dispatcher.ParsedURL.
Variable fetch : nat -> Browser.Request -> Outcome Browser.Response.
Variable JSON_stringify : JsVal -> list N.

Lemma directFetch_shape (url method : list N) (headers : gmap (list N) (list N))
  (body : JsVal) :
  exists request,
    Browser.req_url request = url
    /\ Browser.req_method request = method
    /\ forall made,
         written (Browser.directFetch fetch JSON_stringify made url method headers body)
         = [request]
         /\ (forall error,
               outcome (Browser.directFetch fetch JSON_stringify made url method
                          headers body) = Threw error ->
               error = JsThrown
               \/ exists message, error = JsError (lit "Fetch failed: " ++ message)).
Proof.
  unfold Browser.directFetch. cbv zeta.
  set (request := Browser.Build_Request _ _ _ _).
  exists request. split; [reflexivity|]. split; [reflexivity|]. intros made.
  unfold call, bind, try_catch, tell, ret, throw, written, outcome.
  destruct (fetch made request) as [response|[message|]]; cbn [fst snd app].
  - destruct (includes _ _);
      [destruct (Browser.json response) as [data|[message|]]
      |destruct (Browser.text response) as [data|[message|]]];
      cbn [fst snd app]; (split; [reflexivity|]); intros error [= <-]; eauto.
  - split; [reflexivity|]. intros error [= <-]. eauto.
  - split; [reflexivity|]. intros error [= <-]. eauto.
Qed.

Lemma executeBrowser_trace (st : Browser.State) (payload : Browser.BrowserPayload) :
  let url := Browser.url payload in
  let method := default (lit "GET") (Browser.method payload) in
  let headers := default ∅ (Browser.headers payload) in
  let jina := {| Browser.req_url := lit "https://r.jina.ai/" ++ url;
                 Browser.req_method := lit "GET";
                 Browser.req_headers := Browser.with_agent headers;
                 Browser.req_body := None |} in
  let direct := fun made =>
    Browser.directFetch fetch JSON_stringify made url method headers
      (Browser.body payload) in
  let run := Browser.executeBrowser env URL fetch JSON_stringify st payload in
  if negb (Dispatcher.env_is_true env "BROWSER_ALLOW_UNSAFE_URLS")
     && negb (Browser.isAllowedUrl env URL st url)
  then run = ([], Threw (JsError
                 (lit "URL not allowed. Allowed domains: "
                  ++ join (lit ", ") (Browser.listMcpDomains st)
                  ++ lit ", localhost. Set BROWSER_ALLOW_UNSAFE_URLS=true in .env to bypass.")))
  else
    match fetch 0%nat jina with
    | Returned response =>
        if Browser.ok response then
          match Browser.text response with
          | Returned text =>
              run = ([jina], Returned (lit "Fetched via Jina Reader:"
                                       ++ [Dispatcher.newline]
                                       ++ Browser.truncated 15000 text))
          | Threw _ =>
              run = ([jina] ++ written (direct 1%nat), outcome (direct 1%nat))
          end
        else
          match outcome (direct 1%nat) with
          | Returned result =>
              run = ([jina] ++ written (direct 1%nat), Returned result)
          | Threw _ =>
              run = ([jina] ++ written (direct 1%nat) ++ written (direct 2%nat),
                     outcome (direct 2%nat))
          end
    | Threw _ => run = ([jina] ++ written (direct 1%nat), outcome (direct 1%nat))
    end.
Proof.
  intros url method headers jina direct run.
  destruct (directFetch_shape url method headers (Browser.body payload))
    as (request & _ & _ & Hshape).
  assert (forall made, length (written (direct made)) = 1%nat) as Hone
    by (intros made; unfold direct; rewrite (proj1 (Hshape made)); reflexivity).
  unfold run, Browser.executeBrowser. cbv zeta.
  fold url method headers jina. fold (direct 1%nat).
  destruct (negb _ && negb _); [reflexivity|].
  unfold call, bind, try_catch, tell, ret, throw, written, outcome.
  unfold written in Hone.
  destruct (fetch 0%nat jina) as [response|error]; cbn [fst snd app length].
  - destruct (Browser.ok response); cbn [negb].
    + destruct (Browser.text response) as [text|error]; cbn [fst snd app length];
        [reflexivity|]. fold (direct 1%nat). destruct (direct 1%nat) as [w r].
      reflexivity.
    + specialize (Hone 1%nat). fold (direct 2%nat).
      destruct (direct 1%nat) as [w [result|error]]; cbn [fst snd app length] in *;
        [reflexivity|]. rewrite Hone. fold (direct 2%nat).
      destruct (direct 2%nat) as [w' r']. reflexivity.
  - fold (direct 1%nat). destruct (direct 1%nat) as [w r]. reflexivity.
Qed.

(** Every request [executeBrowser] makes goes to the address of the
    payload, directly or through the Jina reader, and is made only if
    [BROWSER_ALLOW_UNSAFE_URLS] is [true] or the address parses and its
    host name ends with a listed domain or is [localhost] or
    [127.0.0.1]. *)
Theorem executeBrowser_contacts_only_allowed_hosts
  (st : Browser.State) (payload : Browser.BrowserPayload) (request : Browser.Request) :
  request ∈ written (Browser.executeBrowser env URL fetch JSON_stringify st payload) ->
  (Browser.req_url request = lit "https://r.jina.ai/" ++ Browser.url payload
   \/ Browser.req_url request = Browser.url payload)
  /\ (env !! lit "BROWSER_ALLOW_UNSAFE_URLS" = Some (lit "true")
      \/ exists parsed,
           URL (Browser.url payload) = Some parsed
           /\ ((exists domain prefix,
                  domain ∈ Browser.listMcpDomains st
                  /\ Dispatcher.hostname parsed = prefix ++ domain)
               \/ Dispatcher.hostname parsed = lit "localhost"
               \/ Dispatcher.hostname parsed = lit "127.0.0.1")).
Proof.
  intros Hin. pose proof (executeBrowser_trace st payload) as Htrace.
  cbv beta zeta in Htrace.
  destruct (directFetch_shape (Browser.url payload)
              (default (lit "GET") (Browser.method payload))
              (default ∅ (Browser.headers payload)) (Browser.body payload))
    as (direct & Hurl & _ & Hshape).
  rewrite !(proj1 (Hshape _)) in Htrace.
  destruct (negb _ && negb _) eqn:Egate.
  { rewrite Htrace in Hin. inversion Hin. }
  split.
  - assert (request ∈ [ {| Browser.req_url := lit "https://r.jina.ai/" ++ Browser.url payload;
                           Browser.req_method := lit "GET";
                           Browser.req_headers :=
                             Browser.with_agent (default ∅ (Browser.headers payload));
                           Browser.req_body := None |}; direct; direct ]) as Hcases.
    { destruct (fetch 0%nat _) as [response|error];
        [destruct (Browser.ok response);
         [destruct (Browser.text response)|destruct (outcome _)]|];
        rewrite Htrace in Hin; cbn [written fst app] in Hin;
        repeat (apply elem_of_cons in Hin as [->|Hin];
                [repeat first [apply list_elem_of_here | apply list_elem_of_further]|]);
        inversion Hin. }
    repeat (apply elem_of_cons in Hcases as [->|Hcases]; [auto|]).
    inversion Hcases.
  - apply andb_false_iff in Egate as [Eunsafe|Eallowed].
    + left. apply negb_false_iff in Eunsafe. exact (bool_decide_eq_true_1 _ Eunsafe).
    + apply negb_false_iff in Eallowed.
      apply isAllowedUrl_iff in Eallowed as (parsed & Hparsed & Hhost).
      destruct Hhost as [H|[H|[H|H]]]; [right|right|right|left; exact H];
        exists parsed; auto.
Qed.

(** Past the allow-list, [executeBrowser] first asks the Jina reader
    with a [GET], whatever the method of the payload, and then fetches
    the address directly with the payload's method zero, one or two
    times: not at all exactly when Jina answered with success and its
    text could be read (the result is that text, cut after 15000 code
    units); twice exactly when Jina answered without success and the
    direct fetch threw, which repeats it once; once otherwise.  Whenever a
    direct fetch is made the outcome is that of the last one, and an
    error thrown is [Fetch failed: ...] or a value that is not an
    [Error]. *)
Theorem executeBrowser_tries_jina_then_direct
  (st : Browser.State) (payload : Browser.BrowserPayload) :
  let url := Browser.url payload in
  let method := default (lit "GET") (Browser.method payload) in
  let headers := default ∅ (Browser.headers payload) in
  let jina := {| Browser.req_url := lit "https://r.jina.ai/" ++ url;
                 Browser.req_method := lit "GET";
                 Browser.req_headers := Browser.with_agent headers;
                 Browser.req_body := None |} in
  let direct := fun made =>
    Browser.directFetch fetch JSON_stringify made url method headers
      (Browser.body payload) in
  let run := Browser.executeBrowser env URL fetch JSON_stringify st payload in
  Dispatcher.env_is_true env "BROWSER_ALLOW_UNSAFE_URLS" = true
  \/ Browser.isAllowedUrl env URL st url = true ->
  exists (request : Browser.Request) (directs : nat),
    written run = jina :: replicate directs request
    /\ Browser.req_url request = url
    /\ Browser.req_method request = method
    /\ (directs = 0%nat
        <-> exists response text,
              fetch 0%nat jina = Returned response /\ Browser.ok response = true
              /\ Browser.text response = Returned text)
    /\ (directs = 0%nat ->
        exists text,
          outcome run = Returned (lit "Fetched via Jina Reader:" ++ [Dispatcher.newline] ++ text)
          /\ N.of_nat (length text) <= 15015)
    /\ (directs = 2%nat
        <-> exists response error,
              fetch 0%nat jina = Returned response /\ Browser.ok response = false
              /\ outcome (direct 1%nat) = Threw error)
    /\ (directs <> 0%nat -> outcome run = outcome (direct directs))
    /\ (directs <= 2)%nat
    /\ (forall error,
          outcome run = Threw error ->
          error = JsThrown
          \/ exists message, error = JsError (lit "Fetch failed: " ++ message)).
Proof.
  intros url method headers jina direct run Hgate.
  pose proof (executeBrowser_trace st payload) as Htrace.
  cbv beta zeta in Htrace. fold url method headers jina run in Htrace.
  replace (negb (Dispatcher.env_is_true env "BROWSER_ALLOW_UNSAFE_URLS")
           && negb (Browser.isAllowedUrl env URL st url)) with false in Htrace
    by (destruct Hgate as [-> | ->]; [reflexivity|apply eq_sym, andb_false_r]).
  destruct (directFetch_shape url method headers (Browser.body payload))
    as (request & Hurl & Hmethod & Hshape).
  rewrite !(proj1 (Hshape _)) in Htrace.
  assert (forall made error, outcome (direct made) = Threw error ->
            error = JsThrown
            \/ exists message, error = JsError (lit "Fetch failed: " ++ message))
    as Herror by (intros made; exact (proj2 (Hshape made))).
  fold (direct 1%nat) (direct 2%nat) in Htrace.
  exists request.
  assert (forall text : list N, N.of_nat (length (Browser.truncated 15000 text)) <= 15015)
    as Hbound.
  { intros text. unfold Browser.truncated, substring0.
    destruct (N.ltb_spec 15000 (N.of_nat (length text))); [|lia].
    rewrite length_app, length_take. cbn [length app lit fmap list_fmap list_ascii_of_string].
    lia. }
  destruct (fetch 0%nat jina) as [response|error] eqn:Efetch.
  - destruct (Browser.ok response) eqn:Eok.
    + destruct (Browser.text response) as [text|error] eqn:Etext.
      * exists 0%nat. rewrite Htrace. cbn [written outcome fst snd replicate].
        split; [reflexivity|]. split; [exact Hurl|]. split; [exact Hmethod|].
        split; [split; [intros _; eauto|reflexivity]|].
        split; [intros _; eauto|].
        split; [split; [discriminate|intros (r & e & [= <-] & Hno & _); congruence]|].
        split; [congruence|]. split; [lia|]. discriminate.
      * exists 1%nat. rewrite Htrace. cbn [written outcome fst snd replicate app].
        split; [reflexivity|]. split; [exact Hurl|]. split; [exact Hmethod|].
        split; [split; [discriminate|intros (r & t & [= <-] & _ & Ht); congruence]|].
        split; [discriminate|].
        split; [split; [discriminate|intros (r & e & [= <-] & Hno & _); congruence]|].
        split; [reflexivity|]. split; [lia|]. apply Herror.
    + destruct (outcome (direct 1%nat)) as [result|error] eqn:Edirect.
      * exists 1%nat. rewrite Htrace. cbn [written outcome fst snd replicate app].
        split; [reflexivity|]. split; [exact Hurl|]. split; [exact Hmethod|].
        split; [split; [discriminate|intros (r & t & [= <-] & Hyes & _); congruence]|].
        split; [discriminate|].
        split; [split; [discriminate|intros (r & e & _ & _ & [=])]|].
        split; [intros _; exact (eq_sym Edirect)|]. split; [lia|]. discriminate.
      * exists 2%nat. rewrite Htrace. cbn [written outcome fst snd replicate app].
        split; [reflexivity|]. split; [exact Hurl|]. split; [exact Hmethod|].
        split; [split; [discriminate|intros (r & t & [= <-] & Hyes & _); congruence]|].
        split; [discriminate|].
        split; [split; [intros _; eauto|reflexivity]|].
        split; [reflexivity|]. split; [lia|]. apply Herror.
  - exists 1%nat. rewrite Htrace. cbn [written outcome fst snd replicate app].
    split; [reflexivity|]. split; [exact Hurl|]. split; [exact Hmethod|].
    split; [split; [discriminate|intros (r & t & [=] & _)]|].
    split; [discriminate|].
    split; [split; [discriminate|intros (r & e & [=] & _)]|].
    split; [reflexivity|]. split; [lia|]. apply Herror.
Qed.

End BrowserRun.

Lemma executeBrowser_contacts_only_allowed_hosts_witness :
  exists parsed,
    Scenario.URL (lit "https://api.github.com/repos") = Some parsed
    /\ exists domain prefix,
         domain ∈ Browser.DEFAULT_ALLOWED_DOMAINS
         /\ Dispatcher.hostname parsed = prefix ++ domain.
Proof.
  assert ({| Browser.req_url := lit "https://api.github.com/repos";
             Browser.req_method := lit "GET";
             Browser.req_headers := Browser.with_agent ∅;
             Browser.req_body := None |}
          ∈ written (Browser.executeBrowser ∅ Scenario.URL Browser.jina_down
                       Browser.no_body (Browser.loaded Browser.Missing)
                       Browser.github_repos)) as Hin
    by (vm_compute; apply list_elem_of_further, list_elem_of_here).
  destruct (executeBrowser_contacts_only_allowed_hosts ∅ Scenario.URL
              Browser.jina_down Browser.no_body _ _ _ Hin)
    as [_ [Hunsafe|(parsed & Hparsed & [Hdomain|[Hlocal|Hlocal]])]].
  - exfalso. vm_compute in Hunsafe. discriminate Hunsafe.
  - exists parsed. split; [exact Hparsed|exact Hdomain].
  - exfalso. vm_compute in Hparsed. injection Hparsed as <-. discriminate Hlocal.
  - exfalso. vm_compute in Hparsed. injection Hparsed as <-. discriminate Hlocal.
Defined.

Lemma executeBrowser_tries_jina_then_direct_witness :
  exists request,
    written (Browser.executeBrowser ∅ Scenario.URL Browser.jina_down Browser.no_body
               (Browser.loaded Browser.Missing) Browser.github_repos)
    = [ {| Browser.req_url := lit "https://r.jina.ai/https://api.github.com/repos";
           Browser.req_method := lit "GET";
           Browser.req_headers := Browser.with_agent ∅;
           Browser.req_body := None |}; request; request ]
    /\ Browser.req_url request = lit "https://api.github.com/repos".
Proof.
  destruct (executeBrowser_tries_jina_then_direct ∅ Scenario.URL Browser.jina_down
              Browser.no_body (Browser.loaded Browser.Missing) Browser.github_repos)
    as (request & retries & Hwritten & Hurl & _ & _ & _ & [_ Htwice] & _).
  - right. vm_compute. reflexivity.
  - exists request. rewrite Hwritten, Htwice; [split; [reflexivity|exact Hurl]|].
    eexists _, _. split; [vm_compute; reflexivity|]. split; reflexivity.
Defined.

(** ** The pipeline helpers *)

Lemma includes_prefix (s a b : list N) :
  includes s (a ++ b) = true -> includes s a = true.
Proof.
  intros H. apply includes_inv in H as (before & rest & ->).
  rewrite <- (app_assoc a b rest). apply includes_app.
Qed.

(** A query that contains [write me] or [create a story] (in any
    letter case) also matches the action rule, which is tested before the
    creative one: it is classified as comparison, real-time, calculation
    or action, never as creative.  The two patterns of the creative rule
    cannot decide. *)
Theorem detectIntent_shadowed_creative_patterns (query : list N) :
  includes (toLowerCase query) (lit "write me") = true
  \/ includes (toLowerCase query) (lit "create a story") = true ->
  Validation.is_action (toLowerCase query) = true
  /\ Validation.detectIntent query
     ∈ [Validation.comparison; Validation.real_time; Validation.calculation;
        Validation.action].
Proof.
  intros H.
  assert (Validation.is_action (toLowerCase query) = true) as Haction.
  { unfold Validation.is_action. destruct H as [H|H].
    - rewrite (includes_prefix _ (lit "write") (lit " me") H).
      rewrite !orb_true_r. reflexivity.
    - rewrite (includes_prefix _ (lit "create") (lit " a story") H). reflexivity. }
  split; [exact Haction|].
  unfold Validation.detectIntent. cbv zeta. rewrite Haction.
  destruct (Validation.is_comparison _); [apply list_elem_of_here|].
  destruct (Validation.is_real_time _);
    [apply list_elem_of_further, list_elem_of_here|].
  destruct (Validation.is_calculation _);
    repeat first [apply list_elem_of_here | apply list_elem_of_further].
Qed.

Lemma detectIntent_shadowed_creative_patterns_witness :
  Validation.detectIntent (lit "Write me a poem about spring")
  ∈ [Validation.comparison; Validation.real_time; Validation.calculation;
     Validation.action].
Proof.
  assert (includes (toLowerCase (lit "Write me a poem about spring")) (lit "write me")
          = true) as Hfound by (vm_compute; reflexivity).
  exact (proj2 (detectIntent_shadowed_creative_patterns _ (or_introl Hfound))).
Defined.

(** A query whose lower-cased form is longer than 100 code units is
    never classified as general or creative: when no earlier rule takes
    it, the research rule does, by its length. *)
Theorem detectIntent_long_query_is_never_general (query : list N) :
  (100 < length (toLowerCase query))%nat ->
  Validation.detectIntent query <> Validation.general
  /\ Validation.detectIntent query <> Validation.creative.
Proof.
  intros Hlong. unfold Validation.detectIntent. cbv zeta.
  assert (Validation.is_research (toLowerCase query) = true) as Hresearch.
  { unfold Validation.is_research.
    apply Nat.ltb_lt in Hlong. rewrite Hlong. rewrite !orb_true_r. reflexivity. }
  rewrite Hresearch.
  repeat match goal with |- context [if ?b then _ else _] => destruct b end;
    split; discriminate.
Qed.

Lemma detectIntent_long_query_is_never_general_witness :
  Validation.detectIntent (replicate 101 (0x61 : N)) <> Validation.general.
Proof.
  assert (100 < length (toLowerCase (replicate 101 (0x61 : N))))%nat as Hlong
    by (vm_compute; lia).
  exact (proj1 (detectIntent_long_query_is_never_general _ Hlong)).
Defined.

(** A new pipeline context is idle, without end time, and its
    sub-queries start with the query itself; there are one or three of
    them, three exactly when the query is a research query, or a
    comparison query in which the pattern of [decomposeQuery] finds two
    subjects; for a research query the two added ones are the query
    followed by [recent developments 2024] and by [expert analysis]. *)
Theorem createPipelineContext_sub_queries
  (vsMatch : list N -> option (list N * list N)) (now : Z) (query : list N) :
  let context := Pipeline.createPipelineContext vsMatch now query in
  let queries := Validation.decomposedQueries context in
  Validation.stage context = Validation.idle
  /\ Validation.endTime context = None
  /\ head queries = Some query
  /\ (length queries = 1%nat \/ length queries = 3%nat)
  /\ (length queries = 3%nat
      <-> Validation.detectIntent query = Validation.research
          \/ (Validation.detectIntent query = Validation.comparison
              /\ is_Some (vsMatch query)))
  /\ (Validation.detectIntent query = Validation.research ->
      queries = [query; query ++ lit " recent developments 2024";
                 query ++ lit " expert analysis"]).
Proof.
  intros context queries. unfold queries, context, Pipeline.createPipelineContext.
  cbv zeta. cbn [Validation.stage Validation.endTime Validation.decomposedQueries].
  unfold Pipeline.decomposeQuery. cbv zeta.
  split; [reflexivity|]. split; [reflexivity|].
  destruct (Validation.detectIntent query);
    try destruct (vsMatch query) as [[subject1 subject2]|];
    cbn [app head length];
    (split; [reflexivity|]); (split; [auto|]);
    (split; [split; [intros H; try discriminate H; auto
                    |intros [H|[H [x Hx]]]; try discriminate; reflexivity]
            |intros H; try discriminate H; reflexivity]).
Qed.

Lemma extractCitations_lookup (sources : list Pipeline.Source)
  (position : nat) (citation : Validation.Citation) :
  Pipeline.extractCitations sources !! position = Some citation
  <-> exists source,
        sources !! position = Some source
        /\ citation = {| Validation.index := Z.of_nat position + 1;
                         Validation.title := Pipeline.s_title source;
                         Validation.url := Pipeline.s_url source;
                         Validation.snippet := Pipeline.s_snippet source |}.
Proof.
  unfold Pipeline.extractCitations. rewrite list_lookup_imap.
  destruct (sources !! position) as [source|]; cbn.
  - split; [intros [= <-]; eauto|intros (source' & [= <-] & ->); reflexivity].
  - split; [discriminate|intros (source' & [=] & _)].
Qed.

Lemma formatCitations_of_extracted (sources : list Pipeline.Source) :
  Pipeline.formatCitations (Pipeline.extractCitations sources)
  = match sources with
    | [] => []
    | _ :: _ =>
        Pipeline.sources_heading
        ++ join [Dispatcher.newline]
             (imap (fun position source =>
                      lit "[" ++ to_string (JNum (Z.of_nat position + 1)) ++ lit "] "
                      ++ Pipeline.s_title source ++ lit " - " ++ Pipeline.s_url source)
                sources)
    end
  /\ (Pipeline.formatCitations (Pipeline.extractCitations sources) = []
      <-> sources = []).
Proof.
  assert (Pipeline.formatCitations (Pipeline.extractCitations sources)
          = match sources with
            | [] => []
            | _ :: _ =>
                Pipeline.sources_heading
                ++ join [Dispatcher.newline]
                     (imap (fun position source =>
                              lit "[" ++ to_string (JNum (Z.of_nat position + 1)) ++ lit "] "
                              ++ Pipeline.s_title source ++ lit " - "
                              ++ Pipeline.s_url source)
                        sources)
            end) as E.
  { destruct sources as [|source sources]; [reflexivity|].
    unfold Pipeline.formatCitations, Pipeline.extractCitations.
    rewrite fmap_imap.
    change (imap ?f (source :: sources)) with (f 0%nat source :: imap (f ∘ S) sources).
    reflexivity. }
  split; [exact E|]. rewrite E.
  destruct sources; [tauto|]. split; discriminate.
Qed.

(** [extractCitations] keeps the sources in order and numbers them from 1:
    the citation at position [k] (from 0) is the source at position [k]
    with index [k + 1], and there is no citation where there is no
    source.  Formatted, the citations are empty exactly when there is no
    source; otherwise they are the heading followed by one line per
    source, in order, each starting with its number in brackets. *)
Theorem citations_are_numbered_from_one (sources : list Pipeline.Source) :
  (forall position citation,
     Pipeline.extractCitations sources !! position = Some citation
     <-> exists source,
           sources !! position = Some source
           /\ citation = {| Validation.index := Z.of_nat position + 1;
                            Validation.title := Pipeline.s_title source;
                            Validation.url := Pipeline.s_url source;
                            Validation.snippet := Pipeline.s_snippet source |})
  /\ Pipeline.formatCitations (Pipeline.extractCitations sources)
     = match sources with
       | [] => []
       | _ :: _ =>
           Pipeline.sources_heading
           ++ join [Dispatcher.newline]
                (imap (fun position source =>
                         lit "[" ++ to_string (JNum (Z.of_nat position + 1)) ++ lit "] "
                         ++ Pipeline.s_title source ++ lit " - " ++ Pipeline.s_url source)
                   sources)
       end
  /\ (Pipeline.formatCitations (Pipeline.extractCitations sources) = []
      <-> sources = []).
Proof.
  split; [intros position citation; apply extractCitations_lookup|].
  apply formatCitations_of_extracted.
Qed.

(** ** The streaming endpoint, continued *)

(** When the request is accepted and the dispatch returns, the stream
    is [start], the log lines, [tool_result], some [summary_chunk]s and
    [done], and what [done] carries was streamed before it: it is the
    concatenation of all the chunks sent, none of them empty, or it is the
    raw result, which was then sent as the last chunk. *)
Theorem streamExecute_done_carries_what_was_streamed
  (dispatchTool : list N -> gmap (list N) JsVal -> Comp (list N) (list N))
  (JSON_parse : list N -> option (gmap (list N) JsVal))
  (streamSummarizeToolResult : list N -> list N -> list N -> Outcome Server.SummaryStream)
  (logTaskExecuted : list N -> list N -> gmap (list N) JsVal -> list N -> bool -> Outcome unit)
  (query : Server.Query) (taskId tool payloadStr : list N)
  (payload : gmap (list N) JsVal) (rawResult : list N) :
  Server.given (Server.q_taskId query) = Some taskId ->
  Server.given (Server.q_tool query) = Some tool ->
  Server.given (Server.q_payload query) = Some payloadStr ->
  JSON_parse payloadStr = Some payload ->
  outcome (dispatchTool tool payload) = Returned rawResult ->
  let run := Server.streamExecute dispatchTool JSON_parse
               streamSummarizeToolResult logTaskExecuted query in
  exists (sent : list (list N)) (final : list N),
    written run =
      Server.Start taskId tool :: (Server.Log <$> written (dispatchTool tool payload))
      ++ Server.ToolResult rawResult :: (Server.SummaryChunk <$> sent)
      ++ [Server.Done final]
    /\ (final = concat sent /\ Forall (fun content => truthy content = true) sent
        \/ final = rawResult /\ last sent = Some rawResult).
Proof.
  intros Et Eo Ep Ej Eout run. unfold run.
  rewrite streamExecute_eq, Et, Eo, Ep, Ej. cbv zeta. rewrite Eout, summarize_eq.
  assert (forall contents : list (list N),
            (Server.SummaryChunk <$> contents)
              ++ [Server.SummaryChunk rawResult; Server.Done rawResult]
            = (Server.SummaryChunk <$> (contents ++ [rawResult]))
              ++ [Server.Done rawResult]) as Hfallback
    by (intros contents; rewrite fmap_app, <- app_assoc; reflexivity).
  destruct (streamSummarizeToolResult _ tool rawResult) as [stream|e].
  - cbv zeta. set (contents := Server.contents_of (Server.chunks stream)).
    assert (Forall (fun content => truthy content = true) contents) as Htruthy.
    { apply Forall_forall. intros content Hin. unfold contents, Server.contents_of in Hin.
      apply list_elem_of_filter in Hin as [Hin _]. exact Hin. }
    destruct (Server.failure stream).
    + exists (contents ++ [rawResult]), rawResult. cbn [written fst].
      rewrite Hfallback. split; [reflexivity|]. right. split; [reflexivity|apply last_snoc].
    + destruct (logTaskExecuted _ _ _ _ _).
      * exists contents, (concat contents). cbn [written fst]. split; [reflexivity|].
        left. split; [reflexivity|exact Htruthy].
      * exists (contents ++ [rawResult]), rawResult. cbn [written fst].
        rewrite Hfallback. split; [reflexivity|]. right. split; [reflexivity|apply last_snoc].
  - exists [rawResult], rawResult. cbn [written fst]. split; [reflexivity|].
    right. split; reflexivity.
Qed.

(** The audit log is written inside the [try] of the summarizing
    step: when the summary was streamed to its end and
    [logTaskExecuted] throws, the stream goes on with the raw result as
    one more [summary_chunk] and ends with [done] carrying the raw result,
    not the summary; no [error] event is sent. *)
Theorem audit_failure_degrades_to_raw_result
  (dispatchTool : list N -> gmap (list N) JsVal -> Comp (list N) (list N))
  (JSON_parse : list N -> option (gmap (list N) JsVal))
  (streamSummarizeToolResult : list N -> list N -> list N -> Outcome Server.SummaryStream)
  (logTaskExecuted : list N -> list N -> gmap (list N) JsVal -> list N -> bool -> Outcome unit)
  (query : Server.Query) (taskId tool payloadStr : list N)
  (payload : gmap (list N) JsVal) (rawResult : list N)
  (stream : Server.SummaryStream) (error : Exn) :
  Server.given (Server.q_taskId query) = Some taskId ->
  Server.given (Server.q_tool query) = Some tool ->
  Server.given (Server.q_payload query) = Some payloadStr ->
  JSON_parse payloadStr = Some payload ->
  outcome (dispatchTool tool payload) = Returned rawResult ->
  streamSummarizeToolResult
    (default (lit "Execute task") (Server.given (Server.q_description query)))
    tool rawResult = Returned stream ->
  Server.failure stream = None ->
  logTaskExecuted taskId tool payload
    (concat (Server.contents_of (Server.chunks stream))) true = Threw error ->
  let run := Server.streamExecute dispatchTool JSON_parse
               streamSummarizeToolResult logTaskExecuted query in
  written run =
    Server.Start taskId tool :: (Server.Log <$> written (dispatchTool tool payload))
    ++ Server.ToolResult rawResult
    :: (Server.SummaryChunk <$> Server.contents_of (Server.chunks stream))
    ++ [Server.SummaryChunk rawResult; Server.Done rawResult]
  /\ outcome run = Returned tt
  /\ Server.count Server.error_ev (written run) = 0%nat.
Proof.
  intros Et Eo Ep Ej Eout Esum Hfail Elog run.
  assert (run =
          (Server.Start taskId tool :: (Server.Log <$> written (dispatchTool tool payload))
             ++ Server.ToolResult rawResult
             :: (Server.SummaryChunk <$> Server.contents_of (Server.chunks stream))
             ++ [Server.SummaryChunk rawResult; Server.Done rawResult],
           Returned tt)) as E.
  { unfold run. rewrite streamExecute_eq, Et, Eo, Ep, Ej. cbv zeta.
    rewrite Eout, summarize_eq, Esum. cbv zeta. rewrite Hfail, Elog. reflexivity. }
  rewrite E. cbn [written outcome fst snd].
  split; [reflexivity|]. split; [reflexivity|]. count_events.
Qed.

Lemma streamExecute_done_carries_what_was_streamed_witness :
  exists sent final,
    written (Scenario.server {| Server.q_taskId := Some (lit "p1-task-2");
                                Server.q_tool := Some (lit "slack");
                                Server.q_payload := Some (lit "{}");
                                Server.q_description := None |})
    = Server.Start (lit "p1-task-2") (lit "slack")
      :: (Server.Log <$> [])
      ++ Server.ToolResult (lit "Message sent") :: (Server.SummaryChunk <$> sent)
      ++ [Server.Done final].
Proof.
  destruct (streamExecute_done_carries_what_was_streamed
              (Dispatcher.dispatchTool ∅ [] Scenario.adapters Scenario.URL)
              Scenario.JSON_parse Scenario.streamSummarizeToolResult
              Scenario.logTaskExecuted
              {| Server.q_taskId := Some (lit "p1-task-2");
                 Server.q_tool := Some (lit "slack");
                 Server.q_payload := Some (lit "{}");
                 Server.q_description := None |}
              (lit "p1-task-2") (lit "slack") (lit "{}") ∅ (lit "Message sent"))
    as (sent & final & Hwritten & _); try (vm_compute; reflexivity).
  exists sent, final. exact Hwritten.
Defined.

Lemma audit_failure_degrades_to_raw_result_witness :
  written (Server.streamExecute
             (Dispatcher.dispatchTool ∅ [] Scenario.adapters Scenario.URL)
             Scenario.JSON_parse Scenario.streamSummarizeToolResult
             Faults.audit_disk_full
             {| Server.q_taskId := Some (lit "p1-task-2");
                Server.q_tool := Some (lit "slack");
                Server.q_payload := Some (lit "{}");
                Server.q_description := None |})
  = [ Server.Start (lit "p1-task-2") (lit "slack");
      Server.ToolResult (lit "Message sent");
      Server.SummaryChunk (lit "All ");
      Server.SummaryChunk (lit "done.");
      Server.SummaryChunk (lit "Message sent");
      Server.Done (lit "Message sent") ].
Proof.
  refine (proj1
    (audit_failure_degrades_to_raw_result
       (Dispatcher.dispatchTool ∅ [] Scenario.adapters Scenario.URL)
       Scenario.JSON_parse Scenario.streamSummarizeToolResult Faults.audit_disk_full
       {| Server.q_taskId := Some (lit "p1-task-2");
          Server.q_tool := Some (lit "slack");
          Server.q_payload := Some (lit "{}");
          Server.q_description := None |}
       (lit "p1-task-2") (lit "slack") (lit "{}") ∅ (lit "Message sent")
       {| Server.chunks := [Some (lit "All "); None; Some (lit "done.")];
          Server.failure := None |}
       (JsError (lit "ENOSPC: no space left on device, write"))
       _ _ _ _ _ _ _ _)); try (vm_compute; reflexivity).
Defined.

(** ** The audit log *)

Lemma slice_last_app {A} (n : nat) (l r : list A) :
  Audit.slice_last n (Audit.slice_last n l ++ r) = Audit.slice_last n (l ++ r).
Proof.
  unfold Audit.slice_last. rewrite !length_app, length_drop.
  destruct (decide (length l <= n)%nat) as [Hshort|Hlong].
  - replace (length l - n)%nat with 0%nat by lia.
    rewrite drop_0, Nat.sub_0_r. reflexivity.
  - replace (length l - (length l - n) + length r - n)%nat with (length r) by lia.
    replace (length l + length r - n)%nat with (length l - n + length r)%nat by lia.
    rewrite <- drop_drop, (drop_app_le l r (length l - n)) by lia. reflexivity.
Qed.

Lemma slice_last_short {A} (n : nat) (l : list A) :
  (length l <= n)%nat -> Audit.slice_last n l = l.
Proof.
  intros H. unfold Audit.slice_last.
  replace (length l - n)%nat with 0%nat by lia. apply drop_0.
Qed.

Lemma slice_last_length {A} (n : nat) (l : list A) :
  (length (Audit.slice_last n l) <= n)%nat.
Proof. unfold Audit.slice_last. rewrite length_drop. lia. Qed.

(** An [addEntry] on a file that holds a log or none. *)
Lemma addEntry_enabled (uuid now : list N) (entry_type : Audit.AuditEntryType)
  (entry_data : Audit.AuditData) (file : Audit.AuditFile) (entries : list Audit.AuditEntry) :
  Audit.getAuditLog true file = Audit.Log entries ->
  Audit.addEntry true uuid now entry_type entry_data file
  = (Audit.Stored
       (Audit.slice_last 100
          (entries
           ++ [ {| Audit.id := uuid; Audit.type := entry_type;
                   Audit.timestamp := now; Audit.data := entry_data |} ])),
     Returned {| Audit.id := uuid; Audit.type := entry_type;
                 Audit.timestamp := now; Audit.data := entry_data |}).
Proof.
  unfold Audit.addEntry, Audit.getAuditLog, Audit.saveAuditLog. cbn [negb].
  intros ->.
  destruct (Nat.ltb_spec 100 (length (entries ++
     [ {| Audit.id := uuid; Audit.type := entry_type;
          Audit.timestamp := now; Audit.data := entry_data |} ])));
    [reflexivity|].
  rewrite slice_last_short by lia. reflexivity.
Qed.

(** An [addEntry] on a file that holds something else. *)
Lemma addEntry_foreign (uuid now : list N) (entry_type : Audit.AuditEntryType)
  (entry_data : Audit.AuditData) (file : Audit.AuditFile) (complaint : list N) :
  Audit.getAuditLog true file = Audit.Foreign complaint ->
  Audit.addEntry true uuid now entry_type entry_data file
  = (file, Threw (JsError complaint)).
Proof.
  unfold Audit.addEntry, Audit.getAuditLog. cbn [negb]. intros ->. reflexivity.
Qed.

(** After a series of one or more [addEntry] calls.  With the audit
    enabled and a file that holds a log (or no file, or one that cannot
    be read): every call returns the entry it added and the file holds
    the last 100 entries of the log read before followed by the entries
    added, in order, so it never has more than 100 entries and ends with
    the entry added last.  With the audit enabled and a file whose JSON is
    no log: every call throws the [TypeError] of [log.entries.push] and
    the file stays as it was.  With the audit disabled: the file is as it
    was, the log read is empty whatever the file holds, and every entry
    returned has the id [audit-disabled]. *)
Theorem audit_log_keeps_the_last_hundred
  (AUDIT_ENABLED : bool) (file : Audit.AuditFile) (calls : list Audit.AuditEntry) :
  calls <> [] ->
  let after := Audit.record_all AUDIT_ENABLED file calls in
  let outcome_of := fun call f =>
    snd (Audit.addEntry AUDIT_ENABLED (Audit.id call) (Audit.timestamp call)
           (Audit.type call) (Audit.data call) f) in
  if AUDIT_ENABLED then
    match Audit.getAuditLog true file with
    | Audit.Log before =>
        after = Audit.Stored (Audit.slice_last 100 (before ++ calls))
        /\ Audit.getAuditLog true after
           = Audit.Log (Audit.slice_last 100 (before ++ calls))
        /\ (length (Audit.slice_last 100 (before ++ calls)) <= 100)%nat
        /\ last (Audit.slice_last 100 (before ++ calls)) = last calls
        /\ Forall (fun call => forall f before',
                     Audit.getAuditLog true f = Audit.Log before' ->
                     outcome_of call f = Returned call) calls
    | Audit.Foreign complaint =>
        after = file
        /\ Audit.getAuditLog true after = Audit.Foreign complaint
        /\ Forall (fun call => outcome_of call file = Threw (JsError complaint)) calls
    end
  else
    after = file
    /\ Audit.getAuditLog false after = Audit.Log []
    /\ Forall (fun call =>
                exists entry,
                  outcome_of call file = Returned entry
                  /\ Audit.id entry = lit "audit-disabled") calls.
Proof.
  intros Hcalls after outcome_of. unfold after, outcome_of. destruct AUDIT_ENABLED.
  - destruct (Audit.getAuditLog true file) as [before|complaint] eqn:Eload.
    + assert (Audit.record_all true file calls
              = Audit.Stored (Audit.slice_last 100 (before ++ calls))) as Hafter.
      { clear after outcome_of. revert file before Eload Hcalls.
        induction calls as [|call calls IH]; intros file before Eload Hcalls;
          [contradiction|].
        cbn [Audit.record_all fold_left].
        rewrite (addEntry_enabled _ _ _ _ _ _ Eload). cbn [fst].
        replace (Audit.Build_AuditEntry _ _ _ _) with call by (destruct call; reflexivity).
        destruct calls as [|call' calls]; [reflexivity|].
        fold (Audit.record_all true
                (Audit.Stored (Audit.slice_last 100 (before ++ [call])))
                (call' :: calls)).
        rewrite (IH _ (Audit.slice_last 100 (before ++ [call]))) by
          (reflexivity || discriminate).
        rewrite slice_last_app, <- app_assoc. reflexivity. }
      rewrite Hafter. split; [reflexivity|]. split; [reflexivity|].
      split; [apply slice_last_length|]. split.
      * destruct calls as [|call calls _] using rev_ind; [contradiction|].
        rewrite app_assoc, last_snoc. unfold Audit.slice_last.
        rewrite length_app. cbn [length].
        rewrite drop_app_le by lia. apply last_snoc.
      * apply Forall_forall. intros call _ f before' Ef.
        rewrite (addEntry_enabled _ _ _ _ _ _ Ef). destruct call. reflexivity.
    + assert (forall calls', Audit.record_all true file calls' = file) as Hsame.
      { induction calls' as [|call calls' IH]; [reflexivity|].
        cbn [Audit.record_all fold_left].
        rewrite (addEntry_foreign _ _ _ _ _ _ Eload). exact IH. }
      rewrite Hsame. split; [reflexivity|]. split; [exact Eload|].
      apply Forall_forall. intros call _.
      rewrite (addEntry_foreign _ _ _ _ _ _ Eload). reflexivity.
  - assert (forall f, Audit.record_all false f calls = f) as Hsame.
    { clear. induction calls as [|call calls IH]; intros f; [reflexivity|].
      cbn [Audit.record_all fold_left]. apply IH. }
    rewrite Hsame. split; [reflexivity|]. split; [reflexivity|].
    apply Forall_forall. intros call _. eexists. split; reflexivity.
Qed.

Lemma audit_log_keeps_the_last_hundred_witness :
  Audit.getAuditLog true
    (Audit.record_all true Audit.NoFile
       [ {| Audit.id := lit "6f1c";
            Audit.type := Audit.error;
            Audit.timestamp := lit "2024-01-15T10:00:00.000Z";
            Audit.data := Audit.no_data |} ])
  = Audit.Log
      (Audit.slice_last 100
         ([] ++ [ {| Audit.id := lit "6f1c";
                     Audit.type := Audit.error;
                     Audit.timestamp := lit "2024-01-15T10:00:00.000Z";
                     Audit.data := Audit.no_data |} ])).
Proof.
  assert ([ {| Audit.id := lit "6f1c";
               Audit.type := Audit.error;
               Audit.timestamp := lit "2024-01-15T10:00:00.000Z";
               Audit.data := Audit.no_data |} ] <> []) as Hcalls by discriminate.
  exact (proj1 (proj2 (audit_log_keeps_the_last_hundred true Audit.NoFile _ Hcalls))).
Defined.

(** ** The allow-list endpoints and POST /api/execute *)

Lemma serve_lists (st : Browser.State) (request : Api.McpRequest) (domain : list N) :
  domain ∈ Browser.listMcpDomains (fst (Api.serve st request)) ->
  domain ∈ Browser.listMcpDomains st
  \/ (domain <> []
      /\ exists req_body,
           request = Api.POST req_body
           /\ get req_body (lit "domain") = JStr domain).
Proof.
  destruct request as [|req_body|req_body]; cbn [Api.serve].
  - auto.
  - unfold Api.post_mcp_servers, Api.valid_domain.
    destruct (get req_body (lit "domain")) as [| | | |s] eqn:Ebody; cbn [fst]; auto.
    destruct (truthy s) eqn:Es; cbn [fst]; auto.
    unfold Browser.listMcpDomains, Browser.addMcpDomain. cbv zeta.
    destruct (bool_decide (s ∈ Browser.readAllowedDomains st)); cbn [negb]; auto.
    cbn [Browser.writeAllowedDomains Browser.readAllowedDomains Browser.config].
    intros Hin. apply elem_of_app in Hin as [Hin|Hin]; [left; exact Hin|].
    apply list_elem_of_singleton in Hin. subst domain. right.
    split; [intros ->; discriminate Es|]. exists req_body. auto.
  - unfold Api.delete_mcp_servers, Api.valid_domain.
    destruct (get req_body (lit "domain")) as [| | | |s]; cbn [fst]; auto.
    destruct (truthy s); cbn [fst]; auto.
    unfold Browser.listMcpDomains, Browser.removeMcpDomain. cbv zeta.
    cbn [Browser.writeAllowedDomains Browser.readAllowedDomains Browser.config].
    intros Hin. apply list_elem_of_filter in Hin as [_ Hin]. left. exact Hin.
Qed.

Lemma serve_all_lists (st : Browser.State) (requests : list Api.McpRequest)
  (domain : list N) :
  domain ∈ Browser.listMcpDomains (Api.serve_all st requests) ->
  domain ∈ Browser.listMcpDomains st
  \/ (domain <> []
      /\ exists req_body,
           Api.POST req_body ∈ requests
           /\ get req_body (lit "domain") = JStr domain).
Proof.
  revert st. induction requests as [|request requests IH]; intros st Hin; [left; exact Hin|].
  cbn [Api.serve_all fold_left] in Hin. apply IH in Hin as [Hin|(Hne & req_body & Hreq & Hbody)].
  - apply serve_lists in Hin as [Hin|(Hne & req_body & -> & Hbody)]; [left; exact Hin|].
    right. split; [exact Hne|]. exists req_body. split; [apply list_elem_of_here|exact Hbody].
  - right. split; [exact Hne|]. exists req_body.
    split; [apply list_elem_of_further, Hreq|exact Hbody].
Qed.

(** The endpoints of [/api/mcp_servers] refuse a [domain] that is
    not a string or is empty, so after any series of requests every listed
    domain was listed before or was given in a [POST], and the empty
    domain, whose suffix test every host name passes, is never listed if
    it was not before: a URL is then allowed only by the unsafe flag, by a
    local host name, or by a listed domain that is not empty and ends its
    host name. *)
Theorem mcp_servers_api_never_lists_the_empty_domain
  (env : gmap (list N) (list N)) (URL : list N -> option Dispatcher.ParsedURL)
  (st : Browser.State) (requests : list Api.McpRequest) :
  [] ∉ Browser.listMcpDomains st ->
  let after := Api.serve_all st requests in
  ([] ∉ Browser.listMcpDomains after)
  /\ (forall domain,
        domain ∈ Browser.listMcpDomains after ->
        domain ∈ Browser.listMcpDomains st
        \/ exists req_body,
             Api.POST req_body ∈ requests
             /\ get req_body (lit "domain") = JStr domain)
  /\ (forall url,
        Browser.isAllowedUrl env URL after url = true ->
        env !! lit "BROWSER_ALLOW_UNSAFE_URLS" = Some (lit "true")
        \/ exists parsed,
             URL url = Some parsed
             /\ (Dispatcher.hostname parsed = lit "localhost"
                 \/ Dispatcher.hostname parsed = lit "127.0.0.1"
                 \/ exists domain prefix,
                      domain <> []
                      /\ domain ∈ Browser.listMcpDomains after
                      /\ Dispatcher.hostname parsed = prefix ++ domain)).
Proof.
  intros Hclean after.
  assert ([] ∉ Browser.listMcpDomains after) as Hafter.
  { intros Hin. apply serve_all_lists in Hin as [Hin|[Hne _]]; [exact (Hclean Hin)|].
    exact (Hne eq_refl). }
  split; [exact Hafter|]. split.
  - intros domain Hin. apply serve_all_lists in Hin as [Hin|(_ & req_body & H)]; eauto.
  - intros url Hallowed.
    apply isAllowedUrl_iff in Hallowed as (parsed & Hparsed & Hhost).
    destruct Hhost as [(domain & prefix & Hin & Hhost)|[H|[H|H]]].
    + right. exists parsed. split; [exact Hparsed|]. right. right.
      exists domain, prefix. split; [|auto]. intros ->. exact (Hafter Hin).
    + right. exists parsed. auto.
    + right. exists parsed. auto.
    + left. exact H.
Qed.

Lemma mcp_servers_api_never_lists_the_empty_domain_witness :
  [] ∉ Browser.listMcpDomains
         (Api.serve_all (Browser.loaded Browser.Missing)
            [ Api.POST (Dispatcher.obj [("domain", JStr [])]);
              Api.POST (Dispatcher.obj [("domain", JStr (lit "example.com"))]);
              Api.DELETE (Dispatcher.obj [("domain", JNum 5)]) ]).
Proof.
  assert ([] ∉ Browser.listMcpDomains (Browser.loaded Browser.Missing)) as Hclean
    by (apply (bool_decide_unpack _); vm_compute; exact I).
  exact (proj1 (mcp_servers_api_never_lists_the_empty_domain ∅ Scenario.URL
                  (Browser.loaded Browser.Missing) _ Hclean)).
Defined.

Section ExecuteShape.

Variable dispatchTool : list N -> gmap (list N) JsVal -> Comp (list N) (list N).
Variable summarizeToolResult : JsVal -> list N -> list N -> Outcome (list N).
Variable logTaskExecuted :
  list N -> list N -> gmap (list N) JsVal -> list N -> bool -> Outcome unit.
Variable logError : JsVal -> JsVal -> list N -> Outcome unit.

(** What the handler does once something was thrown. *)
Lemma api_execute_eq (req_body : Api.ExecuteBody) :
  let failed := fun error : Exn =>
    let errorMessage := message_or (lit "Execution failed") error in
    match logError (Api.b_taskId req_body) (Api.b_tool req_body) errorMessage with
    | Returned _ =>
        ([ {| Api.status := 500;
              Api.body := Api.ExecutionFailed (Api.b_taskId req_body) errorMessage |} ],
         Returned tt)
    | Threw error' => ([], Threw error')
    end in
  Api.execute dispatchTool summarizeToolResult logTaskExecuted logError req_body
  = match Api.safeParse req_body with
    | None => ([ {| Api.status := 400; Api.body := Api.InvalidRequest |} ], Returned tt)
    | Some (taskId, tool, payload) =>
        match outcome (dispatchTool tool payload) with
        | Threw error => failed error
        | Returned rawResult =>
            let summarizedResult :=
              match summarizeToolResult
                      (Value.or_else (Api.b_description req_body)
                         (JStr (lit "Execute task"))) tool rawResult with
              | Returned summary => summary
              | Threw _ => rawResult
              end in
            match logTaskExecuted taskId tool payload summarizedResult true with
            | Returned _ =>
                ([ {| Api.status := 200;
                      Api.body := Api.Executed taskId summarizedResult rawResult |} ],
                 Returned tt)
            | Threw error => failed error
            end
        end
    end.
Proof.
  intros failed. unfold failed, Api.execute.
  destruct (Api.safeParse req_body) as [[[taskId tool] payload]|]; [|reflexivity].
  unfold call, bind, try_catch, tell, ret, throw, with_sink, outcome.
  destruct (dispatchTool tool payload) as [logs [rawResult|error]]; cbn [fst snd app].
  - destruct (summarizeToolResult _ tool rawResult) as [summary|e0];
      cbn [fst snd app];
      destruct (logTaskExecuted _ _ _ _ _) as [[]|error]; cbn [fst snd app];
      try reflexivity;
      destruct (logError _ _ _) as [[]|error']; reflexivity.
  - destruct (logError _ _ _) as [[]|error']; reflexivity.
Qed.


(** In [POST /api/execute] the audit log is written inside the outer
    [try]: when the tool has run and [logTaskExecuted] throws, the reply is
    a 500 with the message of that error, although the dispatch succeeded
    (the streaming endpoint, in the same situation, ends with [done]). *)
Theorem api_execute_audit_failure_reports_failure
  (req_body : Api.ExecuteBody) (taskId tool : list N) (payload : gmap (list N) JsVal)
  (rawResult : list N) (error : Exn) :
  Api.safeParse req_body = Some (taskId, tool, payload) ->
  outcome (dispatchTool tool payload) = Returned rawResult ->
  logTaskExecuted taskId tool payload
    match summarizeToolResult
            (Value.or_else (Api.b_description req_body) (JStr (lit "Execute task")))
            tool rawResult with
    | Returned summary => summary
    | Threw _ => rawResult
    end true = Threw error ->
  logError (JStr taskId) (JStr tool) (message_or (lit "Execution failed") error)
  = Returned tt ->
  Api.execute dispatchTool summarizeToolResult logTaskExecuted logError req_body
  = ([ {| Api.status := 500;
          Api.body := Api.ExecutionFailed (JStr taskId)
                        (message_or (lit "Execution failed") error) |} ],
     Returned tt).
Proof.
  intros Eparse Edispatch Elog Eerror. rewrite api_execute_eq. cbv zeta.
  rewrite Eparse, Edispatch, Elog.
  unfold Api.safeParse in Eparse.
  destruct (Api.b_taskId req_body) as [| | | |taskId']; try discriminate.
  destruct (Api.b_tool req_body) as [| | | |tool']; try discriminate.
  destruct (Api.b_payload req_body); [|discriminate].
  injection Eparse as -> -> ->. rewrite Eerror. reflexivity.
Qed.

End ExecuteShape.

Lemma api_execute_audit_failure_reports_failure_witness :
  written (Api.execute (Dispatcher.dispatchTool ∅ [] Scenario.adapters Scenario.URL)
             Api.summarized Faults.audit_disk_full Api.error_logged Api.slack_request)
  = [ {| Api.status := 500;
         Api.body := Api.ExecutionFailed (JStr (lit "p1-task-2"))
                       (lit "ENOSPC: no space left on device, write") |} ].
Proof.
  rewrite (api_execute_audit_failure_reports_failure
             (Dispatcher.dispatchTool ∅ [] Scenario.adapters Scenario.URL)
             Api.summarized Faults.audit_disk_full Api.error_logged Api.slack_request
             (lit "p1-task-2") (lit "slack") ∅ (lit "Message sent")
             (JsError (lit "ENOSPC: no space left on device, write"))
             eq_refl);
    vm_compute; reflexivity.
Defined.

(** ** The planner, and the client on its plans *)

Lemma shown_task_cards (tasks : list Client.Task) :
  Client.shown_tasks (Client.task_cards tasks) = tasks.
Proof.
  unfold Client.shown_tasks, Client.task_cards.
  induction tasks as [|task tasks IH]; [reflexivity|].
  rewrite fmap_cons. cbn [omap list_omap Client.m_task]. f_equal. exact IH.
Qed.

Lemma task_id_inj (planId : list N) (i j : nat) :
  Planner.task_id planId i = Planner.task_id planId j -> i = j.
Proof.
  unfold Planner.task_id. intros H. apply app_inv_head in H.
  apply app_inv_head in H. apply to_string_num_inj in H. lia.
Qed.


